(** * Secure conversion ingestion pipeline: a shallow embedding

    The development follows the four components of the repository:
    the proof-of-work shared by the web pixel ([makePow]) and the gateway
    ([checkPow]), the ingestion gateway ([loader], [action]), the key
    rotation task ([generatePublicKey], [getPrivateKey]) and the exporter
    ([createCsvAndImportToYahoo]).

    Numbers are exact integers ([Z]); byte strings are lists of integers in
    [0, 256); JavaScript strings are lists of code points.  Calls that leave
    the process (the order system, the pixel configuration, the upload API,
    the token endpoint) are oracles whose answers are inputs of the model. *)

From Stdlib Require Import ZArith Lia List Ascii String Bool Sorted.
From stdpp Require Import base gmap sets list strings.

Local Open Scope Z_scope.

(** ** SHA-256 (FIPS 180-4), the digest both sides of the proof-of-work use *)

Module Sha256.

Definition w32 (x : Z) : Z := Z.land x 4294967295.
Definition add32 (x y : Z) : Z := w32 (x + y).
Definition rotr (n x : Z) : Z := Z.lor (Z.shiftr x n) (w32 (Z.shiftl x (32 - n))).
Definition not32 (x : Z) : Z := Z.lxor x 4294967295.

Definition Ch (x y z : Z) : Z := Z.lxor (Z.land x y) (Z.land (not32 x) z).
Definition Maj (x y z : Z) : Z :=
  Z.lxor (Z.lxor (Z.land x y) (Z.land x z)) (Z.land y z).
Definition Sigma0 (x : Z) : Z := Z.lxor (Z.lxor (rotr 2 x) (rotr 13 x)) (rotr 22 x).
Definition Sigma1 (x : Z) : Z := Z.lxor (Z.lxor (rotr 6 x) (rotr 11 x)) (rotr 25 x).
Definition sigma0 (x : Z) : Z := Z.lxor (Z.lxor (rotr 7 x) (rotr 18 x)) (Z.shiftr x 3).
Definition sigma1 (x : Z) : Z := Z.lxor (Z.lxor (rotr 17 x) (rotr 19 x)) (Z.shiftr x 10).

(** The round constants are the first 32 bits of the fractional parts of
    the cube roots of the first 64 primes, the initial hash value those of
    the square roots of the first 8. *)
Definition is_prime (n : nat) : bool :=
  forallb (fun d => negb (Nat.eqb (Nat.modulo n d) 0)) (seq 2 (n - 2)).

Definition primes : list Z :=
  map Z.of_nat (firstn 64 (List.filter is_prime (seq 2 320))).

(** The integer cube root, one binary digit at a time. *)
Fixpoint icbrt_bits (n : nat) (x acc : Z) : Z :=
  match n with
  | O => acc
  | S k =>
      let c := acc + 2 ^ Z.of_nat k in
      if c * c * c <=? x then icbrt_bits k x c else icbrt_bits k x acc
  end.

Definition frac32_cbrt (p : Z) : Z := w32 (icbrt_bits 40 (p * 2 ^ 96) 0).
Definition frac32_sqrt (p : Z) : Z := w32 (Z.sqrt (p * 2 ^ 64)).

Definition K : list Z := Eval vm_compute in map frac32_cbrt primes.

Definition H0 : list Z := Eval vm_compute in map frac32_sqrt (firstn 8 primes).

(** Big-endian bytes of a number, [n] of them. *)
Fixpoint be_bytes (n : nat) (x : Z) : list Z :=
  match n with
  | O => []
  | S k => be_bytes k (Z.shiftr x 8) ++ [Z.land x 255]
  end.

(** Message padding: a one bit, zeros, and the bit length on 64 bits. *)
Definition pad (msg : list Z) : list Z :=
  let len := Z.of_nat (length msg) in
  let nz := Z.to_nat ((55 - len) mod 64) in
  msg ++ [128] ++ repeat 0 nz ++ be_bytes 8 (8 * len).

(** Words of a block; a trailing partial word cannot occur after [pad]. *)
Fixpoint words (fuel : nat) (bs : list Z) : list Z :=
  match fuel, bs with
  | S f, a :: b :: c :: d :: rest =>
      (Z.lor (Z.shiftl a 24) (Z.lor (Z.shiftl b 16) (Z.lor (Z.shiftl c 8) d)))
        :: words f rest
  | _, _ => []
  end.

(** The schedule is kept most recent word first. *)
Definition next_w (w : list Z) : Z :=
  add32 (add32 (sigma1 (nth 1 w 0)) (nth 6 w 0))
        (add32 (sigma0 (nth 14 w 0)) (nth 15 w 0)).

Fixpoint extend (n : nat) (w : list Z) : list Z :=
  match n with
  | O => w
  | S k => extend k (next_w w :: w)
  end.

Definition schedule (block : list Z) : list Z :=
  rev (extend 48 (rev (words 16 block))).

Record regs := Regs { ra : Z; rb : Z; rc : Z; rd : Z; re : Z; rf : Z; rg : Z; rh : Z }.

Definition round (s : regs) (kw : Z * Z) : regs :=
  let t1 := add32 (add32 (add32 (rh s) (Sigma1 (re s))) (Ch (re s) (rf s) (rg s)))
                  (add32 (fst kw) (snd kw)) in
  let t2 := add32 (Sigma0 (ra s)) (Maj (ra s) (rb s) (rc s)) in
  Regs (add32 t1 t2) (ra s) (rb s) (rc s) (add32 (rd s) t1) (re s) (rf s) (rg s).

Definition of_list (h : list Z) : regs :=
  Regs (nth 0 h 0) (nth 1 h 0) (nth 2 h 0) (nth 3 h 0)
       (nth 4 h 0) (nth 5 h 0) (nth 6 h 0) (nth 7 h 0).

Definition to_list (s : regs) : list Z :=
  [ra s; rb s; rc s; rd s; re s; rf s; rg s; rh s].

Definition compress (h : list Z) (block : list Z) : list Z :=
  let s := fold_left round (combine K (schedule block)) (of_list h) in
  map (fun p => add32 (fst p) (snd p)) (combine h (to_list s)).

Fixpoint blocks (fuel : nat) (h : list Z) (bs : list Z) : list Z :=
  match fuel with
  | O => h
  | S f =>
      match bs with
      | [] => h
      | _ => blocks f (compress h (firstn 64 bs)) (skipn 64 bs)
      end
  end.

(** The digest: 32 bytes. *)
Definition digest (msg : list Z) : list Z :=
  let p := pad msg in
  flat_map (be_bytes 4) (blocks (S (length p / 64)) H0 p).

End Sha256.

Definition bytes_of_string (s : string) : list Z :=
  map (fun c => Z.of_N (N_of_ascii c)) (list_ascii_of_string s).

(** ** JavaScript strings, numbers and the platform functions the code calls *)

(** A JavaScript string, as its list of code points; a byte string, as its
    list of bytes.  A header value and a token are strings. *)
Abbreviation jsstr := (list Z).
Abbreviation bytes := (list Z).

(** A string literal of the development, as a JavaScript string. *)
Definition str (s : string) : jsstr := bytes_of_string s.

(** The result of a computation that may throw, or not finish within the
    fuel it is run with. *)
Inductive run (A : Type) : Type :=
| Done (a : A)
| Threw
| OutOfFuel.
Arguments Done {A} a.
Arguments Threw {A}.
Arguments OutOfFuel {A}.

Module Js.

(** [Math.clz32]: leading zero bits of the argument as an unsigned 32-bit
    integer. *)
Definition clz32 (x : Z) : Z :=
  let n := x mod 4294967296 in
  if n =? 0 then 32 else 31 - Z.log2 n.

(** Decimal digits of a natural number, most significant first.  The fuel
    is the number of binary digits, which bounds the decimal ones. *)
Fixpoint digits_fuel (fuel : nat) (n : Z) (acc : jsstr) : jsstr :=
  match fuel with
  | O => acc
  | S f =>
      let acc' := (48 + n mod 10) :: acc in
      if n <? 10 then acc' else digits_fuel f (n / 10) acc'
  end.

Definition digits (n : Z) : jsstr :=
  digits_fuel (S (Z.to_nat (Z.log2 n))) n [].

(** [String(n)] and template interpolation of an integer (below 1e21 in
    absolute value, where JavaScript prints all digits). *)
Definition Number_toString (n : Z) : jsstr :=
  if n <? 0 then 45 :: digits (- n) else digits n.

(** [TypedArray.prototype.join('')]. *)
Definition join_empty (l : list Z) : jsstr := flat_map Number_toString l.

(** White space skipped by [parseInt]: WhiteSpace and LineTerminator. *)
Definition is_white (c : Z) : bool :=
  (c =? 9) || (c =? 10) || (c =? 11) || (c =? 12) || (c =? 13) || (c =? 32)
  || (c =? 160) || (c =? 5760) || ((8192 <=? c) && (c <=? 8202))
  || (c =? 8232) || (c =? 8233) || (c =? 8239) || (c =? 8287)
  || (c =? 12288) || (c =? 65279).

Definition is_digit (c : Z) : bool := (48 <=? c) && (c <=? 57).

Fixpoint skip_white (s : jsstr) : jsstr :=
  match s with
  | c :: rest => if is_white c then skip_white rest else s
  | [] => []
  end.

(** The value of the longest prefix of decimal digits, if there is one. *)
Fixpoint parse_digits (s : jsstr) (acc : option Z) : option Z :=
  match s with
  | c :: rest =>
      if is_digit c
      then parse_digits rest (Some (10 * default 0 acc + (c - 48)))
      else acc
  | [] => acc
  end.

(** [parseInt(s, 10)]; [None] is NaN. *)
Definition parseInt10 (s : jsstr) : option Z :=
  match skip_white s with
  | 45 :: rest => Z.opp <$> parse_digits rest None
  | 43 :: rest => parse_digits rest None
  | rest => parse_digits rest None
  end.

(** [s.split(":")[0]]: the text before the first colon. *)
Fixpoint before_colon (s : jsstr) : jsstr :=
  match s with
  | c :: rest => if c =? 58 then [] else c :: before_colon rest
  | [] => []
  end.

(** *** UTF-8 *)

(** [TextEncoder.encode] and [Hash.update] of a string. *)
Definition utf8_encode_cp (c : Z) : bytes :=
  if c <? 128 then [c]
  else if c <? 2048 then
    [Z.lor 192 (Z.shiftr c 6); Z.lor 128 (Z.land c 63)]
  else if (55296 <=? c) && (c <=? 57343) then [239; 191; 189]
  else if c <? 65536 then
    [Z.lor 224 (Z.shiftr c 12); Z.lor 128 (Z.land (Z.shiftr c 6) 63);
     Z.lor 128 (Z.land c 63)]
  else
    [Z.lor 240 (Z.shiftr c 18); Z.lor 128 (Z.land (Z.shiftr c 12) 63);
     Z.lor 128 (Z.land (Z.shiftr c 6) 63); Z.lor 128 (Z.land c 63)].

Definition utf8_encode (s : jsstr) : bytes := flat_map utf8_encode_cp s.

(** The decoder of [Buffer.toString("utf8")]: the state is the number of
    continuation bytes still needed, the code point so far and the range
    allowed for the next byte; an ill-formed sequence gives U+FFFD. *)
Record dec_state := DecState { needed : Z; cp : Z; lower : Z; upper : Z }.

Definition dec_init : dec_state := DecState 0 0 128 191.

Definition dec_start (b : Z) : jsstr * dec_state :=
  if b <? 128 then ([b], dec_init)
  else if (194 <=? b) && (b <=? 223) then ([], DecState 1 (Z.land b 31) 128 191)
  else if (224 <=? b) && (b <=? 239) then
    ([], DecState 2 (Z.land b 15) (if b =? 224 then 160 else 128)
                  (if b =? 237 then 159 else 191))
  else if (240 <=? b) && (b <=? 244) then
    ([], DecState 3 (Z.land b 7) (if b =? 240 then 144 else 128)
                  (if b =? 244 then 143 else 191))
  else ([65533], dec_init).

Definition dec_step (st : dec_state) (b : Z) : jsstr * dec_state :=
  if needed st =? 0 then dec_start b
  else if (lower st <=? b) && (b <=? upper st) then
    let c := Z.lor (Z.shiftl (cp st) 6) (Z.land b 63) in
    if needed st =? 1 then ([c], dec_init)
    else ([], DecState (needed st - 1) c 128 191)
  else
    let '(out, st') := dec_start b in (65533 :: out, st').

Fixpoint utf8_decode_from (st : dec_state) (bs : bytes) : jsstr :=
  match bs with
  | [] => if needed st =? 0 then [] else [65533]
  | b :: rest =>
      let '(out, st') := dec_step st b in out ++ utf8_decode_from st' rest
  end.

Definition utf8_decode (bs : bytes) : jsstr := utf8_decode_from dec_init bs.

(** *** Base64 *)

Definition b64_char (v : Z) : Z :=
  if v <? 26 then 65 + v
  else if v <? 52 then 97 + (v - 26)
  else if v <? 62 then 48 + (v - 52)
  else if v =? 62 then 43 else 47.

(** The decoding table, which also takes the URL-safe letters. *)
Definition unbase64 (c : Z) : option Z :=
  if (65 <=? c) && (c <=? 90) then Some (c - 65)
  else if (97 <=? c) && (c <=? 122) then Some (c - 97 + 26)
  else if (48 <=? c) && (c <=? 57) then Some (c - 48 + 52)
  else if (c =? 43) || (c =? 45) then Some 62
  else if (c =? 47) || (c =? 95) then Some 63
  else None.

Fixpoint btoa_bytes (bs : bytes) : jsstr :=
  match bs with
  | a :: b :: c :: rest =>
      b64_char (Z.shiftr a 2)
      :: b64_char (Z.lor (Z.shiftl (Z.land a 3) 4) (Z.shiftr b 4))
      :: b64_char (Z.lor (Z.shiftl (Z.land b 15) 2) (Z.shiftr c 6))
      :: b64_char (Z.land c 63) :: btoa_bytes rest
  | [a; b] =>
      [ b64_char (Z.shiftr a 2);
        b64_char (Z.lor (Z.shiftl (Z.land a 3) 4) (Z.shiftr b 4));
        b64_char (Z.shiftl (Z.land b 15) 2); 61 ]
  | [a] => [ b64_char (Z.shiftr a 2); b64_char (Z.shiftl (Z.land a 3) 4); 61; 61 ]
  | [] => []
  end.

(** [btoa]: throws on a character above U+00FF. *)
Definition btoa (s : jsstr) : option jsstr :=
  if forallb (fun c => (0 <=? c) && (c <=? 255)) s then Some (btoa_bytes s)
  else None.

(** The sextets the lenient decoder of [Buffer.from(s, "base64")] reads:
    it stops at the first [=] and skips what is not in the table. *)
Fixpoint sextets (s : jsstr) : list Z :=
  match s with
  | [] => []
  | c :: rest =>
      if c =? 61 then []
      else match unbase64 c with
           | Some v => v :: sextets rest
           | None => sextets rest
           end
  end.

Fixpoint decode_groups (v : list Z) : bytes :=
  match v with
  | s1 :: s2 :: s3 :: s4 :: rest =>
      Z.lor (Z.shiftl (Z.land s1 63) 2) (Z.shiftr (Z.land s2 48) 4)
      :: Z.lor (Z.shiftl (Z.land s2 15) 4) (Z.shiftr (Z.land s3 60) 2)
      :: Z.lor (Z.shiftl (Z.land s3 3) 6) (Z.land s4 63)
      :: decode_groups rest
  | [s1; s2; s3] =>
      [ Z.lor (Z.shiftl (Z.land s1 63) 2) (Z.shiftr (Z.land s2 48) 4);
        Z.lor (Z.shiftl (Z.land s2 15) 4) (Z.shiftr (Z.land s3 60) 2) ]
  | [s1; s2] => [ Z.lor (Z.shiftl (Z.land s1 63) 2) (Z.shiftr (Z.land s2 48) 4) ]
  | _ => []
  end.

Definition Buffer_from_base64 (s : jsstr) : bytes := decode_groups (sextets s).

End Js.


(** ** Vocabulary of the proofs about the platform functions *)

Module JsAux.
Import Js.

(** All byte values, for exhaustive checks. *)
Definition byte_range : list Z := map Z.of_nat (seq 0 256).


(** The value of a digit string read from an initial value. *)
Definition dec_value (l : jsstr) (init : Z) : Z :=
  fold_left (fun a c => 10 * a + (c - 48)) l init.


(** The characters a printed integer is made of: digits and the sign. *)
Definition is_numchar (c : Z) : bool := is_digit c || (c =? 45).


Definition is_tokchar (c : Z) : bool := is_numchar c || (c =? 58).


Definition is_byte (b : Z) : bool := (0 <=? b) && (b <=? 255).


Definition is_ascii (c : Z) : bool := (0 <=? c) && (c <? 128).


(** The four sextets of a group of three bytes. *)
Definition sx1 (a : Z) : Z := Z.shiftr a 2.
Definition sx2 (a b : Z) : Z := Z.lor (Z.shiftl (Z.land a 3) 4) (Z.shiftr b 4).
Definition sx3 (b c : Z) : Z := Z.lor (Z.shiftl (Z.land b 15) 2) (Z.shiftr c 6).
Definition sx4 (c : Z) : Z := Z.land c 63.

Definition in64 (v : Z) : bool := (0 <=? v) && (v <? 64).


End JsAux.

(** The counting rule in the words of the design: eight bits for every
    leading zero byte, plus the leading zero bits of the first byte that is
    not zero, and nothing after it. *)
Fixpoint leading_zero_bits (hash : bytes) : Z :=
  match hash with
  | [] => 0
  | b :: rest => if b =? 0 then 8 + leading_zero_bits rest else 7 - Z.log2 b
  end.

(** ** The web pixel: proof-of-work generation *)

Module Pixel.

(** Difficulty of the proof-of-work: leading zero bits. *)
Definition DIFFICULTY : Z := 10.

(** The counting loop of [makePow]. *)
Fixpoint count_zeros (hash : bytes) (zeros : Z) : Z :=
  match hash with
  | [] => zeros
  | byte :: rest =>
      let z := Js.clz32 byte - 24 in
      let zeros := zeros + z in
      if negb (z =? 8) then zeros else count_zeros rest zeros
  end.

Definition sha256 (buf : bytes) : bytes := Sha256.digest buf.

(** The [while (true)] loop of [makePow], from a given counter. *)
Fixpoint makePow_loop (fuel : nat) (seedStr : jsstr) (counter : Z) : run jsstr :=
  match fuel with
  | O => OutOfFuel
  | S f =>
      let data := Js.utf8_encode (seedStr ++ Js.Number_toString counter) in
      let hash := sha256 data in
      let zeros := count_zeros hash 0 in
      if DIFFICULTY <=? zeros then
        match Js.btoa (seedStr ++ Js.Number_toString counter) with
        | Some t => Done t
        | None => Threw
        end
      else makePow_loop f seedStr (counter + 1)
  end.

Definition seed (now : Z) (rand : list Z) : jsstr :=
  let unixMin := now / 60000 in
  let rand16 := Js.join_empty rand in
  Js.Number_toString unixMin ++ [58] ++ rand16 ++ [58].

(** [makePow], at clock reading [now] and with [rand] the eight random
    16-bit values drawn. *)
Definition makePow (fuel : nat) (now : Z) (rand : list Z) : run jsstr :=
  makePow_loop fuel (seed now rand) 0.

(** *** Sending the conversion *)

(** The payload the pixel encrypts. *)
Record Payload := {
  yclid : string;
  visitedAt : option string;
  conversionedAt : string;
  amount : option Z;
  orderId : string;
  nonce : string }.

(** The purchase being reported: the click identifier found in the
    cookies, and the fields of the [checkout_completed] event. *)
Record Purchase := {
  saved_yclid : string;
  saved_ts : string;
  event_timestamp : string;
  totalPrice_amount : option Z;
  order_id : string }.

Inductive FetchResult :=
| FetchOk
| FetchNotOk (status : Z)
| FetchFailed.

(** What one attempt draws and meets: the UUID of [crypto.randomUUID], the
    clock and the random values of [makePow], the randomness of the
    encryption, and the outcome of [fetch]. *)
Record AttemptEnv := {
  uuid : string;
  pow_now : Z;
  pow_rand : list Z;
  enc_rand : string;
  fetched : FetchResult }.

(** A request as sent: the [X-POW] header and the body, with the payload
    the body encrypts. *)
Record Sent := {
  sent_pow : jsstr;
  sent_body : string;
  sent_payload : Payload }.

Definition MAX_RETRIES : nat := 3.

Section Send.

(** [CompactEncrypt] of a payload under the configured key with the given
    randomness; [None] when parsing or importing the key, or the
    encryption, throws. *)
Variable encrypt : Payload -> string -> option string.
Variable purchase : Purchase.
(** The draws of the attempt with a given [retryCount]. *)
Variable env : nat -> AttemptEnv.
Variable pow_fuel : nat.

Definition build_payload (e : AttemptEnv) : Payload :=
  {| yclid := saved_yclid purchase;
     visitedAt := if String.eqb (saved_ts purchase) EmptyString then None
                  else Some (saved_ts purchase);
     conversionedAt := event_timestamp purchase;
     amount := totalPrice_amount purchase;
     orderId := order_id purchase;
     nonce := uuid e |}.

(** [sendConversionData(retryCount)]: the result, and the requests sent.
    [budget] bounds the recursion; it is never exhausted from
    [MAX_RETRIES - retryCount]. *)
Fixpoint sendConversionData_from (budget : nat) (retryCount : nat)
  : run bool * list Sent :=
  let e := env retryCount in
  let payload := build_payload e in
  match encrypt payload (enc_rand e) with
  | None => (Threw, [])
  | Some jwe =>
      match makePow pow_fuel (pow_now e) (pow_rand e) with
      | Done pow =>
          let sent := {| sent_pow := pow; sent_body := jwe; sent_payload := payload |} in
          match fetched e with
          | FetchOk => (Done true, [sent])
          | _ =>
              if (retryCount <? MAX_RETRIES - 1)%nat then
                match budget with
                | S budget' =>
                    let '(r, more) := sendConversionData_from budget' (retryCount + 1) in
                    (r, sent :: more)
                | O => (OutOfFuel, [sent])
                end
              else (Done false, [sent])
          end
      | Threw => (Threw, [])
      | OutOfFuel => (OutOfFuel, [])
      end
  end.

Definition sendConversionData : run bool * list Sent :=
  sendConversionData_from MAX_RETRIES 0.


End Send.

End Pixel.

(** ** The database: tables of the migration and the queries the code runs *)

Module Db.

Record Session := {
  s_shop : string;
  s_accessToken : string;
  s_primaryDomain : option string }.

(** ["ApiKeyPair"]: primary key [kid]. *)
Record ApiKeyPair := {
  k_kid : string;
  k_publicKey : string;
  k_privateKey : string;
  k_createdAt : Z }.

(** ["YahooConversion"]: primary key [yclid]; no constraint on [orderId]. *)
Record YahooConversion := {
  c_yclid : string;
  c_amount : option Z;
  c_visitedAt : option Z;
  c_conversionedAt : Z;
  c_isProcessed : bool;
  c_orderId : string }.

(** ["YahooAdApplication"]: primary key [clientId]. *)
Record YahooAdApplication := {
  app_clientId : string;
  app_clientSecret : string;
  app_redirectUri : string;
  app_code : option string;
  app_accessToken : option string;
  app_refreshToken : option string;
  app_tokenCreatedAt : option Z }.

Record YahooAdAccount := {
  acc_type : string;
  acc_accountId : string;
  acc_childAccountId : string;
  acc_duration : Z;
  acc_conversionTitle : string }.

(** The tables, rows in insertion order; ["PixelNonce"] has primary key
    [nonce], so it is the set of the nonces received. *)
Record t := {
  session : list Session;
  apiKeyPair : list ApiKeyPair;
  pixelNonce : gset string;
  yahooConversion : list YahooConversion;
  yahooAdApplication : list YahooAdApplication;
  yahooAdAccount : list YahooAdAccount }.

Definition set_apiKeyPair (d : t) (l : list ApiKeyPair) : t :=
  {| session := session d; apiKeyPair := l; pixelNonce := pixelNonce d;
     yahooConversion := yahooConversion d;
     yahooAdApplication := yahooAdApplication d;
     yahooAdAccount := yahooAdAccount d |}.

Definition set_pixelNonce (d : t) (s : gset string) : t :=
  {| session := session d; apiKeyPair := apiKeyPair d; pixelNonce := s;
     yahooConversion := yahooConversion d;
     yahooAdApplication := yahooAdApplication d;
     yahooAdAccount := yahooAdAccount d |}.

Definition set_yahooConversion (d : t) (l : list YahooConversion) : t :=
  {| session := session d; apiKeyPair := apiKeyPair d; pixelNonce := pixelNonce d;
     yahooConversion := l;
     yahooAdApplication := yahooAdApplication d;
     yahooAdAccount := yahooAdAccount d |}.

Definition set_yahooAdApplication (d : t) (l : list YahooAdApplication) : t :=
  {| session := session d; apiKeyPair := apiKeyPair d; pixelNonce := pixelNonce d;
     yahooConversion := yahooConversion d;
     yahooAdApplication := l;
     yahooAdAccount := yahooAdAccount d |}.

(** [db.session.findFirst()]. *)
Definition session_findFirst (d : t) : option Session := head (session d).

(** [db.apiKeyPair.findUnique({ where: { kid } })]. *)
Definition apiKeyPair_findUnique (d : t) (kid : string) : option ApiKeyPair :=
  List.find (fun r => String.eqb (k_kid r) kid) (apiKeyPair d).

(** [db.apiKeyPair.create]: [None] is the unique-constraint error. *)
Definition apiKeyPair_create (d : t) (row : ApiKeyPair) : option t :=
  match apiKeyPair_findUnique d (k_kid row) with
  | Some _ => None
  | None => Some (set_apiKeyPair d (apiKeyPair d ++ [row]))
  end.

(** Ordering by [createdAt], latest first; rows created at the same time
    keep the order of the table. *)
Fixpoint insert_desc (r : ApiKeyPair) (l : list ApiKeyPair) : list ApiKeyPair :=
  match l with
  | [] => [r]
  | x :: rest =>
      if k_createdAt x <=? k_createdAt r then r :: l else x :: insert_desc r rest
  end.

Definition sort_desc (l : list ApiKeyPair) : list ApiKeyPair :=
  foldr insert_desc [] l.

(** [db.apiKeyPair.findMany({ orderBy: [{ createdAt: 'desc' }], take })]. *)
Definition apiKeyPair_findMany_latest (d : t) (n : nat) : list ApiKeyPair :=
  firstn n (sort_desc (apiKeyPair d)).

Definition mem_string (s : string) (l : list string) : bool :=
  existsb (String.eqb s) l.

(** [db.apiKeyPair.deleteMany({ where: { kid: { notIn } } })]. *)
Definition apiKeyPair_deleteMany_notIn (d : t) (kids : list string) : t :=
  set_apiKeyPair d (List.filter (fun r => mem_string (k_kid r) kids) (apiKeyPair d)).

(** [db.apiKeyPair.delete({ where: { kid } })]: [None] is the error for a
    record that does not exist. *)
Definition apiKeyPair_delete (d : t) (kid : string) : option t :=
  match apiKeyPair_findUnique d kid with
  | None => None
  | Some _ =>
      Some (set_apiKeyPair d
              (List.filter (fun r => negb (String.eqb (k_kid r) kid)) (apiKeyPair d)))
  end.

(** [db.pixelNonce.create]: [None] is the unique-constraint error. *)
Definition pixelNonce_create (d : t) (nonce : string) : option t :=
  if bool_decide (nonce ∈ pixelNonce d) then None
  else Some (set_pixelNonce d ({[ nonce ]} ∪ pixelNonce d)).

(** [db.yahooConversion.findFirst({ where: { orderId } })]. *)
Definition yahooConversion_findFirst (d : t) (orderId : string)
  : option YahooConversion :=
  List.find (fun r => String.eqb (c_orderId r) orderId) (yahooConversion d).

(** [db.yahooConversion.create]: [None] is the unique-constraint error, on
    the primary key [yclid]. *)
Definition yahooConversion_create (d : t) (row : YahooConversion) : option t :=
  if existsb (fun r => String.eqb (c_yclid r) (c_yclid row)) (yahooConversion d)
  then None
  else Some (set_yahooConversion d (yahooConversion d ++ [row])).

(** [db.yahooConversion.updateMany({ where: { yclid: { in } },
    data: { isProcessed: true } })]. *)
Definition mark_processed (r : YahooConversion) : YahooConversion :=
  {| c_yclid := c_yclid r; c_amount := c_amount r; c_visitedAt := c_visitedAt r;
     c_conversionedAt := c_conversionedAt r; c_isProcessed := true;
     c_orderId := c_orderId r |}.

Definition yahooConversion_updateMany_processed (d : t) (yclids : list string) : t :=
  set_yahooConversion d
    (map (fun r => if mem_string (c_yclid r) yclids then mark_processed r else r)
         (yahooConversion d)).

(** [db.yahooAdApplication.update({ where: { clientId }, data })] of the
    token fields; [None] is the error for a record that does not exist. *)
Definition yahooAdApplication_update (d : t) (clientId : string)
    (f : YahooAdApplication -> YahooAdApplication) : option t :=
  if existsb (fun a => String.eqb (app_clientId a) clientId) (yahooAdApplication d)
  then Some (set_yahooAdApplication d
               (map (fun a => if String.eqb (app_clientId a) clientId then f a else a)
                    (yahooAdApplication d)))
  else None.

End Db.
(** ** The gateway *)

Module Gateway.

(** *** Proof-of-work verification *)

(** Difficulty of the proof-of-work: leading zero bits. *)
Definition POW_BITS : Z := 10.
(** Validity of a proof-of-work, in milliseconds. *)
Definition POW_VALID_MS : Z := 2 * 60000.

(** The counting loop of [checkPow]. *)
Fixpoint count_zeros (hash : bytes) (zeros : Z) : Z :=
  match hash with
  | [] => zeros
  | byte :: rest =>
      let z := Js.clz32 byte - 24 in
      let zeros := zeros + z in
      if negb (z =? 8) then zeros else count_zeros rest zeros
  end.

(** The embedded time of a decoded token, in milliseconds; [None] is NaN. *)
Definition minTime_of (data : jsstr) : option Z :=
  (fun m => m * 60000) <$> Js.parseInt10 (Js.before_colon data).

(** [checkPow], at clock reading [now]; the header is absent or a string. *)
Definition checkPow (now : Z) (b64 : option jsstr) : bool :=
  match b64 with
  | None | Some [] => false
  | Some b64 =>
      let data := Js.utf8_decode (Js.Buffer_from_base64 b64) in
      match minTime_of data with
      | None => false
      | Some minTime =>
          if POW_VALID_MS <? Z.abs (now - minTime) then false
          else
            let hash := Sha256.digest (Js.utf8_encode data) in
            let zeros := count_zeros hash 0 in
            POW_BITS <=? zeros
      end
  end.



(** *** The request handler *)

(** An imported private key. *)
Definition CryptoKey := string.

Inductive JsVal :=
| JUndefined
| JNull
| JBool (b : bool)
| JNum (n : Z)
| JStr (s : string)
| JObject.

(** The six properties read from the decrypted object; a missing one is
    [JUndefined].  Amounts are integers. *)
Record Payload := {
  yclid : JsVal;
  visitedAt : JsVal;
  conversionedAt : JsVal;
  amount : JsVal;
  orderId : JsVal;
  nonce : JsVal }.

(** The library functions the handler calls; [None] is a thrown error.
    [parsePayload] is [JSON.parse] of the plaintext followed by the
    destructuring; [Date_parse] is [new Date(s).getTime()], [None] for an
    invalid date. *)
Record Platform := {
  decodeProtectedHeader : string -> option (option string * option string);
  importPKCS8 : string -> option CryptoKey;
  compactDecrypt : string -> CryptoKey -> option string;
  parsePayload : string -> option Payload;
  Date_parse : string -> option Z }.

(** Lifetime of the cached session and of the cached origin. *)
Definition ALLOW_SESSION_TTL_MS : Z := 5 * 60000.
Definition ALLOW_ORIGIN_TTL_MS : Z := 5 * 60000.

(** The module-level state of the route together with the database. *)
Record World := {
  db : Db.t;
  sessionCache : option (Db.Session * Z);
  privateKeyCache : gmap string CryptoKey;
  allowOriginCache : option (string * Z) }.

Definition set_db (w : World) (d : Db.t) : World :=
  {| db := d; sessionCache := sessionCache w;
     privateKeyCache := privateKeyCache w; allowOriginCache := allowOriginCache w |}.

Definition set_sessionCache (w : World) (c : option (Db.Session * Z)) : World :=
  {| db := db w; sessionCache := c;
     privateKeyCache := privateKeyCache w; allowOriginCache := allowOriginCache w |}.

Definition set_privateKeyCache (w : World) (c : gmap string CryptoKey) : World :=
  {| db := db w; sessionCache := sessionCache w;
     privateKeyCache := c; allowOriginCache := allowOriginCache w |}.

Definition set_allowOriginCache (w : World) (c : option (string * Z)) : World :=
  {| db := db w; sessionCache := sessionCache w;
     privateKeyCache := privateKeyCache w; allowOriginCache := c |}.

(** The database calls of the handler, to say which of them fails. *)
Inductive DbOp := OpAllowOrigin | OpSession | OpKey | OpDedup | OpCreate.

(** The answer of the order system to the query for [createdAt]:
    [data] may be missing, and [order] null; the creation time is the
    reading of [new Date(String(createdAt)).getTime()], [None] for NaN. *)
Record Order := { createdAt : option Z }.
Record GqlData := { order : option Order }.
Record GqlRes := { data : option GqlData }.

(** What one invocation meets outside the process: the clock at each
    reading, database calls that fail for a reason other than a constraint,
    and the answers of the order system to the first and second query
    ([None] is a rejected request). *)
Record Env := {
  t_cors : Z;
  t_pow : Z;
  t_session : Z;
  t_order : Z;
  db_fault : DbOp -> bool;
  lookup1 : option GqlRes;
  lookup2 : option GqlRes }.

Record Request := {
  method : string;
  x_pow : option jsstr;
  body : string }.

Inductive Body :=
| NoBody
| ErrorBody (error : string) (error_code : Z)
| SuccessBody
| InternalErrorBody.

(** A response: status, body, and the allowed origin of the CORS headers. *)
Record Response := {
  status : Z;
  resp_body : Body;
  headers : string }.

(** What awaiting the handler gives: a response, or the error it let out. *)
Inductive Outcome :=
| Resp (r : Response)
| Uncaught.

Definition getSession (w : World) (env : Env) : run (option Db.Session) * World :=
  let now := t_session env in
  let fetch :=
    if db_fault env OpSession then (Threw, w)
    else match Db.session_findFirst (db w) with
         | None => (Done None, w)
         | Some record =>
             (Done (Some record),
              set_sessionCache w (Some (record, now + ALLOW_SESSION_TTL_MS)))
         end in
  match sessionCache w with
  | Some (session, expires) =>
      if now <? expires then (Done (Some session), w) else fetch
  | None => fetch
  end.

Definition getPrivateKey (P : Platform) (w : World) (env : Env) (kid : string)
  : run (option CryptoKey) * World :=
  match privateKeyCache w !! kid with
  | Some hit => (Done (Some hit), w)
  | None =>
      if db_fault env OpKey then (Threw, w)
      else match Db.apiKeyPair_findUnique (db w) kid with
           | None => (Done None, w)
           | Some record =>
               match importPKCS8 P (Db.k_privateKey record) with
               | None => (Threw, set_privateKeyCache w ∅)
               | Some key => (Done (Some key), set_privateKeyCache w {[ kid := key ]})
               end
           end
  end.

(** [getPrivateKey(kid as string)] on the [kid] of a header: without one
    the cache is read at ["undefined"], and the query for a key pair without
    an identifier is refused. *)
Definition getPrivateKey_header (P : Platform) (w : World) (env : Env)
    (kid : option string) : run (option CryptoKey) * World :=
  match kid with
  | Some kid => getPrivateKey P w env kid
  | None =>
      match privateKeyCache w !! "undefined"%string with
      | Some hit => (Done (Some hit), w)
      | None => (Threw, w)
      end
  end.

Definition getAllowOrigin (w : World) (env : Env) : run string * World :=
  let now := t_cors env in
  let fetch :=
    if db_fault env OpAllowOrigin then (Threw, w)
    else
      let value :=
        match Db.session_findFirst (db w) with
        | Some record =>
            match Db.s_primaryDomain record with
            | Some d => d
            | None => ("https://" ++ Db.s_shop record)%string
            end
        | None => EmptyString
        end in
      (Done value, set_allowOriginCache w (Some (value, now + ALLOW_ORIGIN_TTL_MS))) in
  match allowOriginCache w with
  | Some (value, expires) => if now <? expires then (Done value, w) else fetch
  | None => fetch
  end.

(** The headers differ only by the allowed origin. *)
Definition buildCorsHeaders (w : World) (env : Env) : run string * World :=
  getAllowOrigin w env.

Definition errorResponse (code : Z) (headers : string) : Response :=
  {| status := 405; resp_body := ErrorBody "不正なアクセスです" code; headers := headers |}.

Definition successResponse (headers : string) : Response :=
  {| status := 200; resp_body := SuccessBody; headers := headers |}.

Definition internalErrorResponse (headers : string) : Response :=
  {| status := 500; resp_body := InternalErrorBody; headers := headers |}.

(** [loader]: the handler of the requests that are not mutations. *)
Definition loader (w : World) (env : Env) (request : Request) : Outcome * World :=
  match buildCorsHeaders w env with
  | (Done headers, w) =>
      if String.eqb (method request) "OPTIONS"
      then (Resp {| status := 204; resp_body := NoBody; headers := headers |}, w)
      else (Resp (errorResponse 0 headers), w)
  | (_, w) => (Uncaught, w)
  end.

(** The transaction: insert the nonce, then look for a record of the
    order.  A unique-constraint error rolls back and reads as a duplicate;
    the result is whether [existing] is truthy. *)
Definition dedup_transaction (fault : bool) (d : Db.t) (nonce orderId : string)
  : run bool * Db.t :=
  if fault then (Threw, d)
  else match Db.pixelNonce_create d nonce with
       | None => (Done true, d)
       | Some d' =>
           (Done (bool_decide (is_Some (Db.yahooConversion_findFirst d' orderId))), d')
       end.

(** What the handler keeps of a request that passed the duplicate check. *)
Record Accepted := {
  a_headers : string;
  a_session : Db.Session;
  a_yclid : string;
  a_visitedAt : string;
  a_conversionedAt : string;
  a_amount : Z;
  a_orderId : string }.

(** [action] up to the duplicate check: either its response, or the request
    as accepted so far. *)
Definition action_front (P : Platform) (w : World) (env : Env) (request : Request)
  : (Outcome + Accepted) * World :=
  match buildCorsHeaders w env with
  | (Done headers, w) =>
      if negb (String.eqb (method request) "POST")
      then (inl (Resp (errorResponse 1 headers)), w)
      else if negb (checkPow (t_pow env) (x_pow request))
      then (inl (Resp (errorResponse 2 headers)), w)
      else if String.eqb (body request) EmptyString
      then (inl (Resp (errorResponse 3 headers)), w)
      else
        match decodeProtectedHeader P (body request) with
        | None => (inl (Resp (internalErrorResponse headers)), w)
        | Some (kid, alg) =>
            if negb (bool_decide (alg = Some "RSA-OAEP-256"%string))
            then (inl (Resp (errorResponse 4 headers)), w)
            else
              let '(session, w) := getSession w env in
              let '(key, w) := getPrivateKey_header P w env kid in
              match session, key with
              | Done None, Done _ => (inl (Resp (errorResponse 5 headers)), w)
              | Done (Some _), Done None => (inl (Resp (errorResponse 6 headers)), w)
              | Done (Some session), Done (Some key) =>
                  match compactDecrypt P (body request) key with
                  | None => (inl (Resp (internalErrorResponse headers)), w)
                  | Some plaintext =>
                      match parsePayload P plaintext with
                      | None => (inl (Resp (internalErrorResponse headers)), w)
                      | Some payload =>
                          match yclid payload, visitedAt payload,
                                conversionedAt payload, amount payload,
                                orderId payload, nonce payload with
                          | JStr yclid, JStr visitedAt, JStr conversionedAt,
                            JNum amount, JStr orderId, JStr nonce =>
                              match dedup_transaction (db_fault env OpDedup)
                                      (db w) nonce orderId with
                              | (Done existing, d) =>
                                  if existing
                                  then (inl (Resp (errorResponse 8 headers)), set_db w d)
                                  else (inr {| a_headers := headers;
                                               a_session := session;
                                               a_yclid := yclid;
                                               a_visitedAt := visitedAt;
                                               a_conversionedAt := conversionedAt;
                                               a_amount := amount;
                                               a_orderId := orderId |}, set_db w d)
                              | (_, d) =>
                                  (inl (Resp (internalErrorResponse headers)), set_db w d)
                              end
                          | _, _, _, _, _, _ =>
                              (inl (Resp (errorResponse 7 headers)), w)
                          end
                      end
                  end
              | _, _ => (inl (Resp (internalErrorResponse headers)), w)
              end
        end
  | (_, w) => (inl Uncaught, w)
  end.

(** What the order check does besides computing: it waits and it queries. *)
Inductive Event :=
| EvSleep (ms : Z)
| EvOrderQuery.

(** The age test on the answer bound to the outer [gqlRes]: reading
    [createdAt] of a missing order throws. *)
Definition freshness (now : Z) (gqlRes : GqlRes) : run (option Z) :=
  match data gqlRes with
  | None => Threw
  | Some d =>
      match order d with
      | None => Threw
      | Some o =>
          match createdAt o with
          | Some created => if 2 * 60000 <? now - created then Done (Some 10) else Done None
          | None => Done None
          end
      end
  end.

Definition order_present (gqlRes : GqlRes) : bool :=
  match data gqlRes with
  | Some d => bool_decide (is_Some (order d))
  | None => false
  end.

(** The order check of [action]: the error code it returns with, if any,
    and what it did.  The answer of the second query is bound to an inner
    [gqlRes]; the age test reads the outer one, the answer of the first. *)
Definition order_check (env : Env) : option Z * list Event :=
  match lookup1 env with
  | None => (Some 11, [EvSleep 1000; EvOrderQuery])
  | Some gqlRes =>
      if negb (order_present gqlRes) then
        match lookup2 env with
        | None => (Some 11, [EvSleep 1000; EvOrderQuery; EvOrderQuery])
        | Some gqlRes' =>
            if negb (order_present gqlRes')
            then (Some 9, [EvSleep 1000; EvOrderQuery; EvOrderQuery])
            else
              match freshness (t_order env) gqlRes with
              | Done r => (r, [EvSleep 1000; EvOrderQuery; EvOrderQuery])
              | _ => (Some 11, [EvSleep 1000; EvOrderQuery; EvOrderQuery])
              end
        end
      else
        match freshness (t_order env) gqlRes with
        | Done r => (r, [EvSleep 1000; EvOrderQuery])
        | _ => (Some 11, [EvSleep 1000; EvOrderQuery])
        end
  end.

(** The record [action] inserts; an invalid date is refused by the client
    of the database. *)
Definition new_record (P : Platform) (a : Accepted) : option Db.YahooConversion :=
  match Date_parse P (a_visitedAt a), Date_parse P (a_conversionedAt a) with
  | Some v, Some c =>
      Some {| Db.c_yclid := a_yclid a; Db.c_amount := Some (a_amount a);
              Db.c_visitedAt := Some v; Db.c_conversionedAt := c;
              Db.c_isProcessed := false; Db.c_orderId := a_orderId a |}
  | _, _ => None
  end.

(** [action] from the order check on. *)
Definition action_back (P : Platform) (w : World) (env : Env) (a : Accepted)
  : Outcome * World :=
  match fst (order_check env) with
  | Some code => (Resp (errorResponse code (a_headers a)), w)
  | None =>
      if db_fault env OpCreate then (Resp (errorResponse 12 (a_headers a)), w)
      else
        match new_record P a with
        | None => (Resp (errorResponse 12 (a_headers a)), w)
        | Some row =>
            match Db.yahooConversion_create (db w) row with
            | None => (Resp (errorResponse 12 (a_headers a)), w)
            | Some d => (Resp (successResponse (a_headers a)), set_db w d)
            end
        end
  end.

(** [action], run without another request in between. *)
Definition action (P : Platform) (w : World) (env : Env) (request : Request)
  : Outcome * World :=
  match action_front P w env request with
  | (inl out, w) => (out, w)
  | (inr a, w) => action_back P w env a
  end.

(** *** Requests in flight together *)

(** A request being handled: not started, suspended between the duplicate
    check and the insertion (the handler awaits a timer and the order
    system there), or answered. *)
Inductive Thread :=
| TStart (env : Env) (request : Request)
| TSuspended (env : Env) (a : Accepted)
| TDone (out : Outcome).

(** One turn of a request: it runs up to its next suspension. *)
Definition thread_step (P : Platform) (w : World) (t : Thread) : Thread * World :=
  match t with
  | TStart env request =>
      match action_front P w env request with
      | (inl out, w) => (TDone out, w)
      | (inr a, w) => (TSuspended env a, w)
      end
  | TSuspended env a =>
      let '(out, w) := action_back P w env a in (TDone out, w)
  | TDone out => (TDone out, w)
  end.

(** The turns are taken in the order of a schedule of request indices. *)
Fixpoint run_schedule (P : Platform) (schedule : list nat)
    (w : World) (threads : list Thread) : list Thread * World :=
  match schedule with
  | [] => (threads, w)
  | i :: rest =>
      match threads !! i with
      | None => run_schedule P rest w threads
      | Some t =>
          let '(t', w') := thread_step P w t in
          run_schedule P rest w' (<[ i := t' ]> threads)
      end
  end.

(** *** The check behind each rejection code *)

Definition RSA_OAEP_256 : option string := Some "RSA-OAEP-256"%string.

(** The payload has the shape the handler requires. *)
Definition well_shaped (p : Payload) : Prop :=
  exists y v c a o n,
    yclid p = JStr y /\ visitedAt p = JStr v /\ conversionedAt p = JStr c
    /\ amount p = JNum a /\ orderId p = JStr o /\ nonce p = JStr n.

(** The request passed the checks of the method, of the proof-of-work, of
    the body and of the algorithm: its header names the key [kid]. *)
Definition passes_header (P : Platform) (env : Env) (request : Request)
    (kid : option string) : Prop :=
  method request = "POST"%string
  /\ checkPow (t_pow env) (x_pow request) = true
  /\ body request <> EmptyString
  /\ decodeProtectedHeader P (body request) = Some (kid, RSA_OAEP_256).

(** It passed those of the session and of the key as well, and was
    decrypted and parsed. *)
Definition passes_decryption (P : Platform) (w : World) (env : Env) (request : Request)
    (payload : Payload) : Prop :=
  exists kid session key plaintext,
    passes_header P env request kid
    /\ fst (getSession w env) = Done (Some session)
    /\ fst (getPrivateKey_header P w env kid) = Done (Some key)
    /\ compactDecrypt P (body request) key = Some plaintext
    /\ parsePayload P plaintext = Some payload.

(** It passed the checks of the shape and of the duplicates as well: the
    transaction ran, the nonce was not stored and the order had no record. *)
Definition passes_duplicates (P : Platform) (w : World) (env : Env) (request : Request)
    (y v c : string) (a : Z) (o : string) : Prop :=
  exists payload n,
    passes_decryption P w env request payload
    /\ yclid payload = JStr y /\ visitedAt payload = JStr v
    /\ conversionedAt payload = JStr c /\ amount payload = JNum a
    /\ orderId payload = JStr o /\ nonce payload = JStr n
    /\ db_fault env OpDedup = false
    /\ (n ∉ Db.pixelNonce (db w))
    /\ Db.yahooConversion_findFirst (db w) o = None.

(** The failures of the order check, by their codes: 9 when neither query
    finds the order; 10 when the first query finds it, created more than two
    minutes before the clock; 11 when a query is rejected, and when the
    first query finds no order and the second finds it. *)
Inductive order_failure (env : Env) : Z -> Prop :=
| order_absent g1 g2 :
    lookup1 env = Some g1 -> order_present g1 = false ->
    lookup2 env = Some g2 -> order_present g2 = false ->
    order_failure env 9
| order_old o created :
    lookup1 env = Some {| data := Some {| order := Some o |} |} ->
    createdAt o = Some created ->
    2 * 60000 < t_order env - created ->
    order_failure env 10
| order_query_rejected :
    lookup1 env = None ->
    order_failure env 11
| order_retry_rejected g1 :
    lookup1 env = Some g1 -> order_present g1 = false ->
    lookup2 env = None ->
    order_failure env 11
| order_found_by_retry g1 g2 :
    lookup1 env = Some g1 -> order_present g1 = false ->
    lookup2 env = Some g2 -> order_present g2 = true ->
    order_failure env 11.

(** The order check passes: the first query finds the order, whose creation
    time, if it reads as one, is no more than two minutes before the
    clock. *)
Definition order_passes (env : Env) : Prop :=
  exists o,
    lookup1 env = Some {| data := Some {| order := Some o |} |}
    /\ match createdAt o with
       | Some created => t_order env - created <= 2 * 60000
       | None => True
       end.

(** [failing_check P w env request code]: on this request the checks
    numbered below [code] pass and the check that [code] numbers fails. *)
Inductive failing_check (P : Platform) (w : World) (env : Env) (request : Request)
  : Z -> Prop :=
| check_method :
    method request <> "POST"%string ->
    failing_check P w env request 1
| check_pow :
    method request = "POST"%string ->
    checkPow (t_pow env) (x_pow request) = false ->
    failing_check P w env request 2
| check_body :
    method request = "POST"%string ->
    checkPow (t_pow env) (x_pow request) = true ->
    body request = EmptyString ->
    failing_check P w env request 3
| check_algorithm kid alg :
    method request = "POST"%string ->
    checkPow (t_pow env) (x_pow request) = true ->
    body request <> EmptyString ->
    decodeProtectedHeader P (body request) = Some (kid, alg) ->
    alg <> RSA_OAEP_256 ->
    failing_check P w env request 4
| check_session kid key :
    passes_header P env request kid ->
    fst (getSession w env) = Done None ->
    fst (getPrivateKey_header P w env kid) = Done key ->
    failing_check P w env request 5
| check_key kid session :
    passes_header P env request kid ->
    fst (getSession w env) = Done (Some session) ->
    fst (getPrivateKey_header P w env kid) = Done None ->
    failing_check P w env request 6
| check_shape payload :
    passes_decryption P w env request payload ->
    ~ well_shaped payload ->
    failing_check P w env request 7
| check_duplicate payload y v c a o n :
    passes_decryption P w env request payload ->
    yclid payload = JStr y -> visitedAt payload = JStr v ->
    conversionedAt payload = JStr c -> amount payload = JNum a ->
    orderId payload = JStr o -> nonce payload = JStr n ->
    db_fault env OpDedup = false ->
    n ∈ Db.pixelNonce (db w) \/ is_Some (Db.yahooConversion_findFirst (db w) o) ->
    failing_check P w env request 8
| check_order y v c a o code :
    passes_duplicates P w env request y v c a o ->
    order_failure env code ->
    failing_check P w env request code
| check_insert y v c a o :
    passes_duplicates P w env request y v c a o ->
    order_passes env ->
    db_fault env OpCreate = true
    \/ Date_parse P v = None
    \/ Date_parse P c = None
    \/ In y (map Db.c_yclid (Db.yahooConversion (db w))) ->
    failing_check P w env request 12.

End Gateway.

(** ** Key rotation *)

Module KeyRotation.

(** The answer to the [webPixelUpdate] mutation: without [data] (the
    request failed and the client reports [errors]), or with the list of
    [userErrors]. *)
Inductive UpdateRes :=
| UpdateNoData
| UpdateData (userErrors : list string).

(** The database calls of a rotation, to say which of them fails. *)
Inductive DbCall :=
| CallCreate
| CallFindMany
| CallDeleteMany
| CallSessionFindFirst
| CallDelete.

(** What one invocation draws and meets: the key pair generated and its
    identifier, the clock, the answer to the query for the pixel ([None]
    for a rejected request, [Some None] when there is no pixel), the
    answer to the mutation, and the database calls that fail. *)
Record Env := {
  kid : string;
  jwk : string;
  pkcs8 : string;
  now : Z;
  pixelRes : option (option string);
  pixelUpdateRes : option UpdateRes;
  db_fault : DbCall -> bool }.

(** The database, and the [jwk] setting of the web pixel. *)
Record World := {
  db : Db.t;
  pixel_jwk : option string }.

(** Whether the mutation changed the settings of the pixel. *)
Definition pushed (r : option UpdateRes) : bool :=
  match r with
  | Some (UpdateData []) => true
  | _ => false
  end.

(** [generatePublicKey].  Every error inside [try], of the database as of
    the requests, is caught and answered with [false], with what was
    written before it left as it is. *)
Definition generatePublicKey (w : World) (env : Env) : bool * World :=
  let apiKeyPair :=
    {| Db.k_kid := kid env; Db.k_publicKey := jwk env;
       Db.k_privateKey := pkcs8 env; Db.k_createdAt := now env |} in
  if db_fault env CallCreate then (false, w)
  else
  match Db.apiKeyPair_create (db w) apiKeyPair with
  | None => (false, w)
  | Some d =>
      if db_fault env CallFindMany || db_fault env CallDeleteMany
      then (false, {| db := d; pixel_jwk := pixel_jwk w |})
      else
      let apiKeyPairs := Db.apiKeyPair_findMany_latest d 3 in
      let d := Db.apiKeyPair_deleteMany_notIn d (map Db.k_kid apiKeyPairs) in
      let w := {| db := d; pixel_jwk := pixel_jwk w |} in
      if db_fault env CallSessionFindFirst then (false, w)
      else
      match Db.session_findFirst d with
      | None => (false, w)
      | Some session =>
          match pixelRes env with
          | None => (false, w)
          | Some None => (false, w)
          | Some (Some pixelId) =>
              match pixelUpdateRes env with
              | None => (false, w)
              | Some res =>
                  let w := if pushed (Some res)
                           then {| db := db w; pixel_jwk := Some (jwk env) |} else w in
                  match res with
                  | UpdateData (_ :: _) =>
                      if db_fault env CallDelete then (false, w)
                      else
                      match Db.apiKeyPair_delete (db w) (kid env) with
                      | Some d => (false, {| db := d; pixel_jwk := pixel_jwk w |})
                      | None => (false, w)
                      end
                  | _ => (true, w)
                  end
              end
          end
      end
  end.



(** The cache of the gateway agrees with the table: a cached key is the
    import of the stored private key of its identifier. *)
Definition cache_coherent (P : Gateway.Platform) (w : Gateway.World) : Prop :=
  forall kid key record,
    Gateway.privateKeyCache w !! kid = Some key ->
    Db.apiKeyPair_findUnique (Gateway.db w) kid = Some record ->
    Gateway.importPKCS8 P (Db.k_privateKey record) = Some key.

End KeyRotation.

(** ** The exporter *)

Module Exporter.

(** Constants of [constants.ts]. *)
Definition API_ENDPOINT (type : string) : option string :=
  if String.eqb type "search" then Some "https://ads-search.yahooapis.jp/api/"%string
  else if String.eqb type "display" then Some "https://ads-display.yahooapis.jp/api/"%string
  else None.

Definition YCLID_PREFIX (type : string) : option string :=
  if String.eqb type "search" then Some "YSS"%string
  else if String.eqb type "display" then Some "YJAD"%string
  else None.

Definition CSV_FORMAT_CURRENCY : string := "JPY".

(** The answer of the token endpoint, when the request succeeded. *)
Record TokenResponse := {
  access_token : string;
  refresh_token : string }.

(** Whether a nullable string is falsy: null or empty. *)
Definition falsy (s : option string) : bool :=
  match s with
  | None => true
  | Some s => String.eqb s EmptyString
  end.

(** [getYahooAdToken]: the token, empty on any failure, and the database
    with the tokens stored.  [endpoint] is the answer of the token endpoint,
    [None] for a failed request or a status that is not OK. *)
Definition getYahooAdToken (d : Db.t) (now : Z) (endpoint : option TokenResponse)
    (yahooAdApplication : Db.YahooAdApplication) (isRefresh : bool)
  : string * Db.t :=
  if isRefresh && falsy (Db.app_refreshToken yahooAdApplication)
  then (EmptyString, d)
  else
    match endpoint with
    | None => (EmptyString, d)
    | Some response =>
        match Db.yahooAdApplication_update d (Db.app_clientId yahooAdApplication)
                (fun a => {| Db.app_clientId := Db.app_clientId a;
                             Db.app_clientSecret := Db.app_clientSecret a;
                             Db.app_redirectUri := Db.app_redirectUri a;
                             Db.app_code := Db.app_code a;
                             Db.app_accessToken := Some (access_token response);
                             Db.app_refreshToken := Some (refresh_token response);
                             Db.app_tokenCreatedAt := Some now |}) with
        | Some d' => (access_token response, d')
        | None => (EmptyString, d)
        end
    end.

(** [getYahooAdApplication] of [models/YahooAdApplication.server]:
    [db.yahooAdApplication.findFirst()], [None] for null. *)
Definition getYahooAdApplication (d : Db.t) : option Db.YahooAdApplication :=
  match head (Db.yahooAdApplication d) with
  | None => None
  | Some yahooAdApplication => Some yahooAdApplication
  end.

(** [getYahooAdAccounts]: [None] when there is none. *)
Definition getYahooAdAccounts (d : Db.t) : option (list Db.YahooAdAccount) :=
  match Db.yahooAdAccount d with
  | [] => None
  | l => Some l
  end.

(** The body of the answer of the upload endpoint. *)
Inductive UploadBody :=
| TextBody
| JsonBody (errors : list string)
| MalformedJson.

Inductive UploadResult :=
| UploadFailed
| UploadResponse (ok : bool) (body : UploadBody).

(** What the run meets for one account: the clock, whether the query for
    the records and the marking fail, and the upload. *)
Record AccountEnv := {
  now : Z;
  findMany_fault : bool;
  upload : UploadResult;
  updateMany_fault : bool }.

Record Env := {
  token_now : Z;
  token_endpoint : option TokenResponse;
  account_env : nat -> AccountEnv }.

(** A row of the file; the search format has the currency column. *)
Record Row := {
  row_yclid : string;
  row_title : string;
  row_time : Z;
  row_value : option Z;
  row_currency : option string }.

(** An upload request; the encoding of the file is left out. *)
Record UploadRequest := {
  endpoint : string;
  accountId : string;
  base_account_id : string;
  authorization : string;
  rows : list Row }.

(** [startsWith] of a query on SQLite is a [LIKE] with the prefix escaped:
    it ignores the case of the ASCII letters. *)
Definition fold_case (c : ascii) : ascii :=
  let n := nat_of_ascii c in
  if (65 <=? n)%nat && (n <=? 90)%nat then ascii_of_nat (n + 32) else c.

Fixpoint fold_string (s : string) : string :=
  match s with
  | EmptyString => EmptyString
  | String c rest => String (fold_case c) (fold_string rest)
  end.

Definition like_prefix (prefix s : string) : bool :=
  String.eqb (fold_string (String.substring 0 (String.length prefix) s))
             (fold_string prefix).

(** The range of the time values of [Date]; outside it [new Date(t)] is an
    invalid date, which the client of the database refuses. *)
Definition valid_time (t : Z) : bool :=
  (-8640000000000000 <=? t) && (t <=? 8640000000000000).

(** The [where] of [db.yahooConversion.findMany]. *)
Definition eligible (type : string) (now expiredAt oneHourAgo : Z)
    (r : Db.YahooConversion) : bool :=
  match YCLID_PREFIX type with
  | Some p => like_prefix p (Db.c_yclid r)
  | None => true
  end
  && match Db.c_visitedAt r with
     | Some v => (expiredAt <=? v) && (v <? now)
     | None => false
     end
  && negb (Db.c_isProcessed r)
  && (oneHourAgo <=? Db.c_conversionedAt r) && (Db.c_conversionedAt r <? now).

Definition make_row (type conversionTitle : string) (record : Db.YahooConversion) : Row :=
  {| row_yclid := Db.c_yclid record;
     row_title := conversionTitle;
     row_time := Db.c_conversionedAt record;
     row_value := Db.c_amount record;
     row_currency := if String.eqb type "search" then Some CSV_FORMAT_CURRENCY else None |}.

Definition null_string (s : option string) : string :=
  match s with Some s => s | None => "null"%string end.

(** The body of the loop for one account: the database after it, the
    upload request if one was made, and whether the loop goes on: an error
    of the query for the records or of the marking leaves the loop for the
    handler of the run, which ends it. *)
Definition process_account (d : Db.t) (yahooAdApplication : Db.YahooAdApplication)
    (e : AccountEnv) (yahooAdAccount : Db.YahooAdAccount)
  : Db.t * option UploadRequest * bool :=
  let type := Db.acc_type yahooAdAccount in
  if String.eqb type EmptyString || String.eqb (Db.acc_accountId yahooAdAccount) EmptyString
     || String.eqb (Db.acc_childAccountId yahooAdAccount) EmptyString
     || String.eqb (Db.acc_conversionTitle yahooAdAccount) EmptyString
  then (d, None, true)
  else
    let expiredAt := now e - Db.acc_duration yahooAdAccount * 24 * 60 * 60 * 1000 in
    let oneHourAgo := now e - 1 * 60 * 60 * 1000 in
    if findMany_fault e || negb (valid_time expiredAt) || negb (valid_time oneHourAgo)
    then (d, None, false)
    else
    let records :=
      List.filter (eligible type (now e) expiredAt oneHourAgo) (Db.yahooConversion d) in
    match records with
    | [] => (d, None, true)
    | _ =>
        match API_ENDPOINT type with
        | None => (d, None, true)
        | Some url =>
            let request :=
              {| endpoint := url;
                 accountId := Db.acc_childAccountId yahooAdAccount;
                 base_account_id := Db.acc_accountId yahooAdAccount;
                 authorization :=
                   ("Bearer " ++ null_string (Db.app_accessToken yahooAdApplication))%string;
                 rows := map (make_row type (Db.acc_conversionTitle yahooAdAccount)) records |} in
            match upload e with
            | UploadFailed => (d, Some request, true)
            | UploadResponse ok body =>
                match body with
                | MalformedJson => (d, Some request, true)
                | _ =>
                    if negb ok then (d, Some request, true)
                    else
                      (* errors of a JSON body are logged, and the run goes on *)
                      if updateMany_fault e then (d, Some request, false)
                      else
                        (Db.yahooConversion_updateMany_processed d (map Db.c_yclid records),
                         Some request, true)
                end
            end
        end
    end.

Fixpoint process_accounts (d : Db.t) (yahooAdApplication : Db.YahooAdApplication)
    (env : nat -> AccountEnv) (i : nat) (accounts : list Db.YahooAdAccount)
  : Db.t * list UploadRequest :=
  match accounts with
  | [] => (d, [])
  | a :: rest =>
      let '(d, req, goes_on) := process_account d yahooAdApplication (env i) a in
      let '(d, reqs) :=
        if goes_on then process_accounts d yahooAdApplication env (S i) rest
        else (d, []) in
      (d, match req with Some r => r :: reqs | None => reqs end)
  end.

(** [createCsvAndImportToYahoo]: the database after the run, and the upload
    requests made.  The lookup of the credential is a parameter, for the
    statements about a run to hold whatever it returns; the one of the
    source is [getYahooAdApplication]. *)
Definition createCsvAndImportToYahoo
    (lookup : Db.t -> option Db.YahooAdApplication)
    (d : Db.t) (env : Env) : Db.t * list UploadRequest :=
  match lookup d with
  | None => (d, [])
  | Some yahooAdApplication =>
      match getYahooAdAccounts d with
      | None => (d, [])
      | Some yahooAdAccounts =>
          let '(accessToken, d) :=
            getYahooAdToken d (token_now env) (token_endpoint env) yahooAdApplication true in
          if String.eqb accessToken EmptyString then (d, [])
          else
            match Db.yahooAdApplication_update d (Db.app_clientId yahooAdApplication)
                    (fun a => {| Db.app_clientId := Db.app_clientId a;
                                 Db.app_clientSecret := Db.app_clientSecret a;
                                 Db.app_redirectUri := Db.app_redirectUri a;
                                 Db.app_code := Db.app_code a;
                                 Db.app_accessToken := Some accessToken;
                                 Db.app_refreshToken := Db.app_refreshToken a;
                                 Db.app_tokenCreatedAt := Db.app_tokenCreatedAt a |}) with
            | None => (d, [])
            | Some d =>
                process_accounts d yahooAdApplication (account_env env) 0 yahooAdAccounts
            end
      end
  end.

(** The batch of an account: the records its upload carries. *)
Definition batch (d : Db.t) (e : AccountEnv) (a : Db.YahooAdAccount)
  : list Db.YahooConversion :=
  List.filter (eligible (Db.acc_type a) (now e)
                 (now e - Db.acc_duration a * 24 * 60 * 60 * 1000)
                 (now e - 1 * 60 * 60 * 1000))
              (Db.yahooConversion d).

End Exporter.

(** ** Sample data for the scenarios *)

Module Sample.
Import Gateway.

(** A token of the pixel for minute 29370000, and a gateway clock one
    minute later. *)
Definition token : jsstr := str "MjkzNzAwMDA6MTIzNDU2NzI1Njoy".
Definition minute : Z := 29370000.
Definition clock : Z := (minute + 1) * 60000.

Definition payload (yclid orderId nonce : string) : Payload :=
  {| yclid := JStr yclid; visitedAt := JStr "2025-11-03T10:00:00Z";
     conversionedAt := JStr "2025-11-03T10:05:00Z"; amount := JNum 1000;
     orderId := JStr orderId; nonce := JStr nonce |}.

(** A platform for the scenarios: a body is its own plaintext, under the
    key pair [kid-1]; three plaintexts are payloads. *)
Definition platform : Platform :=
  {| decodeProtectedHeader b :=
       if String.eqb b "not a message" then None
       else if String.eqb b "other algorithm" then Some (Some "kid-1", Some "RSA1_5")
       else Some (Some "kid-1", Some "RSA-OAEP-256");
     importPKCS8 pem := Some pem;
     compactDecrypt b key := if String.eqb key "pem-1" then Some b else None;
     parsePayload s :=
       if String.eqb s "order 123, nonce n1"
       then Some (payload "YSS.1690000000.abc" "123" "n1")
       else if String.eqb s "order 123, nonce n2"
       then Some (payload "YSS.1690000000.abc" "123" "n2")
       else if String.eqb s "order 123, nonce n3, other click"
       then Some (payload "YSS.1690000000.xyz" "123" "n3")
       else if String.eqb s "no amount"
       then Some {| yclid := JStr "YSS.1690000000.abc"; visitedAt := JStr "2025-11-03T10:00:00Z";
                    conversionedAt := JStr "2025-11-03T10:05:00Z"; amount := JUndefined;
                    orderId := JStr "123"; nonce := JStr "n4" |}
       else None;
     Date_parse s :=
       if String.eqb s "2025-11-03T10:00:00Z" then Some 1762164000000
       else if String.eqb s "2025-11-03T10:05:00Z" then Some 1762164300000
       else None |}.

Definition session : Db.Session :=
  {| Db.s_shop := "shop.example"; Db.s_accessToken := "shpat";
     Db.s_primaryDomain := Some "https://shop.example" |}.

Definition key1 : Db.ApiKeyPair :=
  {| Db.k_kid := "kid-1"; Db.k_publicKey := "jwk-1"; Db.k_privateKey := "pem-1";
     Db.k_createdAt := 100 |}.

Definition empty_db : Db.t :=
  {| Db.session := []; Db.apiKeyPair := []; Db.pixelNonce := ∅;
     Db.yahooConversion := []; Db.yahooAdApplication := []; Db.yahooAdAccount := [] |}.

Definition db0 : Db.t :=
  {| Db.session := [session]; Db.apiKeyPair := [key1]; Db.pixelNonce := ∅;
     Db.yahooConversion := []; Db.yahooAdApplication := []; Db.yahooAdAccount := [] |}.

Definition world0 : World :=
  {| db := db0; sessionCache := None; privateKeyCache := ∅; allowOriginCache := None |}.

Definition found (created : Z) : option GqlRes :=
  Some {| data := Some {| order := Some {| createdAt := Some created |} |} |}.
Definition absent : option GqlRes :=
  Some {| data := Some {| order := None |} |}.

(** The order system answers [l1], then [l2]; the order check reads the
    clock two seconds after the proof-of-work check. *)
Definition env (l1 l2 : option GqlRes) : Env :=
  {| t_cors := clock; t_pow := clock; t_session := clock; t_order := clock + 2000;
     db_fault := fun _ => false; lookup1 := l1; lookup2 := l2 |}.

Definition post (body : string) : Request :=
  {| method := "POST"; x_pow := Some token; body := body |}.

Definition origin : string := "https://shop.example".

(** Key rotation: a table with the keys of three rotations, and a fourth
    rotation whose push succeeds. *)
Definition key (n : string) (created : Z) : Db.ApiKeyPair :=
  {| Db.k_kid := ("kid-" ++ n)%string; Db.k_publicKey := ("jwk-" ++ n)%string;
     Db.k_privateKey := ("pem-" ++ n)%string; Db.k_createdAt := created |}.

Definition three_keys : KeyRotation.World :=
  {| KeyRotation.db := Db.set_apiKeyPair db0 [key "1" 100; key "2" 200; key "3" 300];
     KeyRotation.pixel_jwk := Some "jwk-3"%string |}.

Definition rotation (update : option KeyRotation.UpdateRes) : KeyRotation.Env :=
  {| KeyRotation.kid := "kid-4"; KeyRotation.jwk := "jwk-4"; KeyRotation.pkcs8 := "pem-4";
     KeyRotation.now := 400; KeyRotation.pixelRes := Some (Some "gid://pixel/1"%string);
     KeyRotation.pixelUpdateRes := update;
     KeyRotation.db_fault := fun _ => false |}.

Definition after_rotation : KeyRotation.World :=
  {| KeyRotation.db := Db.set_apiKeyPair db0 [key "2" 200; key "3" 300; key "4" 400];
     KeyRotation.pixel_jwk := Some "jwk-4"%string |}.

(** The exporter: a credential whose stored access token is [old], a search
    account with a window of 30 days, and two unprocessed search records,
    the second visited outside the window. *)
Definition day : Z := 24 * 60 * 60 * 1000.
Definition export_time : Z := 1762164600000.

Definition application : Db.YahooAdApplication :=
  {| Db.app_clientId := "client"; Db.app_clientSecret := "secret";
     Db.app_redirectUri := "https://app.example/receive/code";
     Db.app_code := Some "code"%string; Db.app_accessToken := Some "old"%string;
     Db.app_refreshToken := Some "refresh-0"%string; Db.app_tokenCreatedAt := Some 0 |}.

Definition search_account : Db.YahooAdAccount :=
  {| Db.acc_type := "search"; Db.acc_accountId := "base-1";
     Db.acc_childAccountId := "child-1"; Db.acc_duration := 30;
     Db.acc_conversionTitle := "purchase" |}.

Definition conversion (yclid orderId : string) (visited : Z) : Db.YahooConversion :=
  {| Db.c_yclid := yclid; Db.c_amount := Some 1000; Db.c_visitedAt := Some visited;
     Db.c_conversionedAt := export_time - 60000; Db.c_isProcessed := false;
     Db.c_orderId := orderId |}.

Definition export_db : Db.t :=
  {| Db.session := [session]; Db.apiKeyPair := [key1]; Db.pixelNonce := ∅;
     Db.yahooConversion :=
       [conversion "YSS.1.in" "123" (export_time - day);
        conversion "YSS.1.out" "124" (export_time - 31 * day)];
     Db.yahooAdApplication := [application];
     Db.yahooAdAccount := [search_account] |}.

(** The refresh is answered with the token [new]; the upload as given. *)
Definition export_env (u : Exporter.UploadResult) : Exporter.Env :=
  {| Exporter.token_now := export_time;
     Exporter.token_endpoint :=
       Some {| Exporter.access_token := "new"; Exporter.refresh_token := "refresh-1" |};
     Exporter.account_env :=
       fun _ => {| Exporter.now := export_time; Exporter.findMany_fault := false;
                   Exporter.upload := u; Exporter.updateMany_fault := false |} |}.

(** The purchase of the pixel scenarios, and the draws of its attempts. *)
Definition purchase : Pixel.Purchase :=
  {| Pixel.saved_yclid := "YSS.1690000000.abc"; Pixel.saved_ts := "visited";
     Pixel.event_timestamp := "converted"; Pixel.totalPrice_amount := Some 1000;
     Pixel.order_id := "123" |}.

Definition attempt (i : nat) : Pixel.AttemptEnv :=
  {| Pixel.uuid := match i with
                   | O => "uuid-a" | S O => "uuid-b" | _ => "uuid-c"
                   end;
     Pixel.pow_now := minute * 60000 + 1234;
     Pixel.pow_rand := [1; 2; 3; 4; 5; 6; 7; 256];
     Pixel.enc_rand := "r";
     Pixel.fetched := Pixel.FetchFailed |}.

Definition encrypt (p : Pixel.Payload) (r : string) : option string :=
  Some (Pixel.nonce p).

End Sample.

(** ** Retention: the daily maintenance tasks *)

Module Retention.

Definition DAY_MS : Z := 24 * 60 * 60 * 1000.

(** Whether [visitedAt] is before [expiredAt]; a null one is not. *)
Definition visited_before (expiredAt : Z) (r : Db.YahooConversion) : bool :=
  match Db.c_visitedAt r with
  | Some v => v <? expiredAt
  | None => false
  end.

(** [deleteExpiredRecords] at clock reading [now]; when the deletion fails
    the error is logged and nothing changes. *)
Definition deleteExpiredRecords (fault : bool) (now : Z) (d : Db.t) : Db.t :=
  let expiredAt := now - 90 * 24 * 60 * 60 * 1000 in
  if fault then d
  else Db.set_yahooConversion d
         (List.filter (fun r => negb (visited_before expiredAt r)) (Db.yahooConversion d)).

(** [cleanUpPixelNonce] at clock reading [now].  The table of the
    development is the set of the nonces; [receivedAt] gives the column of
    that name for each of them. *)
Definition cleanUpPixelNonce (receivedAt : string -> Z) (fault : bool) (now : Z)
    (d : Db.t) : Db.t :=
  let expiredAt := now - 1 * 24 * 60 * 60 * 1000 in
  if fault then d
  else Db.set_pixelNonce d
         (filter (fun n => ~ (receivedAt n < expiredAt)) (Db.pixelNonce d)).

(** The maintenance job of the scheduler: both tasks, each reading the
    clock. *)
Definition maintenance (receivedAt : string -> Z) (fault1 fault2 : bool)
    (now1 now2 : Z) (d : Db.t) : Db.t :=
  cleanUpPixelNonce receivedAt fault2 now2 (deleteExpiredRecords fault1 now1 d).

End Retention.

(** ** Vocabulary for the rotation of keys *)

Module KeyAux.

(** The key pair a rotation inserts. *)
Definition new_key (env : KeyRotation.Env) : Db.ApiKeyPair :=
  {| Db.k_kid := KeyRotation.kid env; Db.k_publicKey := KeyRotation.jwk env;
     Db.k_privateKey := KeyRotation.pkcs8 env; Db.k_createdAt := KeyRotation.now env |}.

(** The table after the insertion and the purge of a rotation. *)
Definition purged (w : KeyRotation.World) (env : KeyRotation.Env) : list Db.ApiKeyPair :=
  let all := Db.apiKeyPair (KeyRotation.db w) ++ [new_key env] in
  List.filter
    (fun x => Db.mem_string (Db.k_kid x) (map Db.k_kid (firstn 3 (Db.sort_desc all))))
    all.

(** The key pairs of a table are distinct by their identifiers. *)
Definition distinct_kids (w : KeyRotation.World) : Prop :=
  NoDup (map Db.k_kid (Db.apiKeyPair (KeyRotation.db w))).

(** The clock of a rotation is ahead of every stored key pair. *)
Definition clock_ahead (w : KeyRotation.World) (env : KeyRotation.Env) : Prop :=
  forall k, In k (Db.apiKeyPair (KeyRotation.db w)) ->
            Db.k_createdAt k < KeyRotation.now env.

End KeyAux.

(** ** Connecting the web pixel *)

Module PixelSetup.

(** What a call of the GraphQL client throws: a [GraphqlQueryError], with
    or without [body.data.webPixel], or something else. *)
Inductive Thrown :=
| GraphqlQueryError (body_has_webPixel : bool)
| OtherError.

Inductive result (A : Type) : Type :=
| Ok (a : A)
| Raise (e : Thrown).
Arguments Ok {A} a.
Arguments Raise {A} e.

(** What a call does, in order. *)
Inductive Event :=
| EvCreate
| EvRotate (returned : bool).

(** [activateWebPixel]: the mutation resolves to a value where
    [data?.webPixelCreate?.userErrors?.length] reads as [userErrors_length]
    ([None] for undefined), or throws. *)
Definition activateWebPixel (answer : result (option Z)) : result bool :=
  match answer with
  | Raise e => Raise e
  | Ok userErrors_length =>
      match userErrors_length with
      | Some n => if 0 <? n then Ok false else Ok true
      | None => Ok true
      end
  end.

(** What one call of [finalize] meets: the answers to the first and second
    mutation, and the draws of the first and second rotation. *)
Record FinalizeEnv := {
  create1 : result (option Z);
  create2 : result (option Z);
  rotation1 : KeyRotation.Env;
  rotation2 : KeyRotation.Env }.

(** [finalize]. *)
Definition finalize (w : KeyRotation.World) (e : FinalizeEnv)
  : result unit * KeyRotation.World * list Event :=
  let rotate (evs : list Event) :=
    let '(r1, w1) := KeyRotation.generatePublicKey w (rotation1 e) in
    if negb r1 then
      let '(r2, w2) := KeyRotation.generatePublicKey w1 (rotation2 e) in
      (Ok tt, w2, evs ++ [EvRotate r1; EvRotate r2])
    else (Ok tt, w1, evs ++ [EvRotate r1]) in
  match activateWebPixel (create1 e) with
  | Raise err => (Raise err, w, [EvCreate])
  | Ok true => rotate [EvCreate]
  | Ok false =>
      match activateWebPixel (create2 e) with
      | Raise err => (Raise err, w, [EvCreate; EvCreate])
      | Ok _ => rotate [EvCreate; EvCreate]
      end
  end.

(** Whether the handler of [ensurePixelConnected] runs [finalize]. *)
Definition pixel_missing (err : Thrown) : bool :=
  match err with
  | GraphqlQueryError body_has_webPixel => negb body_has_webPixel
  | OtherError => false
  end.

(** [ensurePixelConnected]: [query] is the answer to the query for the
    pixel, whether [data?.webPixel?.id] is truthy, or what it throws;
    [first] and [second] are what the first and second call of [finalize]
    meet.  An error of the [finalize] inside [try] reaches the handler; one
    of the [finalize] inside the handler leaves the function. *)
Definition ensurePixelConnected (w : KeyRotation.World) (query : result bool)
    (first second : FinalizeEnv)
  : result unit * KeyRotation.World * list Event :=
  let handler (err : Thrown) (w : KeyRotation.World) (evs : list Event)
      (e : FinalizeEnv) :=
    if pixel_missing err then
      let '(r, w', evs') := finalize w e in (r, w', evs ++ evs')
    else (Ok tt, w, evs) in
  match query with
  | Ok true => (Ok tt, w, [])
  | Ok false =>
      match finalize w first with
      | (Ok _, w1, evs) => (Ok tt, w1, evs)
      | (Raise err, w1, evs) => handler err w1 evs second
      end
  | Raise err => handler err w [] first
  end.

(** The rotations among the events of a call, in order. *)
Definition rotate_events (evs : list Event) : list Event :=
  List.filter (fun e => match e with EvRotate _ => true | EvCreate => false end) evs.

Definition rotations (evs : list Event) : nat := length (rotate_events evs).

Definition creations (evs : list Event) : nat :=
  length (List.filter (fun e => match e with EvCreate => true | EvRotate _ => false end) evs).

(** The table of key pairs is within its bound: at most three rows, with
    distinct identifiers. *)
Definition keys_bounded (w : KeyRotation.World) : Prop :=
  (length (Db.apiKeyPair (KeyRotation.db w)) <= 3)%nat
  /\ NoDup (map Db.k_kid (Db.apiKeyPair (KeyRotation.db w))).

(** The reading of the latest three and the purge of a rotation do not
    fail; of a call of [finalize], those of both its rotations. *)
Definition purges (env : KeyRotation.Env) : Prop :=
  KeyRotation.db_fault env KeyRotation.CallFindMany = false
  /\ KeyRotation.db_fault env KeyRotation.CallDeleteMany = false.

Definition finalize_purges (e : FinalizeEnv) : Prop :=
  purges (rotation1 e) /\ purges (rotation2 e).

End PixelSetup.

(** ** The OAuth callback *)

Module OAuthCallback.

(** The request: its method, and the [state] and [code] parameters of its
    URL, [None] when absent. *)
Record Request := {
  method : string;
  state : option string;
  code : option string }.

Inductive Answer :=
| Rejected (error_code : Z)
| Completed
| InternalError.

Definition set_code (code : string) (a : Db.YahooAdApplication) : Db.YahooAdApplication :=
  {| Db.app_clientId := Db.app_clientId a;
     Db.app_clientSecret := Db.app_clientSecret a;
     Db.app_redirectUri := Db.app_redirectUri a;
     Db.app_code := Some code;
     Db.app_accessToken := Db.app_accessToken a;
     Db.app_refreshToken := Db.app_refreshToken a;
     Db.app_tokenCreatedAt := Db.app_tokenCreatedAt a |}.

(** [loader] of the callback.  [getYahooAdApplication] is a parameter: it
    gives the row of the credential together with its [state] column, which
    the record of the development leaves out.
    [endpoint] is the answer of the token endpoint, as for
    [getYahooAdToken]. *)
Definition loader
    (getYahooAdApplication : Db.t -> option (Db.YahooAdApplication * option string))
    (d : Db.t) (now : Z) (endpoint : option Exporter.TokenResponse)
    (request : Request) : Answer * Db.t :=
  if negb (String.eqb (method request) "GET") then (Rejected 1, d)
  else
    match state request, code request with
    | Some state, Some code =>
        if String.eqb state EmptyString || String.eqb code EmptyString
        then (Rejected 2, d)
        else
          match getYahooAdApplication d with
          | None => (Rejected 3, d)
          | Some (yahooAdApplication, stored_state) =>
              if negb (bool_decide (Some state = stored_state)) then (Rejected 4, d)
              else
                match Db.yahooAdApplication_update d
                        (Db.app_clientId yahooAdApplication) (set_code code) with
                | None => (InternalError, d)
                | Some d1 =>
                    match List.find
                            (fun a => String.eqb (Db.app_clientId a)
                                        (Db.app_clientId yahooAdApplication))
                            (Db.yahooAdApplication d1) with
                    | None => (Rejected 5, d1)
                    | Some updatedYahooAdApplication =>
                        let '(accessToken, d2) :=
                          Exporter.getYahooAdToken d1 now endpoint
                            updatedYahooAdApplication false in
                        if String.eqb accessToken EmptyString then (Rejected 6, d2)
                        else (Completed, d2)
                    end
                end
          end
    | _, _ => (Rejected 2, d)
    end.

End OAuthCallback.

(** ** The script that renames the application *)

Module Scripts.

Record Options := {
  name : option string;
  toml : option string }.

(** [arg.startsWith(prefix)]. *)
Definition startsWith (prefix arg : string) : bool :=
  String.eqb (String.substring 0 (String.length prefix) arg) prefix.

(** [arg.substring(7)]. *)
Definition substring7 (arg : string) : string :=
  String.substring 7 (String.length arg - 7) arg.

(** The body of the loop of [parseArgs]. *)
Definition parseArg (options : Options) (arg : string) : Options :=
  if startsWith "--name=" arg
  then {| name := Some (substring7 arg); toml := toml options |}
  else if startsWith "--toml=" arg
  then {| name := name options; toml := Some (substring7 arg) |}
  else options.

(** [parseArgs]. *)
Definition parseArgs (args : list string) : Options :=
  fold_left parseArg args {| name := None; toml := None |}.

(** The file the script rewrites. *)
Definition shopifyTomlPath (options : Options) : string :=
  match toml options with
  | Some t => if String.eqb t EmptyString then "shopify.app.toml"%string
              else ("shopify.app." ++ t ++ ".toml")%string
  | None => "shopify.app.toml"%string
  end.

(** The name the script gives the application; [random] is the hexadecimal
    text of the twelve random bytes drawn. *)
Definition newAppName (options : Options) (random : string) : string :=
  match name options with
  | Some n => if String.eqb n EmptyString then ("shopifyapp-" ++ random)%string else n
  | None => ("shopifyapp-" ++ random)%string
  end.

(** The later of two settings. *)
Definition later (a b : option string) : option string :=
  match b with Some _ => b | None => a end.

End Scripts.

(** ** From the pixel to the gateway *)

Module Delivery.





End Delivery.

(** ** Requests handled one after the other *)

Module GatewayAux.

(** The world after a list of requests, each handled to its answer before
    the next starts, each with what it meets. *)
Fixpoint handle_all (P : Gateway.Platform) (w : Gateway.World)
    (requests : list (Gateway.Env * Gateway.Request)) : Gateway.World :=
  match requests with
  | [] => w
  | (env, request) :: rest =>
      handle_all P (snd (Gateway.action P w env request)) rest
  end.

End GatewayAux.

(** ** Vocabulary for the exporter *)

Module ExportAux.

(** The click identifiers of the rows of some uploads. *)
Definition uploaded (reqs : list Exporter.UploadRequest) : list string :=
  concat (map (fun q => map Exporter.row_yclid (Exporter.rows q)) reqs).

(** A record after a run whose uploads carried [yclids]: as it was, or
    marked processed, its click identifier among those uploaded. *)
Definition kept_or_marked (yclids : list string) (r r' : Db.YahooConversion) : Prop :=
  r' = r \/ (r' = Db.mark_processed r /\ In (Db.c_yclid r) yclids).

(** The records of a table are those of an earlier one, each as it was or
    marked processed since. *)
Definition marked_since (d0 d : Db.t) : Prop :=
  exists f, Db.yahooConversion d = map f (Db.yahooConversion d0)
            /\ forall r, f r = r \/ f r = Db.mark_processed r.

(** The tables a run has no business with are as they were. *)
Definition untouched (d d' : Db.t) : Prop :=
  Db.session d' = Db.session d /\ Db.apiKeyPair d' = Db.apiKeyPair d
  /\ Db.pixelNonce d' = Db.pixelNonce d /\ Db.yahooAdAccount d' = Db.yahooAdAccount d.

End ExportAux.

(** ** More sample data *)

Module Sample2.

(** A call of [finalize] whose first mutation succeeds, whose first
    rotation is rejected by the pixel with user errors and whose second
    succeeds. *)
Definition second_rotation : KeyRotation.Env :=
  {| KeyRotation.kid := "kid-5"; KeyRotation.jwk := "jwk-5"; KeyRotation.pkcs8 := "pem-5";
     KeyRotation.now := 500; KeyRotation.pixelRes := Some (Some "gid://pixel/1"%string);
     KeyRotation.pixelUpdateRes := Some (KeyRotation.UpdateData []);
     KeyRotation.db_fault := fun _ => false |}.

Definition finalize_env : PixelSetup.FinalizeEnv :=
  {| PixelSetup.create1 := PixelSetup.Ok None;
     PixelSetup.create2 := PixelSetup.Ok None;
     PixelSetup.rotation1 :=
       Sample.rotation (Some (KeyRotation.UpdateData ["invalid"%string]));
     PixelSetup.rotation2 := second_rotation |}.


(** The credential as the callback reads it, with the [state] issued. *)
Definition credential_with_state (d : Db.t)
  : option (Db.YahooAdApplication * option string) :=
  option_map (fun a => (a, Some "issued"%string)) (head (Db.yahooAdApplication d)).

Definition callback (state : string) : OAuthCallback.Request :=
  {| OAuthCallback.method := "GET"; OAuthCallback.state := Some state;
     OAuthCallback.code := Some "code-2"%string |}.

Definition tokens : Exporter.TokenResponse :=
  {| Exporter.access_token := "new"; Exporter.refresh_token := "refresh-1" |}.

(** When each nonce of the scenarios was received. *)
Definition receivedAt (n : string) : Z := Sample.clock + 500.

Definition db_with_nonce : Db.t := Db.set_pixelNonce Sample.db0 {[ "n1"%string ]}.

End Sample2.
Example sha256_abc :
  Sha256.digest (bytes_of_string "abc") =
  [0xba; 0x78; 0x16; 0xbf; 0x8f; 0x01; 0xcf; 0xea; 0x41; 0x41; 0x40; 0xde;
   0x5d; 0xae; 0x22; 0x23; 0xb0; 0x03; 0x61; 0xa3; 0x96; 0x17; 0x7a; 0x9c;
   0xb4; 0x10; 0xff; 0x61; 0xf2; 0x00; 0x15; 0xad].
Proof. vm_compute. reflexivity. Qed.

Example sha256_empty :
  firstn 4 (Sha256.digest []) = [0xe3; 0xb0; 0xc4; 0x42].
Proof. vm_compute. reflexivity. Qed.

Example sha256_two_blocks :
  firstn 4 (Sha256.digest (repeat 97 70)) = [0x6b; 0xd5; 0xe5; 0x03].
Proof. vm_compute. reflexivity. Qed.

Example makePow_sample :
  Pixel.makePow 3 (29370000 * 60000 + 1234) [1; 2; 3; 4; 5; 6; 7; 256]
  = Done (str "MjkzNzAwMDA6MTIzNDU2NzI1Njoy").
Proof. vm_compute. reflexivity. Qed.

Example makePow_sample_padded :
  Pixel.makePow 3 (29370000 * 60000) [1; 2; 3; 4; 5; 6; 7; 1034]
  = Done (str "MjkzNzAwMDA6MTIzNDU2NzEwMzQ6Mg==").
Proof. vm_compute. reflexivity. Qed.

Example checkPow_sample :
  Gateway.checkPow (29370001 * 60000) (Some (str "MjkzNzAwMDA6MTIzNDU2NzI1Njoy")) = true
  /\ Gateway.checkPow (29370003 * 60000) (Some (str "MjkzNzAwMDA6MTIzNDU2NzI1Njoy")) = false
  /\ Gateway.checkPow (29370001 * 60000) (Some (str "MjkzNzAwMDA6MTIzNDU2NzEwMzQ6Mg==")) = true.
Proof. vm_compute. auto. Qed.

(** ** Facts about the platform functions *)

Module JsFacts.
Import Js JsAux.

(** *** Exhaustive checks over bytes *)

Lemma in_byte_range (b : Z) : 0 <= b < 256 -> In b byte_range.
Proof.
  intros Hb. unfold byte_range. apply in_map_iff.
  exists (Z.to_nat b). split; [lia|]. apply in_seq. lia.
Qed.

Lemma all_bytes (P : Z -> bool) :
  forallb P byte_range = true -> forall a, 0 <= a < 256 -> P a = true.
Proof.
  intros H a Ha. rewrite forallb_forall in H. apply H, in_byte_range, Ha.
Qed.

Lemma all_byte_pairs (P : Z -> Z -> bool) :
  forallb (fun a => forallb (P a) byte_range) byte_range = true ->
  forall a b, 0 <= a < 256 -> 0 <= b < 256 -> P a b = true.
Proof.
  intros H a b Ha Hb.
  apply (all_bytes (P a)); [|exact Hb].
  apply (all_bytes (fun a => forallb (P a) byte_range)); assumption.
Qed.

(** *** Decimal printing and [parseInt] *)

Lemma digits_fuel_value (f : nat) : forall n acc,
  0 <= n < 2 ^ Z.of_nat (S f) ->
  dec_value (digits_fuel (S f) n acc) 0 = dec_value acc n.
Proof.
  induction f as [|f IH]; intros n acc Hn.
  - change (2 ^ Z.of_nat 1) with 2 in Hn.
    cbn [digits_fuel]. destruct (Z.ltb_spec n 10); [|lia].
    cbn. rewrite Z.mod_small by lia. f_equal. lia.
  - remember (S f) as k eqn:Hk. cbn [digits_fuel].
    destruct (Z.ltb_spec n 10) as [Hlt|Hge].
    + cbn. rewrite Z.mod_small by lia. f_equal. lia.
    + rewrite IH.
      * cbn. f_equal. pose proof (Z.div_mod n 10). lia.
      * assert (Hp : 2 ^ Z.of_nat (S k) = 2 * 2 ^ Z.of_nat k).
        { rewrite Nat2Z.inj_succ, Z.pow_succ_r by lia. reflexivity. }
        split; [apply Z.div_pos; lia|].
        apply Z.div_lt_upper_bound; lia.
Qed.

Lemma digits_fuel_all_digits (f : nat) : forall n acc,
  0 <= n ->
  forallb is_digit acc = true ->
  forallb is_digit (digits_fuel f n acc) = true.
Proof.
  induction f as [|f IH]; intros n acc Hn Hacc; [exact Hacc|].
  cbn [digits_fuel].
  assert (Hd : forallb is_digit ((48 + n mod 10) :: acc) = true).
  { cbn [forallb]. rewrite Hacc, andb_true_r. unfold is_digit.
    pose proof (Z.mod_pos_bound n 10). lia. }
  destruct (n <? 10); [exact Hd|].
  apply IH; [apply Z.div_pos; lia | exact Hd].
Qed.

Lemma digits_fuel_nonempty (f : nat) : forall n acc,
  digits_fuel (S f) n acc <> [].
Proof.
  induction f as [|f IH]; intros n acc.
  - cbn. destruct (n <? 10); discriminate.
  - remember (S f) as k. cbn [digits_fuel]. destruct (n <? 10); [discriminate|].
    subst k. apply IH.
Qed.

Lemma digits_value (n : Z) : 0 <= n -> dec_value (digits n) 0 = n.
Proof.
  intros Hn. unfold digits. rewrite digits_fuel_value; [reflexivity|].
  split; [lia|].
  destruct (Z.eq_dec n 0) as [->|Hne]; [reflexivity|].
  rewrite Nat2Z.inj_succ, Z2Nat.id by apply Z.log2_nonneg.
  apply Z.log2_spec. lia.
Qed.

Lemma digits_all_digits (n : Z) : 0 <= n -> forallb is_digit (digits n) = true.
Proof. intros Hn. apply digits_fuel_all_digits; [exact Hn | reflexivity]. Qed.

Lemma digits_nonempty (n : Z) : digits n <> [].
Proof. apply digits_fuel_nonempty. Qed.

Lemma parse_digits_app (l rest : jsstr) : forall a,
  forallb is_digit l = true ->
  parse_digits (l ++ rest) (Some a) = parse_digits rest (Some (dec_value l a)).
Proof.
  induction l as [|c l IH]; intros a Hl; [reflexivity|].
  cbn [forallb] in Hl. apply andb_true_iff in Hl as [Hc Hl].
  cbn [app parse_digits]. rewrite Hc. cbn [default]. rewrite IH by exact Hl.
  reflexivity.
Qed.

Lemma parse_digits_all (l : jsstr) :
  l <> [] -> forallb is_digit l = true ->
  parse_digits l None = Some (dec_value l 0).
Proof.
  destruct l as [|c l]; [congruence|]. intros _ Hl.
  cbn [forallb] in Hl. apply andb_true_iff in Hl as [Hc Hl].
  cbn [parse_digits]. rewrite Hc. cbn [default].
  rewrite <- (app_nil_r l) at 1. rewrite parse_digits_app by exact Hl.
  reflexivity.
Qed.

Lemma digit_not_white (c : Z) : is_digit c = true -> is_white c = false.
Proof. unfold is_digit, is_white. intros H. lia. Qed.

Lemma parseInt10_digits (l : jsstr) :
  l <> [] -> forallb is_digit l = true ->
  parseInt10 l = parse_digits l None.
Proof.
  destruct l as [|c l]; [congruence|]. intros _ Hl.
  cbn [forallb] in Hl. apply andb_true_iff in Hl as [Hc Hl].
  unfold parseInt10. cbn [skip_white]. rewrite (digit_not_white c Hc).
  unfold is_digit in Hc.
  destruct (Z.eq_dec c 45) as [->|H45]; [discriminate|].
  destruct (Z.eq_dec c 43) as [->|H43]; [discriminate|].
  destruct c as [|p|p]; try reflexivity.
  do 6 (destruct p as [p|p|]; try reflexivity); lia.
Qed.

(** [parseInt] reads back what [String] prints. *)
Lemma parseInt10_Number_toString (n : Z) :
  parseInt10 (Number_toString n) = Some n.
Proof.
  unfold Number_toString. destruct (Z.ltb_spec n 0) as [Hneg|Hpos].
  - unfold parseInt10. cbn [skip_white].
    change (is_white 45) with false. cbv iota.
    rewrite parse_digits_all by (apply digits_nonempty || apply digits_all_digits; lia).
    rewrite digits_value by lia. cbn. f_equal. lia.
  - rewrite parseInt10_digits by (apply digits_nonempty || apply digits_all_digits; lia).
    rewrite parse_digits_all by (apply digits_nonempty || apply digits_all_digits; lia).
    rewrite digits_value by lia. reflexivity.
Qed.

Lemma Number_toString_numchars (n : Z) :
  forallb is_numchar (Number_toString n) = true.
Proof.
  assert (Hd : forall l, forallb is_digit l = true -> forallb is_numchar l = true).
  { intros l H. rewrite forallb_forall in *. intros x Hx. unfold is_numchar.
    rewrite (H x Hx). reflexivity. }
  unfold Number_toString. destruct (Z.ltb_spec n 0).
  - cbn [forallb]. rewrite Hd by (apply digits_all_digits; lia). reflexivity.
  - apply Hd, digits_all_digits. lia.
Qed.

Lemma before_colon_app (l rest : jsstr) :
  forallb is_numchar l = true -> before_colon (l ++ 58 :: rest) = l.
Proof.
  induction l as [|c l IH]; intros Hl; [reflexivity|].
  cbn [forallb] in Hl. apply andb_true_iff in Hl as [Hc Hl].
  cbn [app before_colon]. rewrite IH by exact Hl.
  unfold is_numchar, is_digit in Hc.
  destruct (Z.eqb_spec c 58); [lia | reflexivity].
Qed.


(** *** Base64: the decoder reads back what [btoa] writes *)

Lemma is_byte_range (b : Z) : is_byte b = true -> 0 <= b < 256.
Proof. unfold is_byte. lia. Qed.

Lemma b64_char_unbase64 (v : Z) :
  0 <= v < 64 -> (b64_char v =? 61) = false /\ unbase64 (b64_char v) = Some v.
Proof.
  intros Hv.
  pose (P := fun v : Z =>
    negb (b64_char (v mod 64) =? 61)
    && match unbase64 (b64_char (v mod 64)) with
       | Some w => w =? v mod 64
       | None => false
       end).
  assert (H : P v = true).
  { apply all_bytes; [vm_compute; reflexivity | lia]. }
  unfold P in H. rewrite Z.mod_small in H by lia.
  apply andb_true_iff in H as [H1 H2]. apply negb_true_iff in H1.
  split; [exact H1|].
  destruct (unbase64 (b64_char v)) as [w|]; [|discriminate].
  apply Z.eqb_eq in H2. congruence.
Qed.

Lemma sextet_facts (a b : Z) :
  0 <= a < 256 -> 0 <= b < 256 ->
  in64 (sx1 a) = true /\ in64 (sx2 a b) = true /\ in64 (sx3 a b) = true
  /\ in64 (sx4 a) = true
  /\ Z.lor (Z.shiftl (Z.land (sx1 a) 63) 2) (Z.shiftr (Z.land (sx2 a b) 48) 4) = a
  /\ Z.land (sx2 a b) 15 = Z.shiftr b 4
  /\ Z.shiftr (Z.land (sx3 a b) 60) 2 = Z.land a 15
  /\ Z.land (sx3 a b) 3 = Z.shiftr b 6
  /\ Z.lor (Z.shiftl (Z.shiftr a 4) 4) (Z.land a 15) = a
  /\ Z.lor (Z.shiftl (Z.shiftr a 6) 6) (Z.land (sx4 a) 63) = a
  /\ sx2 a 0 = Z.shiftl (Z.land a 3) 4
  /\ sx3 a 0 = Z.shiftl (Z.land a 15) 2.
Proof.
  intros Ha Hb.
  pose (P := fun a b : Z =>
    in64 (sx1 a) && in64 (sx2 a b) && in64 (sx3 a b) && in64 (sx4 a)
    && (Z.lor (Z.shiftl (Z.land (sx1 a) 63) 2) (Z.shiftr (Z.land (sx2 a b) 48) 4) =? a)
    && (Z.land (sx2 a b) 15 =? Z.shiftr b 4)
    && (Z.shiftr (Z.land (sx3 a b) 60) 2 =? Z.land a 15)
    && (Z.land (sx3 a b) 3 =? Z.shiftr b 6)
    && (Z.lor (Z.shiftl (Z.shiftr a 4) 4) (Z.land a 15) =? a)
    && (Z.lor (Z.shiftl (Z.shiftr a 6) 6) (Z.land (sx4 a) 63) =? a)
    && (sx2 a 0 =? Z.shiftl (Z.land a 3) 4)
    && (sx3 a 0 =? Z.shiftl (Z.land a 15) 2)).
  assert (H : P a b = true).
  { apply all_byte_pairs; [vm_compute; reflexivity | exact Ha | exact Hb]. }
  unfold P in H.
  do 11 (apply andb_true_iff in H as [H ?]).
  repeat match goal with Heq : (_ =? _) = true |- _ => apply Z.eqb_eq in Heq end.
  repeat split; assumption.
Qed.

Lemma in64_range (v : Z) : in64 v = true -> 0 <= v < 64.
Proof. unfold in64. lia. Qed.

Lemma sextets_cons_char (v : Z) (rest : jsstr) :
  0 <= v < 64 -> sextets (b64_char v :: rest) = v :: sextets rest.
Proof.
  intros Hv. destruct (b64_char_unbase64 v Hv) as [H1 H2].
  cbn [sextets]. rewrite H1, H2. reflexivity.
Qed.

(** Induction three bytes at a time. *)
Lemma list_ind3 {A : Type} (P : list A -> Prop) :
  P [] -> (forall a, P [a]) -> (forall a b, P [a; b]) ->
  (forall a b c rest, P rest -> P (a :: b :: c :: rest)) ->
  forall l, P l.
Proof.
  intros H0 H1 H2 H3.
  assert (H : forall l, P l /\ (forall a, P (a :: l)) /\ (forall a b, P (a :: b :: l))).
  { induction l as [|x l (Hl & Hl1 & Hl2)]; [auto|].
    split; [apply Hl1|]. split; [intros a; apply Hl2|]. intros a b. apply H3, Hl. }
  intros l. apply H.
Qed.

Lemma Buffer_from_base64_btoa_bytes (bs : bytes) :
  forallb is_byte bs = true -> Buffer_from_base64 (btoa_bytes bs) = bs.
Proof.
  unfold Buffer_from_base64.
  induction bs as [|a|a b|a b c rest IH] using list_ind3; intros Hbs;
    cbn [forallb] in Hbs;
    repeat match type of Hbs with
           | (_ && _) = true => apply andb_true_iff in Hbs as [?Hb Hbs]
           end;
    repeat match goal with
           | Hb : is_byte _ = true |- _ => apply is_byte_range in Hb
           end.
  - reflexivity.
  - destruct (sextet_facts a 0) as (I1 & I2 & _ & _ & E1 & _ & _ & _ & _ & _ & E2 & _);
      [assumption | lia |].
    cbn [btoa_bytes]. fold (sx1 a). rewrite <- E2.
    rewrite !sextets_cons_char by (apply in64_range; assumption).
    cbn [sextets Z.eqb Pos.eqb decode_groups]. rewrite E1. reflexivity.
  - destruct (sextet_facts a b) as (I1 & I2 & _ & _ & E1 & E2 & _); [assumption..|].
    destruct (sextet_facts b 0) as (_ & _ & I3 & _ & _ & _ & E3 & _ & E4 & _ & _ & E5);
      [assumption | lia |].
    cbn [btoa_bytes]. fold (sx1 a) (sx2 a b). rewrite <- E5.
    rewrite !sextets_cons_char by (apply in64_range; assumption).
    cbn [sextets Z.eqb Pos.eqb decode_groups]. rewrite E1, E2, E3, E4. reflexivity.
  - destruct (sextet_facts a b) as (I1 & I2 & _ & _ & E1 & E2 & _); [assumption..|].
    destruct (sextet_facts b c) as (_ & _ & I3 & _ & _ & _ & E3 & E6 & E4 & _);
      [assumption..|].
    destruct (sextet_facts c 0) as (_ & _ & _ & I4 & _ & _ & _ & _ & _ & E7 & _);
      [assumption | lia |].
    cbn [btoa_bytes]. fold (sx1 a) (sx2 a b) (sx3 b c) (sx4 c).
    rewrite !sextets_cons_char by (apply in64_range; assumption).
    cbn [decode_groups]. rewrite E1, E2, E3, E4, E6, E7.
    rewrite IH by assumption. reflexivity.
Qed.

Lemma btoa_nonempty (s t : jsstr) : s <> [] -> btoa s = Some t -> t <> [].
Proof.
  unfold btoa. destruct (forallb _ s); [|discriminate].
  intros Hs [= <-]. destruct s as [|a [|b [|c rest]]]; [congruence|discriminate..].
Qed.

(** *** UTF-8 on ASCII text *)

Lemma utf8_encode_ascii (s : jsstr) :
  forallb is_ascii s = true -> utf8_encode s = s.
Proof.
  induction s as [|c s IH]; intros Hs; [reflexivity|].
  cbn [forallb] in Hs. apply andb_true_iff in Hs as [Hc Hs].
  unfold utf8_encode in *. cbn [flat_map]. rewrite IH by exact Hs.
  unfold utf8_encode_cp, is_ascii in *.
  destruct (Z.ltb_spec c 128); [reflexivity | lia].
Qed.

Lemma utf8_decode_ascii (bs : bytes) :
  forallb is_ascii bs = true -> utf8_decode bs = bs.
Proof.
  unfold utf8_decode.
  induction bs as [|b bs IH]; intros Hbs; [reflexivity|].
  cbn [forallb] in Hbs. apply andb_true_iff in Hbs as [Hb Hbs].
  cbn [utf8_decode_from]. unfold dec_step. cbn [needed dec_init Z.eqb].
  unfold dec_start, is_ascii in *.
  destruct (Z.ltb_spec b 128); [|lia].
  rewrite IH by exact Hbs. reflexivity.
Qed.

End JsFacts.

(** ** The proof-of-work round trip *)

Module PowFacts.
Import Js JsAux JsFacts.

Lemma clz32_byte (b : Z) :
  0 <= b < 256 -> clz32 b - 24 = if b =? 0 then 8 else 7 - Z.log2 b.
Proof.
  intros Hb. unfold clz32. rewrite Z.mod_small by lia.
  destruct (Z.eqb_spec b 0); lia.
Qed.

Lemma log2_byte (b : Z) : 0 < b < 256 -> 0 <= Z.log2 b < 8.
Proof.
  intros Hb. split; [apply Z.log2_nonneg|].
  apply Z.log2_lt_pow2; lia.
Qed.

(** Both loops compute the rule of the design. *)
Lemma gateway_count_zeros_spec (hash : bytes) : forall zeros,
  forallb is_byte hash = true ->
  Gateway.count_zeros hash zeros = zeros + leading_zero_bits hash.
Proof.
  induction hash as [|b hash IH]; intros zeros Hh; cbn [Gateway.count_zeros leading_zero_bits].
  - lia.
  - cbn [forallb] in Hh. apply andb_true_iff in Hh as [Hb Hh].
    apply is_byte_range in Hb. rewrite clz32_byte by exact Hb.
    destruct (Z.eqb_spec b 0) as [->|Hne].
    + rewrite !Z.eqb_refl. cbn [negb]. rewrite IH by exact Hh. lia.
    + pose proof (log2_byte b ltac:(lia)).
      destruct (Z.eqb_spec (7 - Z.log2 b) 8); [lia|]. cbn [negb]. lia.
Qed.

Lemma pixel_gateway_count_zeros (hash : bytes) (zeros : Z) :
  Pixel.count_zeros hash zeros = Gateway.count_zeros hash zeros.
Proof. reflexivity. Qed.

(** What the loop of [makePow] returns: the token of the first counter, from
    the starting one, whose digest meets the difficulty. *)
Lemma makePow_loop_done (fuel : nat) (seedStr : jsstr) : forall counter tok,
  Pixel.makePow_loop fuel seedStr counter = Done tok ->
  exists c, counter <= c
    /\ Pixel.DIFFICULTY <=
       Pixel.count_zeros (Sha256.digest (utf8_encode (seedStr ++ Number_toString c))) 0
    /\ btoa (seedStr ++ Number_toString c) = Some tok
    /\ forall c', counter <= c' < c ->
       Pixel.count_zeros (Sha256.digest (utf8_encode (seedStr ++ Number_toString c'))) 0
       < Pixel.DIFFICULTY.
Proof.
  induction fuel as [|fuel IH]; intros counter tok Hrun; [discriminate|].
  cbn [Pixel.makePow_loop] in Hrun. unfold Pixel.sha256 in Hrun.
  destruct (Z.leb_spec Pixel.DIFFICULTY
    (Pixel.count_zeros (Sha256.digest (utf8_encode (seedStr ++ Number_toString counter))) 0))
    as [Hle|Hlt].
  - destruct (btoa (seedStr ++ Number_toString counter)) as [t|] eqn:Hb; [|discriminate].
    injection Hrun as <-. exists counter. repeat split; [lia | exact Hle | exact Hb | lia].
  - destruct (IH _ _ Hrun) as (c & Hc & Hz & Hb & Hfirst).
    exists c. repeat split; [lia | exact Hz | exact Hb |].
    intros c' Hc'. destruct (Z.eq_dec c' counter) as [->|Hne]; [exact Hlt|].
    apply Hfirst. lia.
Qed.

(** A digest is a list of bytes. *)
Lemma be_bytes_bytes (n : nat) : forall x, forallb is_byte (Sha256.be_bytes n x) = true.
Proof.
  induction n as [|n IH]; intros x; [reflexivity|].
  cbn [Sha256.be_bytes]. rewrite forallb_app, IH. cbn [forallb].
  change 255 with (Z.ones 8). rewrite Z.land_ones by lia.
  unfold is_byte. pose proof (Z.mod_pos_bound x (2 ^ 8)). lia.
Qed.

Lemma digest_bytes (msg : bytes) : forallb is_byte (Sha256.digest msg) = true.
Proof.
  unfold Sha256.digest. generalize (Sha256.blocks
    (S (length (Sha256.pad msg) / 64)) Sha256.H0 (Sha256.pad msg)).
  induction l as [|w l IH]; [reflexivity|].
  cbn [flat_map]. rewrite forallb_app, IH, be_bytes_bytes. reflexivity.
Qed.

Lemma numchars_tokchars (l : jsstr) :
  forallb is_numchar l = true -> forallb is_tokchar l = true.
Proof.
  intros H. rewrite forallb_forall in *. intros x Hx.
  unfold is_tokchar. rewrite (H x Hx). reflexivity.
Qed.

Lemma join_empty_numchars (l : list Z) : forallb is_numchar (join_empty l) = true.
Proof.
  unfold join_empty. induction l as [|x l IH]; [reflexivity|].
  cbn [flat_map]. rewrite forallb_app, Number_toString_numchars, IH. reflexivity.
Qed.

Lemma token_text_tokchars (now : Z) (rand : list Z) (c : Z) :
  forallb is_tokchar (Pixel.seed now rand ++ Number_toString c) = true.
Proof.
  unfold Pixel.seed. rewrite !forallb_app.
  rewrite (numchars_tokchars _ (Number_toString_numchars (now / 60000))).
  rewrite (numchars_tokchars _ (join_empty_numchars rand)).
  rewrite (numchars_tokchars _ (Number_toString_numchars c)).
  reflexivity.
Qed.

Lemma tokchars_ascii (l : jsstr) :
  forallb is_tokchar l = true -> forallb is_ascii l = true.
Proof.
  intros H. rewrite forallb_forall in *. intros x Hx. specialize (H x Hx).
  unfold is_tokchar, is_numchar, is_digit, is_ascii in *. lia.
Qed.

Lemma ascii_bytes (l : jsstr) :
  forallb is_ascii l = true -> forallb is_byte l = true.
Proof.
  intros H. rewrite forallb_forall in *. intros x Hx. specialize (H x Hx).
  unfold is_ascii, is_byte in *. lia.
Qed.

(** The embedded time of a token text is the minute the pixel read. *)
Lemma minTime_of_token_text (now : Z) (rand : list Z) (c : Z) :
  Gateway.minTime_of (Pixel.seed now rand ++ Number_toString c)
  = Some (now / 60000 * 60000).
Proof.
  unfold Gateway.minTime_of, Pixel.seed.
  rewrite <- !app_assoc. cbn [app].
  rewrite before_colon_app by apply Number_toString_numchars.
  rewrite parseInt10_Number_toString. reflexivity.
Qed.

End PowFacts.

(** C2. Every token [makePow] returns is accepted by [checkPow] at any time
    within [POW_VALID_MS] of the minute the token embeds.  The token is the
    base64 text of the seed and the first counter whose digest has at least
    10 leading zero bits, counted as eight per leading zero byte plus the
    partial count of the first other byte; the gateway decodes the very text
    the pixel hashed, both loops count alike, and both thresholds are 10. *)
Theorem makePow_checkPow_agree
    (fuel : nat) (now_client : Z) (rand : list Z) (tok : jsstr) (now_server : Z) :
  Pixel.makePow fuel now_client rand = Done tok ->
  Z.abs (now_server - now_client / 60000 * 60000) <= Gateway.POW_VALID_MS ->
  Gateway.checkPow now_server (Some tok) = true
  /\ (exists counter,
        0 <= counter
        /\ Js.btoa (Pixel.seed now_client rand ++ Js.Number_toString counter) = Some tok
        /\ 10 <= leading_zero_bits
                   (Sha256.digest (Pixel.seed now_client rand ++ Js.Number_toString counter))
        /\ forall c, 0 <= c < counter ->
             leading_zero_bits
               (Sha256.digest (Pixel.seed now_client rand ++ Js.Number_toString c)) < 10)
  /\ (forall hash, Pixel.count_zeros hash 0 = Gateway.count_zeros hash 0)
  /\ Pixel.DIFFICULTY = 10 /\ Gateway.POW_BITS = 10.
Proof.
  intros Hrun Hwin. unfold Pixel.makePow in Hrun.
  destruct (PowFacts.makePow_loop_done _ _ _ _ Hrun) as (c & Hc & Hz & Hb & Hfirst).
  assert (Hascii : forall k,
    forallb JsAux.is_ascii (Pixel.seed now_client rand ++ Js.Number_toString k) = true)
    by (intros k; apply PowFacts.tokchars_ascii, PowFacts.token_text_tokchars).
  assert (Hcount : forall k,
    Pixel.count_zeros (Sha256.digest
      (Js.utf8_encode (Pixel.seed now_client rand ++ Js.Number_toString k))) 0
    = leading_zero_bits (Sha256.digest (Pixel.seed now_client rand ++ Js.Number_toString k))).
  { intros k. rewrite JsFacts.utf8_encode_ascii by apply Hascii.
    rewrite PowFacts.pixel_gateway_count_zeros.
    rewrite PowFacts.gateway_count_zeros_spec by apply PowFacts.digest_bytes. lia. }
  set (text := Pixel.seed now_client rand ++ Js.Number_toString c) in *.
  assert (Hbytes : forallb JsAux.is_byte text = true)
    by (apply PowFacts.ascii_bytes, Hascii).
  assert (Hne : text <> []).
  { unfold text, Pixel.seed. destruct (Js.Number_toString (now_client / 60000)); discriminate. }
  pose proof (JsFacts.btoa_nonempty _ _ Hne Hb) as Htne.
  assert (Htokeq : tok = Js.btoa_bytes text).
  { unfold Js.btoa in Hb.
    change (forallb _ text) with (forallb JsAux.is_byte text) in Hb.
    rewrite Hbytes in Hb. congruence. }
  assert (Hdec : Js.Buffer_from_base64 tok = text).
  { rewrite Htokeq. apply JsFacts.Buffer_from_base64_btoa_bytes, Hbytes. }
  split; [|split; [|split; [|split]]]; try reflexivity.
  - unfold Gateway.checkPow. destruct tok as [|t0 tok']; [congruence|].
    rewrite Hdec, JsFacts.utf8_decode_ascii by apply Hascii.
    unfold text at 1. rewrite PowFacts.minTime_of_token_text. fold text.
    destruct (Z.ltb_spec Gateway.POW_VALID_MS
                (Z.abs (now_server - now_client / 60000 * 60000))); [lia|].
    rewrite <- PowFacts.pixel_gateway_count_zeros.
    apply Z.leb_le. exact Hz.
  - exists c. split; [lia|]. split; [exact Hb|]. split.
    + rewrite <- Hcount. exact Hz.
    + intros k Hk. rewrite <- Hcount. apply Hfirst. lia.
Qed.

(** The token of minute 29370000 with salt 1234567256, whose first counter
    is 2, checked 999 milliseconds into the next minute but one. *)
Lemma makePow_checkPow_agree_witness :
  Pixel.makePow 3 (29370000 * 60000 + 1234) [1; 2; 3; 4; 5; 6; 7; 256]
    = Done (str "MjkzNzAwMDA6MTIzNDU2NzI1Njoy")
  /\ Gateway.checkPow (29370001 * 60000 + 999) (Some (str "MjkzNzAwMDA6MTIzNDU2NzI1Njoy"))
     = true.
Proof.
  split; [vm_compute; reflexivity|].
  apply (makePow_checkPow_agree 3 (29370000 * 60000 + 1234) [1; 2; 3; 4; 5; 6; 7; 256]).
  - vm_compute. reflexivity.
  - vm_compute. discriminate.
Defined.

(** ** The gateway: scenarios *)

Module Scenarios.
Import Gateway Sample.

(** A valid message for order 123, created five seconds before the check,
    is accepted, and one record with amount 1000 is stored. *)
Example accepted_once :
  let '(out, w) := action platform world0 (env (found (clock + 2000 - 5000)) None)
                     (post "order 123, nonce n1") in
  out = Resp (successResponse origin)
  /\ map (fun r => (Db.c_orderId r, Db.c_amount r, Db.c_isProcessed r))
         (Db.yahooConversion (db w)) = [("123"%string, Some 1000, false)].
Proof. vm_compute. split; reflexivity. Qed.

(** The same message again is a duplicate, and stores nothing. *)
Example replay_rejected :
  let '(_, w1) := action platform world0 (env (found (clock + 2000 - 5000)) None)
                    (post "order 123, nonce n1") in
  let '(out, w2) := action platform w1 (env (found (clock + 2000 - 5000)) None)
                      (post "order 123, nonce n1") in
  out = Resp (errorResponse 8 origin)
  /\ length (Db.yahooConversion (db w2)) = 1%nat.
Proof. vm_compute. split; reflexivity. Qed.


End Scenarios.

(** ** The gateway: what the caches and the checks leave of the database *)

Module GatewayFacts.
Import Gateway.

Lemma getAllowOrigin_db (w : World) (env : Env) :
  db (snd (getAllowOrigin w env)) = db w
  /\ sessionCache (snd (getAllowOrigin w env)) = sessionCache w
  /\ privateKeyCache (snd (getAllowOrigin w env)) = privateKeyCache w.
Proof.
  unfold getAllowOrigin.
  destruct (allowOriginCache w) as [[value expires]|];
    repeat case_match; cbn; auto.
Qed.

Lemma getSession_db (w : World) (env : Env) :
  db (snd (getSession w env)) = db w
  /\ privateKeyCache (snd (getSession w env)) = privateKeyCache w.
Proof.
  unfold getSession.
  destruct (sessionCache w) as [[session expires]|];
    repeat case_match; cbn; auto.
Qed.

Lemma getPrivateKey_db (P : Platform) (w : World) (env : Env) (kid : string) :
  db (snd (getPrivateKey P w env kid)) = db w.
Proof. unfold getPrivateKey. repeat case_match; cbn; auto. Qed.

Lemma dedup_transaction_conversions (fault : bool) (d : Db.t) (nonce orderId : string) :
  Db.yahooConversion (snd (dedup_transaction fault d nonce orderId)) = Db.yahooConversion d.
Proof.
  unfold dedup_transaction, Db.pixelNonce_create.
  repeat case_match; simplify_eq; cbn; auto.
Qed.

Lemma dedup_transaction_fresh (fault : bool) (d d' : Db.t) (nonce orderId : string) :
  dedup_transaction fault d nonce orderId = (Done false, d') ->
  (nonce ∉ Db.pixelNonce d)
  /\ Db.yahooConversion_findFirst d orderId = None
  /\ Db.yahooConversion d' = Db.yahooConversion d
  /\ Db.pixelNonce d' = {[ nonce ]} ∪ Db.pixelNonce d.
Proof.
  unfold dedup_transaction, Db.pixelNonce_create. intros H.
  destruct fault; [discriminate|].
  destruct (bool_decide (nonce ∈ Db.pixelNonce d)) eqn:Hn; [discriminate|].
  apply bool_decide_eq_false in Hn.
  injection H as Hf <-. apply bool_decide_eq_false in Hf.
  unfold Db.yahooConversion_findFirst in *. cbn in *.
  split; [exact Hn|]. split; [|split; reflexivity].
  destruct (List.find _ _); [exfalso; apply Hf; eauto | reflexivity].
Qed.

(** The front of [action] changes the table of conversions in no case, and
    a request it lets through has no record of its order at that time. *)
Local Ltac fin H :=
  injection H as <- <-; cbn; split; [congruence | exact I].

Lemma action_front_conversions (P : Platform) (w w' : World) (env : Env)
    (request : Request) (r : Outcome + Accepted) :
  action_front P w env request = (r, w') ->
  Db.yahooConversion (db w') = Db.yahooConversion (db w)
  /\ match r with
     | inr a => Db.yahooConversion_findFirst (db w') (a_orderId a) = None
     | inl _ => True
     end.
Proof.
  unfold action_front, buildCorsHeaders. intros H.
  destruct (getAllowOrigin w env) as [ho w0] eqn:Ho.
  pose proof (getAllowOrigin_db w env) as (Hdb0 & _). rewrite Ho in Hdb0. cbn in Hdb0.
  destruct ho as [hdr| |]; try (fin H).
  destruct (negb (String.eqb (method request) "POST")); [fin H|].
  destruct (negb (checkPow (t_pow env) (x_pow request))); [fin H|].
  destruct (String.eqb (body request) EmptyString); [fin H|].
  destruct (decodeProtectedHeader P (body request)) as [[kid alg]|];
    [|fin H].
  destruct (negb (bool_decide (alg = Some "RSA-OAEP-256"%string)));
    [fin H|].
  destruct (getSession w0 env) as [s w1] eqn:Hs.
  pose proof (getSession_db w0 env) as (Hdb1 & _). rewrite Hs in Hdb1. cbn in Hdb1.
  destruct (getPrivateKey_header P w1 env kid) as [k w2] eqn:Hkey.
  assert (Hk : db w2 = db w1).
  { unfold getPrivateKey_header in Hkey. destruct kid as [kid|].
    - pose proof (getPrivateKey_db P w1 env kid) as Hd. rewrite Hkey in Hd. exact Hd.
    - destruct (privateKeyCache w1 !! "undefined"%string); injection Hkey as _ <-; reflexivity. }
  assert (Hdb2 : Db.yahooConversion (db w2) = Db.yahooConversion (db w)) by congruence.
  destruct s as [[session|]| |], k as [[key|]| |]; try (fin H).
  destruct (compactDecrypt P (body request) key) as [plaintext|];
    [|fin H].
  destruct (parsePayload P plaintext) as [payload|]; [|fin H].
  destruct (yclid payload) as [| |?|?|sy|]; try (fin H).
  destruct (visitedAt payload) as [| |?|?|sv|]; try (fin H).
  destruct (conversionedAt payload) as [| |?|?|sc|]; try (fin H).
  destruct (amount payload) as [| |?|na|?|]; try (fin H).
  destruct (orderId payload) as [| |?|?|so|]; try (fin H).
  destruct (nonce payload) as [| |?|?|sn|]; try (fin H).
  destruct (dedup_transaction _ _ _ _) as [ex d] eqn:Hd.
  pose proof (dedup_transaction_conversions (db_fault env OpDedup) (db w2) sn so) as Hc.
  rewrite Hd in Hc. cbn in Hc.
  destruct ex as [[|]| |]; try (fin H).
  injection H as <- <-. cbn. split; [congruence|].
  apply dedup_transaction_fresh in Hd as (_ & Hnone & Hsame & _).
  unfold Db.yahooConversion_findFirst in *. rewrite Hsame. exact Hnone.
Qed.

Lemma find_none_not_in (l : list Db.YahooConversion) (o : string) :
  List.find (fun r => String.eqb (Db.c_orderId r) o) l = None ->
  ~ In o (map Db.c_orderId l).
Proof.
  induction l as [|r l IH]; cbn; [tauto|].
  destruct (String.eqb_spec (Db.c_orderId r) o); [discriminate|].
  intros H [Heq|Hin]; [congruence | exact (IH H Hin)].
Qed.

(** What the back of [action] does to the table of conversions: nothing,
    or it appends one record, of the order of the request, and succeeds. *)
Lemma action_back_conversions (P : Platform) (w w' : World) (env : Env)
    (a : Accepted) (out : Outcome) :
  action_back P w env a = (out, w') ->
  (Db.yahooConversion (db w') = Db.yahooConversion (db w)
   /\ out <> Resp (successResponse (a_headers a)))
  \/ (exists row, Db.c_orderId row = a_orderId a
      /\ Db.yahooConversion (db w') = Db.yahooConversion (db w) ++ [row]
      /\ out = Resp (successResponse (a_headers a))).
Proof.
  unfold action_back, new_record, Db.yahooConversion_create. intros H.
  repeat case_match; simplify_eq; cbn; try (left; split; [reflexivity|discriminate]).
  right. eexists. split; [|split; reflexivity]. reflexivity.
Qed.

(** Requests handled one after the other never give an order two records. *)
Lemma action_keeps_orders_distinct (P : Platform) (w w' : World) (env : Env)
    (request : Request) (out : Outcome) :
  NoDup (map Db.c_orderId (Db.yahooConversion (db w))) ->
  action P w env request = (out, w') ->
  NoDup (map Db.c_orderId (Db.yahooConversion (db w'))).
Proof.
  intros Hnd H. unfold action in H.
  destruct (action_front P w env request) as [[o|a] w1] eqn:Hf;
    apply action_front_conversions in Hf as [Hsame Hnone].
  - injection H as <- <-. rewrite Hsame. exact Hnd.
  - apply action_back_conversions in H as [[Hb _]|(row & Ho & Hb & _)].
    + rewrite Hb, Hsame. exact Hnd.
    + rewrite Hb, map_app. cbn. rewrite Ho.
      apply NoDup_app. split; [rewrite Hsame; exact Hnd|].
      split; [|apply NoDup_singleton].
      intros x Hx Hx'. apply list_elem_of_singleton in Hx'. subst x.
      apply list_elem_of_In in Hx.
      apply find_none_not_in in Hnone. exact (Hnone Hx).
Qed.

End GatewayFacts.
(** ** The gateway: the answers of the handler *)

Module GatewayAnswers.
Import Gateway GatewayFacts.

Lemma getSession_fst (w w0 : World) (env : Env) :
  db w0 = db w -> sessionCache w0 = sessionCache w ->
  fst (getSession w0 env) = fst (getSession w env).
Proof.
  intros Hd Hs. unfold getSession. rewrite Hd, Hs.
  destruct (sessionCache w) as [[s e]|]; repeat case_match; reflexivity.
Qed.

Lemma getPrivateKey_header_fst (P : Platform) (w w0 : World) (env : Env)
    (kid : option string) :
  db w0 = db w -> privateKeyCache w0 = privateKeyCache w ->
  fst (getPrivateKey_header P w0 env kid) = fst (getPrivateKey_header P w env kid).
Proof.
  intros Hd Hc. unfold getPrivateKey_header, getPrivateKey. rewrite Hd, Hc.
  repeat case_match; reflexivity.
Qed.


Lemma order_present_true (g : GqlRes) :
  order_present g = true <-> exists o, g = {| data := Some {| order := Some o |} |}.
Proof.
  unfold order_present. destruct g as [[[[o|]]|]]; cbn; split;
    try discriminate; try (intros [o' [=]]; fail).
  - intros _. eauto.
  - intros _. reflexivity.
Qed.

(** The order check fails with a code exactly in the case that the code
    numbers. *)
Lemma order_check_failure (env : Env) (code : Z) :
  fst (order_check env) = Some code <-> order_failure env code.
Proof.
  split.
  - unfold order_check, freshness. intros H.
    destruct (lookup1 env) as [g1|] eqn:H1.
    2:{ injection H as <-. apply order_query_rejected. exact H1. }
    destruct (order_present g1) eqn:Hp1; cbn [negb] in H.
    + apply order_present_true in Hp1 as [o ->]. cbn in H.
      destruct (createdAt o) as [created|] eqn:Hc; [|discriminate].
      destruct (Z.ltb_spec (2 * 60000) (t_order env - created)); [|discriminate].
      injection H as <-. eapply order_old; eauto.
    + destruct (lookup2 env) as [g2|] eqn:H2.
      2:{ injection H as <-. eapply order_retry_rejected; eauto. }
      destruct (order_present g2) eqn:Hp2; cbn [negb] in H.
      * assert (Hthrow : match data g1 with
                         | Some d => match order d with Some _ => False | None => True end
                         | None => True
                         end).
        { unfold order_present in Hp1. destruct (data g1) as [[[o|]]|]; cbn in *;
            [discriminate| |]; exact I. }
        destruct (data g1) as [[[o|]]|]; [contradiction| |];
          injection H as <-; eapply order_found_by_retry; eauto.
      * injection H as <-. eapply order_absent; eauto.
  - unfold order_check, freshness.
    intros [g1 g2 H1 Hp1 H2 Hp2|o created H1 Hc Hold|H1|g1 H1 Hp1 H2|g1 g2 H1 Hp1 H2 Hp2];
      rewrite H1; try reflexivity.
    + rewrite Hp1, H2, Hp2. reflexivity.
    + cbn. rewrite Hc. destruct (Z.ltb_spec (2 * 60000) (t_order env - created));
        [reflexivity | lia].
    + rewrite Hp1, H2. reflexivity.
    + rewrite Hp1, H2, Hp2. cbn [negb].
      unfold order_present in Hp1. destruct (data g1) as [[[o|]]|]; cbn in *;
        [discriminate| |]; reflexivity.
Qed.

Lemma order_check_passes (env : Env) :
  fst (order_check env) = None <-> order_passes env.
Proof.
  unfold order_passes. split.
  - unfold order_check, freshness. intros H.
    destruct (lookup1 env) as [g1|] eqn:H1; [|discriminate].
    destruct (order_present g1) eqn:Hp1; cbn [negb] in H.
    + apply order_present_true in Hp1 as [o ->]. exists o. split; [reflexivity|].
      cbn in H. destruct (createdAt o) as [created|]; [|exact I].
      destruct (Z.ltb_spec (2 * 60000) (t_order env - created)); [discriminate|lia].
    + exfalso. destruct (lookup2 env) as [g2|]; [|discriminate].
      destruct (order_present g2); cbn [negb] in H; [|discriminate].
      unfold order_present in Hp1. destruct (data g1) as [[[o|]]|]; cbn in *;
        discriminate.
  - intros (o & H1 & Hfresh). unfold order_check, freshness. rewrite H1. cbn.
    destruct (createdAt o) as [created|]; [|reflexivity].
    destruct (Z.ltb_spec (2 * 60000) (t_order env - created)); [lia|reflexivity].
Qed.

Lemma shape_mismatch (p : Payload) :
  match yclid p, visitedAt p, conversionedAt p, amount p, orderId p, nonce p with
  | JStr _, JStr _, JStr _, JNum _, JStr _, JStr _ => True
  | _, _, _, _, _, _ => ~ well_shaped p
  end.
Proof.
  destruct (yclid p) eqn:?, (visitedAt p) eqn:?, (conversionedAt p) eqn:?,
    (amount p) eqn:?, (orderId p) eqn:?, (nonce p) eqn:?;
    try exact I; intros (? & ? & ? & ? & ? & ? & ? & ? & ? & ? & ? & ?); congruence.
Qed.

Lemma dedup_transaction_duplicate (fault : bool) (d d' : Db.t) (n o : string) :
  dedup_transaction fault d n o = (Done true, d') ->
  fault = false
  /\ (n ∈ Db.pixelNonce d \/ is_Some (Db.yahooConversion_findFirst d o)).
Proof.
  unfold dedup_transaction, Db.pixelNonce_create. intros H.
  destruct fault; [discriminate|]. split; [reflexivity|].
  destruct (bool_decide (n ∈ Db.pixelNonce d)) eqn:Hn.
  - left. apply bool_decide_eq_true in Hn. exact Hn.
  - right. injection H as H _. apply bool_decide_eq_true in H. exact H.
Qed.

(** The handler up to the resolution of the session and of the key, on a
    request that passes the checks of its header: what follows, by what the
    two resolve to. *)
Lemma action_front_resolved (P : Platform) (w w0 : World) (env : Env)
    (request : Request) (h : string) (kid : option string) :
  buildCorsHeaders w env = (Done h, w0) ->
  passes_header P env request kid ->
  exists w2,
    db w2 = db w
    /\ action_front P w env request
       = match fst (getSession w env), fst (getPrivateKey_header P w env kid) with
         | Done None, Done _ => (inl (Resp (errorResponse 5 h)), w2)
         | Done (Some _), Done None => (inl (Resp (errorResponse 6 h)), w2)
         | Done (Some session), Done (Some key) =>
             match compactDecrypt P (body request) key with
             | None => (inl (Resp (internalErrorResponse h)), w2)
             | Some plaintext =>
                 match parsePayload P plaintext with
                 | None => (inl (Resp (internalErrorResponse h)), w2)
                 | Some payload =>
                     match yclid payload, visitedAt payload,
                           conversionedAt payload, amount payload,
                           orderId payload, nonce payload with
                     | JStr yclid, JStr visitedAt, JStr conversionedAt,
                       JNum amount, JStr orderId, JStr nonce =>
                         match dedup_transaction (db_fault env OpDedup)
                                 (db w2) nonce orderId with
                         | (Done existing, d) =>
                             if existing
                             then (inl (Resp (errorResponse 8 h)), set_db w2 d)
                             else (inr {| a_headers := h;
                                          a_session := session;
                                          a_yclid := yclid;
                                          a_visitedAt := visitedAt;
                                          a_conversionedAt := conversionedAt;
                                          a_amount := amount;
                                          a_orderId := orderId |}, set_db w2 d)
                         | (_, d) =>
                             (inl (Resp (internalErrorResponse h)), set_db w2 d)
                         end
                     | _, _, _, _, _, _ =>
                         (inl (Resp (errorResponse 7 h)), w2)
                     end
                 end
             end
         | _, _ => (inl (Resp (internalErrorResponse h)), w2)
         end.
Proof.
  intros Hcors (Hm & Hpow & Hb & Hhdr).
  pose proof (getAllowOrigin_db w env) as (Hdb0 & Hsc0 & Hkc0).
  unfold buildCorsHeaders in Hcors. rewrite Hcors in Hdb0, Hsc0, Hkc0.
  cbn in Hdb0, Hsc0, Hkc0.
  unfold action_front, buildCorsHeaders. rewrite Hcors, Hm, Hpow. cbn [String.eqb negb].
  rewrite !Ascii.eqb_refl. cbn [negb].
  apply String.eqb_neq in Hb. rewrite Hb, Hhdr. unfold RSA_OAEP_256.
  rewrite bool_decide_eq_true_2 by reflexivity. cbn [negb].
  destruct (getSession w0 env) as [s w1] eqn:Hs.
  pose proof (getSession_db w0 env) as (Hdb1 & Hkc1). rewrite Hs in Hdb1, Hkc1.
  cbn in Hdb1, Hkc1.
  rewrite <- (getSession_fst w w0 env Hdb0 Hsc0), Hs. cbn [fst].
  destruct (getPrivateKey_header P w1 env kid) as [k w2] eqn:Hkey.
  rewrite <- (getPrivateKey_header_fst P w w1 env kid), Hkey by congruence. cbn [fst].
  exists w2. split; [|reflexivity].
  transitivity (db w1); [|congruence].
  unfold getPrivateKey_header in Hkey. destruct kid as [kid|].
  - pose proof (getPrivateKey_db P w1 env kid) as Hd. rewrite Hkey in Hd. exact Hd.
  - destruct (privateKeyCache w1 !! "undefined"%string); injection Hkey as _ <-; reflexivity.
Qed.

(** The answers of the front of [action]: with their codes, the first eight
    checks. *)
Lemma action_front_answers (P : Platform) (w w' : World) (env : Env)
    (request : Request) (out : Outcome) :
  action_front P w env request = (inl out, w') ->
  out = Uncaught
  \/ exists h,
       out = Resp (internalErrorResponse h)
       \/ exists code, 1 <= code <= 8 /\ out = Resp (errorResponse code h)
                       /\ failing_check P w env request code.
Proof.
  intros H.
  destruct (buildCorsHeaders w env) as [ho w0] eqn:Hcors.
  destruct ho as [h| |];
    try (unfold action_front in H; rewrite Hcors in H; injection H as <- _;
         left; reflexivity).
  right. exists h.
  destruct (String.eqb_spec (method request) "POST") as [Hm|Hm].
  2:{ unfold action_front in H. rewrite Hcors in H.
      apply String.eqb_neq in Hm. rewrite Hm in H. cbn [negb] in H.
      injection H as <- _. right. exists 1. repeat split; try lia.
      constructor. apply String.eqb_neq, Hm. }
  destruct (checkPow (t_pow env) (x_pow request)) eqn:Hpow.
  2:{ unfold action_front in H. rewrite Hcors, Hm, Hpow in H. cbn in H.
      injection H as <- _. right. exists 2. repeat split; try lia.
      apply check_pow; assumption. }
  destruct (String.eqb_spec (body request) EmptyString) as [Hb|Hb].
  { unfold action_front in H. rewrite Hcors, Hm, Hpow, Hb in H. cbn in H.
    injection H as <- _. right. exists 3. repeat split; try lia.
    apply check_body; assumption. }
  destruct (decodeProtectedHeader P (body request)) as [[kid alg]|] eqn:Hhdr.
  2:{ unfold action_front in H. rewrite Hcors, Hm, Hpow in H. cbn [String.eqb negb] in H.
      rewrite !Ascii.eqb_refl in H. cbn [negb] in H.
      apply String.eqb_neq in Hb. rewrite Hb, Hhdr in H.
      injection H as <- _. left. reflexivity. }
  destruct (decide (alg = RSA_OAEP_256)) as [->|Halg].
  2:{ unfold action_front in H. rewrite Hcors, Hm, Hpow in H. cbn [String.eqb negb] in H.
      rewrite !Ascii.eqb_refl in H. cbn [negb] in H.
      pose proof Hb as Hb'. apply String.eqb_neq in Hb'. rewrite Hb', Hhdr in H.
      rewrite bool_decide_eq_false_2 in H by exact Halg. cbn [negb] in H.
      injection H as <- _. right. exists 4. repeat split; try lia.
      eapply check_algorithm; eauto. }
  assert (Hhead : passes_header P env request kid) by (repeat split; assumption).
  destruct (action_front_resolved P w w0 env request h kid Hcors Hhead) as (w2 & Hdb2 & Heq).
  rewrite Heq in H. clear Heq.
  destruct (fst (getSession w env)) as [[session|]| |] eqn:Hs,
    (fst (getPrivateKey_header P w env kid)) as [[key|]| |] eqn:Hk;
    try (injection H as <- _; left; reflexivity);
    try (injection H as <- _; right; exists 5; repeat split; try lia;
         eapply check_session; eauto; fail);
    try (injection H as <- _; right; exists 6; repeat split; try lia;
         eapply check_key; eauto; fail).
  destruct (compactDecrypt P (body request) key) as [plaintext|] eqn:Hdec.
  2:{ injection H as <- _. left. reflexivity. }
  destruct (parsePayload P plaintext) as [payload|] eqn:Hparse.
  2:{ injection H as <- _. left. reflexivity. }
  assert (Hdecr : passes_decryption P w env request payload).
  { exists kid, session, key, plaintext. repeat split; try assumption; apply Hhead. }
  pose proof (shape_mismatch payload) as Hshape.
  destruct (yclid payload) as [| |?|?|sy|] eqn:Hy';
    try (injection H as <- _; right; exists 7; repeat split; try lia;
         eapply check_shape; eauto; fail).
  destruct (visitedAt payload) as [| |?|?|sv|] eqn:Hv';
    try (injection H as <- _; right; exists 7; repeat split; try lia;
         eapply check_shape; eauto; fail).
  destruct (conversionedAt payload) as [| |?|?|sc|] eqn:Hc';
    try (injection H as <- _; right; exists 7; repeat split; try lia;
         eapply check_shape; eauto; fail).
  destruct (amount payload) as [| |?|na|?|] eqn:Ha';
    try (injection H as <- _; right; exists 7; repeat split; try lia;
         eapply check_shape; eauto; fail).
  destruct (orderId payload) as [| |?|?|so|] eqn:Ho';
    try (injection H as <- _; right; exists 7; repeat split; try lia;
         eapply check_shape; eauto; fail).
  destruct (nonce payload) as [| |?|?|sn|] eqn:Hn';
    try (injection H as <- _; right; exists 7; repeat split; try lia;
         eapply check_shape; eauto; fail).
  destruct (dedup_transaction _ _ _ _) as [ex d] eqn:Hd.
  destruct ex as [[|]| |]; try discriminate;
    try (injection H as <- _; left; reflexivity).
  injection H as <- _. right. exists 8. repeat split; try lia.
  apply dedup_transaction_duplicate in Hd as [Hfault Hd]. rewrite Hdb2 in Hd.
  eapply check_duplicate; eauto.
Qed.

(** A request that the front of [action] lets through passed the first
    eight checks; the table of conversions is as it was. *)
Lemma action_front_passes (P : Platform) (w w' : World) (env : Env)
    (request : Request) (a : Accepted) :
  action_front P w env request = (inr a, w') ->
  passes_duplicates P w env request (a_yclid a) (a_visitedAt a) (a_conversionedAt a)
    (a_amount a) (a_orderId a)
  /\ Db.yahooConversion (db w') = Db.yahooConversion (db w).
Proof.
  intros H.
  pose proof (action_front_conversions _ _ _ _ _ _ H) as [Hsame _].
  split; [|exact Hsame].
  destruct (buildCorsHeaders w env) as [ho w0] eqn:Hcors.
  destruct ho as [h| |];
    try (unfold action_front in H; rewrite Hcors in H; discriminate).
  destruct (String.eqb_spec (method request) "POST") as [Hm|Hm].
  2:{ unfold action_front in H. rewrite Hcors in H.
      apply String.eqb_neq in Hm. rewrite Hm in H. discriminate. }
  destruct (checkPow (t_pow env) (x_pow request)) eqn:Hpow.
  2:{ unfold action_front in H. rewrite Hcors, Hm, Hpow in H. discriminate. }
  destruct (String.eqb_spec (body request) EmptyString) as [Hb|Hb].
  { unfold action_front in H. rewrite Hcors, Hm, Hpow, Hb in H. discriminate. }
  destruct (decodeProtectedHeader P (body request)) as [[kid alg]|] eqn:Hhdr.
  2:{ unfold action_front in H. rewrite Hcors, Hm, Hpow in H. cbn [String.eqb negb] in H.
      rewrite !Ascii.eqb_refl in H. cbn [negb] in H.
      apply String.eqb_neq in Hb. rewrite Hb, Hhdr in H. discriminate. }
  destruct (decide (alg = RSA_OAEP_256)) as [->|Halg].
  2:{ unfold action_front in H. rewrite Hcors, Hm, Hpow in H. cbn [String.eqb negb] in H.
      rewrite !Ascii.eqb_refl in H. cbn [negb] in H.
      pose proof Hb as Hb'. apply String.eqb_neq in Hb'. rewrite Hb', Hhdr in H.
      rewrite bool_decide_eq_false_2 in H by exact Halg. discriminate. }
  assert (Hhead : passes_header P env request kid) by (repeat split; assumption).
  destruct (action_front_resolved P w w0 env request h kid Hcors Hhead) as (w2 & Hdb2 & Heq).
  rewrite Heq in H. clear Heq.
  destruct (fst (getSession w env)) as [[session|]| |] eqn:Hs,
    (fst (getPrivateKey_header P w env kid)) as [[key|]| |] eqn:Hk; try discriminate.
  destruct (compactDecrypt P (body request) key) as [plaintext|] eqn:Hdec; [|discriminate].
  destruct (parsePayload P plaintext) as [payload|] eqn:Hparse; [|discriminate].
  destruct (yclid payload) as [| |?|?|sy|] eqn:Hy'; try discriminate.
  destruct (visitedAt payload) as [| |?|?|sv|] eqn:Hv'; try discriminate.
  destruct (conversionedAt payload) as [| |?|?|sc|] eqn:Hc'; try discriminate.
  destruct (amount payload) as [| |?|na|?|] eqn:Ha'; try discriminate.
  destruct (orderId payload) as [| |?|?|so|] eqn:Ho'; try discriminate.
  destruct (nonce payload) as [| |?|?|sn|] eqn:Hn'; try discriminate.
  destruct (dedup_transaction _ _ _ _) as [ex d] eqn:Hd.
  destruct ex as [[|]| |]; try discriminate.
  injection H as <- _. cbn.
  rewrite Hdb2 in Hd.
  assert (Hfault : db_fault env OpDedup = false).
  { unfold dedup_transaction in Hd. destruct (db_fault env OpDedup); [discriminate|reflexivity]. }
  destruct (dedup_transaction_fresh _ _ _ _ _ Hd) as (Hfresh & Hnone & _).
  exists payload, sn. repeat split; try assumption.
  exists kid, session, key, plaintext. repeat split; try assumption; apply Hhead.
Qed.

(** The answers of the back of [action]. *)
Lemma action_back_answers (P : Platform) (w w' : World) (env : Env)
    (a : Accepted) (out : Outcome) :
  action_back P w env a = (out, w') ->
  out = Resp (successResponse (a_headers a))
  \/ (exists code, fst (order_check env) = Some code
                   /\ out = Resp (errorResponse code (a_headers a)))
  \/ (fst (order_check env) = None
      /\ out = Resp (errorResponse 12 (a_headers a))
      /\ (db_fault env OpCreate = true
          \/ Date_parse P (a_visitedAt a) = None
          \/ Date_parse P (a_conversionedAt a) = None
          \/ In (a_yclid a) (map Db.c_yclid (Db.yahooConversion (db w))))).
Proof.
  unfold action_back, new_record, Db.yahooConversion_create. intros H.
  destruct (fst (order_check env)) as [code|] eqn:Hoc.
  { injection H as <- _. right. left. eauto. }
  destruct (db_fault env OpCreate) eqn:Hf.
  { injection H as <- _. right. right. auto. }
  destruct (Date_parse P (a_visitedAt a)) as [v|] eqn:Hv.
  2:{ injection H as <- _. right. right. auto. }
  destruct (Date_parse P (a_conversionedAt a)) as [c|] eqn:Hc.
  2:{ injection H as <- _. right. right. auto 6. }
  cbn [Db.c_yclid] in H.
  destruct (existsb _ _) eqn:Hex.
  - injection H as <- _. right. right. repeat split; auto.
    right. right. right. apply existsb_exists in Hex as (r & Hr & He).
    apply String.eqb_eq in He. rewrite <- He. apply in_map, Hr.
  - injection H as <- _. left. reflexivity.
Qed.

(** Conversely: a check that fails after the checks before it passed gives
    the answer with its code. *)
Lemma failing_check_answer (P : Platform) (w w0 : World) (env : Env)
    (request : Request) (h : string) (code : Z) :
  buildCorsHeaders w env = (Done h, w0) ->
  failing_check P w env request code ->
  fst (action P w env request) = Resp (errorResponse code h).
Proof.
  intros Hcors Hchk.
  assert (Hshaped : forall payload y v c a o n,
    yclid payload = JStr y -> visitedAt payload = JStr v ->
    conversionedAt payload = JStr c -> amount payload = JNum a ->
    orderId payload = JStr o -> nonce payload = JStr n -> well_shaped payload).
  { intros. unfold well_shaped. eauto 12. }
  destruct Hchk as [Hm|Hm Hpow|Hm Hpow Hb|kid alg Hm Hpow Hb Hhdr Halg
                   |kid key Hhead Hs Hk|kid session Hhead Hs Hk
                   |payload (kid & session & key & plaintext & Hhead & Hs & Hk & Hdec & Hparse) Hshape
                   |payload y v c a o n
                      (kid & session & key & plaintext & Hhead & Hs & Hk & Hdec & Hparse)
                      Hy Hv Hc Ha Ho Hn Hfault Hdup
                   |y v c a o code
                      (payload & n & (kid & session & key & plaintext & Hhead & Hs & Hk & Hdec & Hparse)
                       & Hy & Hv & Hc & Ha & Ho & Hn & Hfault & Hfresh & Hnone) Hord
                   |y v c a o
                      (payload & n & (kid & session & key & plaintext & Hhead & Hs & Hk & Hdec & Hparse)
                       & Hy & Hv & Hc & Ha & Ho & Hn & Hfault & Hfresh & Hnone) Hpass Hins].
  - unfold action, action_front. rewrite Hcors.
    apply String.eqb_neq in Hm. rewrite Hm. reflexivity.
  - unfold action, action_front. rewrite Hcors, Hm, Hpow. reflexivity.
  - unfold action, action_front. rewrite Hcors, Hm, Hpow, Hb. reflexivity.
  - unfold action, action_front. rewrite Hcors, Hm, Hpow. cbn [String.eqb negb].
    rewrite !Ascii.eqb_refl. cbn [negb].
    apply String.eqb_neq in Hb. rewrite Hb, Hhdr.
    rewrite bool_decide_eq_false_2 by exact Halg. reflexivity.
  - destruct (action_front_resolved P w w0 env request h kid Hcors Hhead) as (w2 & _ & Heq).
    unfold action. rewrite Heq, Hs, Hk. reflexivity.
  - destruct (action_front_resolved P w w0 env request h kid Hcors Hhead) as (w2 & _ & Heq).
    unfold action. rewrite Heq, Hs, Hk. reflexivity.
  - destruct (action_front_resolved P w w0 env request h kid Hcors Hhead) as (w2 & _ & Heq).
    unfold action. rewrite Heq, Hs, Hk, Hdec, Hparse.
    pose proof (Hshaped payload) as Hsh.
    destruct (yclid payload); try reflexivity.
    destruct (visitedAt payload); try reflexivity.
    destruct (conversionedAt payload); try reflexivity.
    destruct (amount payload); try reflexivity.
    destruct (orderId payload); try reflexivity.
    destruct (nonce payload); try reflexivity.
    exfalso. apply Hshape. eapply Hsh; reflexivity.
  - destruct (action_front_resolved P w w0 env request h kid Hcors Hhead) as (w2 & Hdb2 & Heq).
    unfold action. rewrite Heq, Hs, Hk, Hdec, Hparse, Hy, Hv, Hc, Ha, Ho, Hn, Hfault.
    unfold dedup_transaction, Db.pixelNonce_create. rewrite Hdb2.
    destruct (bool_decide (n ∈ Db.pixelNonce (db w))) eqn:Hin; [reflexivity|].
    apply bool_decide_eq_false in Hin. destruct Hdup as [Hdup|Hdup]; [contradiction|].
    rewrite bool_decide_eq_true_2; [reflexivity|]. exact Hdup.
  - destruct (action_front_resolved P w w0 env request h kid Hcors Hhead) as (w2 & Hdb2 & Heq).
    unfold action. rewrite Heq, Hs, Hk, Hdec, Hparse, Hy, Hv, Hc, Ha, Ho, Hn, Hfault.
    unfold dedup_transaction, Db.pixelNonce_create. rewrite Hdb2.
    rewrite bool_decide_eq_false_2 by exact Hfresh.
    rewrite bool_decide_eq_false_2.
    2:{ change (Db.yahooConversion_findFirst (Db.set_pixelNonce (db w) ?s) o)
          with (Db.yahooConversion_findFirst (db w) o).
        rewrite Hnone. intros [x Hx]. discriminate. }
    apply order_check_failure in Hord.
    unfold action_back. rewrite Hord. reflexivity.
  - destruct (action_front_resolved P w w0 env request h kid Hcors Hhead) as (w2 & Hdb2 & Heq).
    unfold action. rewrite Heq, Hs, Hk, Hdec, Hparse, Hy, Hv, Hc, Ha, Ho, Hn, Hfault.
    unfold dedup_transaction, Db.pixelNonce_create. rewrite Hdb2.
    rewrite bool_decide_eq_false_2 by exact Hfresh.
    rewrite bool_decide_eq_false_2.
    2:{ change (Db.yahooConversion_findFirst (Db.set_pixelNonce (db w) ?s) o)
          with (Db.yahooConversion_findFirst (db w) o).
        rewrite Hnone. intros [x Hx]. discriminate. }
    apply order_check_passes in Hpass.
    unfold action_back, new_record, Db.yahooConversion_create. rewrite Hpass.
    cbn [a_headers a_visitedAt a_conversionedAt a_yclid a_amount a_orderId db set_db
         Db.yahooConversion Db.set_pixelNonce].
    destruct (db_fault env OpCreate); [reflexivity|].
    destruct (Date_parse P v) as [tv|]; [|reflexivity].
    destruct (Date_parse P c) as [tc|]; [|reflexivity].
    destruct Hins as [Hins|[Hins|[Hins|Hins]]]; try discriminate.
    cbn [Db.c_yclid].
    assert (Hex : existsb (fun r => String.eqb (Db.c_yclid r) y)
                    (Db.yahooConversion (db w)) = true).
    { apply in_map_iff in Hins as (r & Hr & Hin). apply existsb_exists.
      exists r. split; [exact Hin|]. rewrite Hr. apply String.eqb_refl. }
    rewrite Hex. reflexivity.
Qed.






End GatewayAnswers.



(** A token is refused at any time more than [POW_VALID_MS] away from the
    minute it embeds, whatever its digest. *)
Lemma checkPow_outside_window (now : Z) (b64 : jsstr) (minute : Z) :
  Js.parseInt10 (Js.before_colon (Js.utf8_decode (Js.Buffer_from_base64 b64)))
    = Some minute ->
  Gateway.POW_VALID_MS < Z.abs (now - minute * 60000) ->
  Gateway.checkPow now (Some b64) = false.
Proof.
  intros Hparse Hwin. unfold Gateway.checkPow.
  destruct b64 as [|c b64]; [reflexivity|].
  unfold Gateway.minTime_of. rewrite Hparse. cbn [fmap option_fmap option_map].
  destruct (Z.ltb_spec Gateway.POW_VALID_MS (Z.abs (now - minute * 60000)));
    [reflexivity | lia].
Qed.

(** C8. A POST request whose token embeds a minute more than two minutes
    before the time of the check is rejected with code 2, whatever the digest
    of the token. *)
Theorem stale_pow_rejected
    (P : Gateway.Platform) (w w1 : Gateway.World) (env : Gateway.Env)
    (request : Gateway.Request) (b64 : jsstr) (minute : Z) (h : string) :
  Gateway.method request = "POST"%string ->
  Gateway.x_pow request = Some b64 ->
  Gateway.buildCorsHeaders w env = (Done h, w1) ->
  Js.parseInt10 (Js.before_colon (Js.utf8_decode (Js.Buffer_from_base64 b64)))
    = Some minute ->
  2 * 60000 < Gateway.t_pow env - minute * 60000 ->
  Gateway.action P w env request = (Gateway.Resp (Gateway.errorResponse 2 h), w1).
Proof.
  intros Hm Hx Hh Hparse Hold.
  unfold Gateway.action, Gateway.action_front. rewrite Hh, Hm, Hx.
  rewrite (checkPow_outside_window _ _ minute Hparse)
    by (unfold Gateway.POW_VALID_MS; lia).
  reflexivity.
Qed.

(** The token of the samples meets the difficulty, and is three minutes old
    at the time of the check: the request is rejected with code 2. *)
Lemma stale_pow_rejected_witness :
  10 <= leading_zero_bits (Sha256.digest (Js.Buffer_from_base64 Sample.token))
  /\ Gateway.action Sample.platform Sample.world0
       {| Gateway.t_cors := Sample.clock; Gateway.t_pow := (Sample.minute + 3) * 60000;
          Gateway.t_session := Sample.clock; Gateway.t_order := Sample.clock;
          Gateway.db_fault := fun _ => false;
          Gateway.lookup1 := None; Gateway.lookup2 := None |}
       (Sample.post "order 123, nonce n1")
     = (Gateway.Resp (Gateway.errorResponse 2 Sample.origin),
        Gateway.set_allowOriginCache Sample.world0
          (Some (Sample.origin, Sample.clock + Gateway.ALLOW_ORIGIN_TTL_MS))).
Proof.
  split; [vm_compute; discriminate|].
  apply (stale_pow_rejected _ _ _ _ _ Sample.token Sample.minute).
  - reflexivity.
  - reflexivity.
  - reflexivity.
  - vm_compute. reflexivity.
  - vm_compute. reflexivity.
Defined.

(** C3, on the code: when the first query finds no order and the second
    finds it, the handler queries twice, then rejects with code 11 and
    stores nothing, however recent the order. *)
Theorem order_found_on_retry_rejected
    (P : Gateway.Platform) (w : Gateway.World) (a : Gateway.Accepted)
    (tc tp ts now : Z) (fault : Gateway.DbOp -> bool) (o : Gateway.Order) :
  let env :=
    {| Gateway.t_cors := tc; Gateway.t_pow := tp; Gateway.t_session := ts;
       Gateway.t_order := now; Gateway.db_fault := fault;
       Gateway.lookup1 := Some {| Gateway.data := Some {| Gateway.order := None |} |};
       Gateway.lookup2 := Some {| Gateway.data := Some {| Gateway.order := Some o |} |} |} in
  Gateway.order_check env
    = (Some 11, [Gateway.EvSleep 1000; Gateway.EvOrderQuery; Gateway.EvOrderQuery])
  /\ Gateway.action_back P w env a
     = (Gateway.Resp (Gateway.errorResponse 11 (Gateway.a_headers a)), w).
Proof. cbn. split; reflexivity. Qed.

(** The same through the whole handler: a valid message for an order
    created five seconds before the check, found by the second query. *)
Example order_found_on_retry_scenario :
  let env := Sample.env Sample.absent (Sample.found (Sample.clock + 2000 - 5000)) in
  let '(out, w) := Gateway.action Sample.platform Sample.world0 env
                     (Sample.post "order 123, nonce n1") in
  out = Gateway.Resp (Gateway.errorResponse 11 Sample.origin)
  /\ Db.yahooConversion (Gateway.db w) = [].
Proof. vm_compute. split; reflexivity. Qed.

(** C1, on the code: two messages for order 123, the second starting
    before the first has stored its record.  With different nonces and
    different click identifiers both are accepted and the order has two
    records; with different nonces and the same click identifier the second
    is refused by the primary key, with code 12 and not as a duplicate.
    With the same nonce, or handled one after the other, the second is the
    duplicate of code 8. *)
Theorem concurrent_duplicates
  : let e := Sample.env (Sample.found (Sample.clock + 2000 - 5000)) None in
    let m1 := Gateway.TStart e (Sample.post "order 123, nonce n1") in
    let m2 := Gateway.TStart e (Sample.post "order 123, nonce n2") in
    let m3 := Gateway.TStart e (Sample.post "order 123, nonce n3, other click") in
    let ok := Gateway.TDone (Gateway.Resp (Gateway.successResponse Sample.origin)) in
    let rejected code :=
      Gateway.TDone (Gateway.Resp (Gateway.errorResponse code Sample.origin)) in
    let orders w := map Db.c_orderId (Db.yahooConversion (Gateway.db w)) in
    (let '(threads, w) :=
       Gateway.run_schedule Sample.platform [0; 1; 0; 1]%nat Sample.world0 [m1; m3] in
     threads = [ok; ok] /\ orders w = ["123"; "123"]%string)
    /\ (let '(threads, w) :=
          Gateway.run_schedule Sample.platform [0; 1; 0; 1]%nat Sample.world0 [m1; m2] in
        threads = [ok; rejected 12] /\ orders w = ["123"%string])
    /\ (let '(threads, w) :=
          Gateway.run_schedule Sample.platform [0; 1; 0; 1]%nat Sample.world0 [m1; m1] in
        threads = [ok; rejected 8] /\ orders w = ["123"%string])
    /\ (let '(threads, w) :=
          Gateway.run_schedule Sample.platform [0; 0; 1; 1]%nat Sample.world0 [m1; m3] in
        threads = [ok; rejected 8] /\ orders w = ["123"%string]).
Proof. vm_compute. repeat split; reflexivity. Qed.

(** ** Key rotation *)

Module KeyFacts.
Import KeyRotation.


Lemma insert_desc_In (r x : Db.ApiKeyPair) (l : list Db.ApiKeyPair) :
  In x (Db.insert_desc r l) <-> x = r \/ In x l.
Proof.
  induction l as [|y l IH]; cbn.
  - intuition congruence.
  - destruct (Db.k_createdAt y <=? Db.k_createdAt r); cbn; [intuition congruence|].
    rewrite IH. intuition congruence.
Qed.

Lemma sort_desc_In (x : Db.ApiKeyPair) (l : list Db.ApiKeyPair) :
  In x (Db.sort_desc l) <-> In x l.
Proof.
  unfold Db.sort_desc. induction l as [|y l IH]; cbn; [tauto|].
  rewrite insert_desc_In, IH. intuition congruence.
Qed.




Lemma mem_string_In (s : string) (l : list string) :
  Db.mem_string s l = true <-> In s l.
Proof.
  unfold Db.mem_string. rewrite existsb_exists. split.
  - intros (x & Hx & Heq). apply String.eqb_eq in Heq. subst. exact Hx.
  - intros H. exists s. split; [exact H | apply String.eqb_refl].
Qed.

Lemma findUnique_Some (d : Db.t) (kid : string) (r : Db.ApiKeyPair) :
  Db.apiKeyPair_findUnique d kid = Some r -> In r (Db.apiKeyPair d) /\ Db.k_kid r = kid.
Proof.
  unfold Db.apiKeyPair_findUnique. intros H. apply find_some in H as [Hin Heq].
  apply String.eqb_eq in Heq. auto.
Qed.

Lemma findUnique_None (d : Db.t) (kid : string) :
  Db.apiKeyPair_findUnique d kid = None -> ~ In kid (map Db.k_kid (Db.apiKeyPair d)).
Proof.
  unfold Db.apiKeyPair_findUnique. intros H Hin.
  apply in_map_iff in Hin as (r & Hk & Hr).
  pose proof (find_none _ _ H r Hr) as Hf. cbn in Hf.
  rewrite Hk, String.eqb_refl in Hf. discriminate.
Qed.

(** With distinct identifiers, the query by identifier finds the record. *)
Lemma findUnique_In (l : list Db.ApiKeyPair) (r : Db.ApiKeyPair) :
  NoDup (map Db.k_kid l) -> In r l ->
  List.find (fun x => String.eqb (Db.k_kid x) (Db.k_kid r)) l = Some r.
Proof.
  induction l as [|x l IH]; intros Hnd Hin; [contradiction|].
  cbn in Hnd. apply NoDup_cons in Hnd as [Hx Hnd]. cbn.
  destruct Hin as [->|Hin]; [rewrite String.eqb_refl; reflexivity|].
  destruct (String.eqb_spec (Db.k_kid x) (Db.k_kid r)) as [Heq|_]; [|exact (IH Hnd Hin)].
  exfalso. apply Hx. rewrite Heq. apply list_elem_of_In, in_map, Hin.
Qed.

Lemma kid_injective (l : list Db.ApiKeyPair) (x y : Db.ApiKeyPair) :
  NoDup (map Db.k_kid l) -> In x l -> In y l -> Db.k_kid x = Db.k_kid y -> x = y.
Proof.
  intros Hnd Hx Hy Heq.
  pose proof (findUnique_In l x Hnd Hx) as H1.
  pose proof (findUnique_In l y Hnd Hy) as H2.
  rewrite Heq in H1. congruence.
Qed.

Lemma NoDup_map_filter (f : Db.ApiKeyPair -> bool) (l : list Db.ApiKeyPair) :
  NoDup (map Db.k_kid l) -> NoDup (map Db.k_kid (List.filter f l)).
Proof.
  induction l as [|x l IH]; cbn; intros Hnd; [constructor|].
  apply NoDup_cons in Hnd as [Hx Hnd]. destruct (f x); cbn; [|exact (IH Hnd)].
  apply NoDup_cons. split; [|exact (IH Hnd)].
  intros Hin. apply Hx. apply list_elem_of_In in Hin. apply list_elem_of_In.
  apply in_map_iff in Hin as (y & Hk & Hy). apply filter_In in Hy as [Hy _].
  rewrite <- Hk. apply in_map, Hy.
Qed.

(** What the first two statements of [generatePublicKey] leave in the
    table: the latest [n] of the old rows and the new one. *)
Lemma kept_is_latest (n : nat) (l : list Db.ApiKeyPair) (r : Db.ApiKeyPair) :
  NoDup (map Db.k_kid l) ->
  In r (List.filter
          (fun x => Db.mem_string (Db.k_kid x) (map Db.k_kid (firstn n (Db.sort_desc l)))) l)
  <-> In r (firstn n (Db.sort_desc l)).
Proof.
  intros Hnd. rewrite filter_In, mem_string_In. split.
  - intros [Hr Hk]. apply in_map_iff in Hk as (x & Hk & Hx).
    assert (Hxl : In x l).
    { apply sort_desc_In. rewrite <- (firstn_skipn n (Db.sort_desc l)).
      apply in_or_app. left. exact Hx. }
    rewrite (kid_injective l r x Hnd Hr Hxl); [exact Hx | congruence].
  - intros Hr. split; [|apply in_map, Hr].
    apply sort_desc_In. rewrite <- (firstn_skipn n (Db.sort_desc l)).
    apply in_or_app. left. exact Hr.
Qed.

(** A rotation that returns [true] leaves in the table exactly what the
    insertion and the purge leave. *)
Lemma generatePublicKey_true (w w' : World) (env : Env) :
  generatePublicKey w env = (true, w') ->
  let new := {| Db.k_kid := kid env; Db.k_publicKey := jwk env;
                Db.k_privateKey := pkcs8 env; Db.k_createdAt := now env |} in
  let all := Db.apiKeyPair (db w) ++ [new] in
  Db.apiKeyPair_findUnique (db w) (kid env) = None
  /\ Db.apiKeyPair (db w')
     = List.filter
         (fun x => Db.mem_string (Db.k_kid x) (map Db.k_kid (firstn 3 (Db.sort_desc all))))
         all.
Proof.
  unfold generatePublicKey, Db.apiKeyPair_create. cbn [Db.k_kid]. intros H.
  destruct (db_fault env CallCreate); [discriminate|].
  destruct (Db.apiKeyPair_findUnique (db w) (kid env)) eqn:Hfu; [discriminate|].
  split; [reflexivity|].
  destruct (db_fault env CallFindMany || db_fault env CallDeleteMany); [discriminate|].
  destruct (db_fault env CallSessionFindFirst); [discriminate|].
  destruct (Db.session_findFirst _); [|discriminate].
  destruct (pixelRes env) as [[pixelId|]|]; try discriminate.
  destruct (pixelUpdateRes env) as [[|[|e errs]]|]; try discriminate;
    try (destruct (db_fault env CallDelete); [discriminate|];
         destruct (Db.apiKeyPair_delete _ _); discriminate);
    injection H as <-; reflexivity.
Qed.

(** With the clock ahead of the stored keys, the new key sorts first. *)
Lemma sort_desc_new_first (new : Db.ApiKeyPair) (old : list Db.ApiKeyPair) :
  (forall k, In k old -> Db.k_createdAt k < Db.k_createdAt new) ->
  Db.sort_desc (old ++ [new]) = new :: Db.sort_desc old.
Proof.
  intros Hold. unfold Db.sort_desc. rewrite foldr_app. cbn [foldr Db.insert_desc].
  generalize (@nil Db.ApiKeyPair) as acc.
  induction old as [|x old IH]; intros acc; [reflexivity|].
  cbn [foldr]. rewrite IH by (intros k Hk; apply Hold; right; exact Hk).
  cbn [Db.insert_desc].
  destruct (Z.leb_spec (Db.k_createdAt new) (Db.k_createdAt x)); [|reflexivity].
  specialize (Hold x (or_introl eq_refl)). lia.
Qed.

Lemma all_distinct (w : World) (env : Env) :
  KeyAux.distinct_kids w ->
  Db.apiKeyPair_findUnique (db w) (kid env) = None ->
  NoDup (map Db.k_kid (Db.apiKeyPair (db w) ++ [KeyAux.new_key env])).
Proof.
  intros Hnd Hfresh. rewrite map_app. apply NoDup_app. split; [exact Hnd|].
  split; [|apply NoDup_singleton].
  intros x Hx Hx'. apply list_elem_of_singleton in Hx'. subst x.
  apply list_elem_of_In in Hx. exact (findUnique_None _ _ Hfresh Hx).
Qed.

(** With the clock ahead of the stored keys, a rotation that returns [true]
    keeps the new key pair, last in the table, and before it the two latest
    of the old ones. *)
Lemma kept_under_clock_ahead (w w' : World) (env : Env) :
  KeyAux.distinct_kids w ->
  KeyAux.clock_ahead w env ->
  generatePublicKey w env = (true, w') ->
  (forall r, In r (Db.apiKeyPair (db w'))
             <-> r = KeyAux.new_key env
                 \/ In r (firstn 2 (Db.sort_desc (Db.apiKeyPair (db w)))))
  /\ exists older,
       Db.apiKeyPair (db w') = older ++ [KeyAux.new_key env]
       /\ forall k, In k older -> In k (Db.apiKeyPair (db w)).
Proof.
  intros Hnd Hclock H.
  destruct (generatePublicKey_true w w' env H) as [Hfresh Hkept].
  cbv zeta in Hkept. fold (KeyAux.new_key env) in Hkept.
  pose proof (all_distinct w env Hnd Hfresh) as Hall.
  assert (Htop : firstn 3 (Db.sort_desc (Db.apiKeyPair (db w) ++ [KeyAux.new_key env]))
                 = KeyAux.new_key env :: firstn 2 (Db.sort_desc (Db.apiKeyPair (db w)))).
  { rewrite sort_desc_new_first by exact Hclock. reflexivity. }
  assert (Hiff : forall r, In r (Db.apiKeyPair (db w'))
                 <-> In r (firstn 3 (Db.sort_desc
                                       (Db.apiKeyPair (db w) ++ [KeyAux.new_key env])))).
  { intros r. rewrite Hkept. apply kept_is_latest, Hall. }
  split.
  - intros r. rewrite Hiff, Htop. cbn [In]. intuition congruence.
  - rewrite Hkept, List.filter_app. eexists. split.
    + f_equal. cbn [List.filter].
      assert (Hin : In (KeyAux.new_key env) (Db.apiKeyPair (db w'))).
      { apply Hiff. rewrite Htop. left. reflexivity. }
      rewrite Hkept in Hin. apply filter_In in Hin. destruct Hin as [_ Hf].
      rewrite Hf. reflexivity.
    + intros k Hk. apply filter_In in Hk. exact (proj1 Hk).
Qed.

(** The lookup of the gateway, reading a table with distinct identifiers
    through a coherent cache, resolves the identifier of a stored key pair
    to its private key. *)
Lemma getPrivateKey_resolves (P : Gateway.Platform) (gw : Gateway.World)
    (genv : Gateway.Env) (r : Db.ApiKeyPair) (key : Gateway.CryptoKey) :
  NoDup (map Db.k_kid (Db.apiKeyPair (Gateway.db gw))) ->
  In r (Db.apiKeyPair (Gateway.db gw)) ->
  Gateway.db_fault genv Gateway.OpKey = false ->
  Gateway.importPKCS8 P (Db.k_privateKey r) = Some key ->
  cache_coherent P gw ->
  fst (Gateway.getPrivateKey P gw genv (Db.k_kid r)) = Done (Some key).
Proof.
  intros Hnd Hr Hfault Himp Hcoh.
  assert (Hfind : Db.apiKeyPair_findUnique (Gateway.db gw) (Db.k_kid r) = Some r).
  { unfold Db.apiKeyPair_findUnique. apply findUnique_In; assumption. }
  unfold Gateway.getPrivateKey.
  destruct (Gateway.privateKeyCache gw !! Db.k_kid r) as [hit|] eqn:Hc.
  - cbn. rewrite (Hcoh _ _ _ Hc Hfind) in Himp. congruence.
  - rewrite Hfault, Hfind, Himp. reflexivity.
Qed.

End KeyFacts.




(** C5, on the code: a rotation whose push fails.  When the mutation is
    answered without data, the rotation returns [true]; when the request is
    rejected, or there is no pixel, it returns [false]; in the three cases
    the new key pair stays in the table and the pixel keeps the old key.
    Only when the answer lists user errors is the new key pair deleted. *)
Theorem failed_push_keeps_new_key :
  let kids w := map Db.k_kid (Db.apiKeyPair (KeyRotation.db w)) in
  let no_pixel :=
    {| KeyRotation.kid := "kid-4"; KeyRotation.jwk := "jwk-4"; KeyRotation.pkcs8 := "pem-4";
       KeyRotation.now := 400; KeyRotation.pixelRes := Some None;
       KeyRotation.pixelUpdateRes := None;
       KeyRotation.db_fault := fun _ => false |} in
  (let '(r, w) := KeyRotation.generatePublicKey Sample.three_keys
                    (Sample.rotation (Some KeyRotation.UpdateNoData)) in
   r = true /\ kids w = ["kid-2"; "kid-3"; "kid-4"]%string
   /\ KeyRotation.pixel_jwk w = Some "jwk-3"%string)
  /\ (let '(r, w) := KeyRotation.generatePublicKey Sample.three_keys (Sample.rotation None) in
      r = false /\ kids w = ["kid-2"; "kid-3"; "kid-4"]%string
      /\ KeyRotation.pixel_jwk w = Some "jwk-3"%string)
  /\ (let '(r, w) := KeyRotation.generatePublicKey Sample.three_keys no_pixel in
      r = false /\ kids w = ["kid-2"; "kid-3"; "kid-4"]%string
      /\ KeyRotation.pixel_jwk w = Some "jwk-3"%string)
  /\ (let '(r, w) := KeyRotation.generatePublicKey Sample.three_keys
                       (Sample.rotation (Some (KeyRotation.UpdateData ["invalid"%string]))) in
      r = false /\ kids w = ["kid-2"; "kid-3"]%string
      /\ KeyRotation.pixel_jwk w = Some "jwk-3"%string).
Proof. vm_compute. repeat split; reflexivity. Qed.

(** ** The exporter *)

Module ExporterFacts.
Import Exporter.

(** Whether the code goes on to mark the batch after an upload, when the
    query for the records and the marking do not fail. *)
Lemma process_account_marks (d : Db.t) (app : Db.YahooAdApplication)
    (e : AccountEnv) (a : Db.YahooAdAccount) (url : string) :
  Db.acc_type a <> EmptyString -> Db.acc_accountId a <> EmptyString ->
  Db.acc_childAccountId a <> EmptyString -> Db.acc_conversionTitle a <> EmptyString ->
  findMany_fault e = false -> updateMany_fault e = false ->
  valid_time (now e - Db.acc_duration a * 24 * 60 * 60 * 1000) = true ->
  valid_time (now e - 1 * 60 * 60 * 1000) = true ->
  batch d e a <> [] ->
  API_ENDPOINT (Db.acc_type a) = Some url ->
  fst (fst (process_account d app e a))
  = match upload e with
    | UploadResponse true TextBody | UploadResponse true (JsonBody _) =>
        Db.yahooConversion_updateMany_processed d (map Db.c_yclid (batch d e a))
    | _ => d
    end.
Proof.
  intros Ht Ha Hc Hti Hf Hu Hv1 Hv2 Hb Hurl. unfold process_account, batch in *.
  apply String.eqb_neq in Ht, Ha, Hc, Hti. rewrite Ht, Ha, Hc, Hti, Hf, Hu, Hv1, Hv2.
  cbn [orb negb].
  destruct (List.filter _ _) as [|r rs]; [congruence|].
  rewrite Hurl.
  destruct (upload e) as [|[|] [| |]]; reflexivity.
Qed.

(** Every upload of a run carries the token of the credential as it was
    read at the start of the run. *)
Lemma process_accounts_authorization (app : Db.YahooAdApplication)
    (env : nat -> AccountEnv) (accounts : list Db.YahooAdAccount) :
  forall d i r,
    In r (snd (process_accounts d app env i accounts)) ->
    authorization r = ("Bearer " ++ null_string (Db.app_accessToken app))%string.
Proof.
  induction accounts as [|a accounts IH]; intros d i r Hr; [contradiction|].
  cbn [process_accounts] in Hr.
  destruct (process_account d app (env i) a) as [[d1 req] goes_on] eqn:Hreq.
  destruct (if goes_on then process_accounts d1 app env (S i) accounts else (d1, []))
    as [d2 reqs] eqn:Hrest.
  assert (Hrest' : forall r, In r reqs ->
            authorization r = ("Bearer " ++ null_string (Db.app_accessToken app))%string).
  { intros r' Hr'. destruct goes_on.
    - apply (IH d1 (S i)). rewrite Hrest. exact Hr'.
    - injection Hrest as _ <-. contradiction. }
  destruct req as [rq|]; cbn in Hr; [|exact (Hrest' r Hr)].
  destruct Hr as [<-|Hr]; [|exact (Hrest' r Hr)].
  unfold process_account in Hreq.
  repeat case_match; simplify_eq; reflexivity.
Qed.

Lemma uploads_carry_token_read_first
    (lookup : Db.t -> option Db.YahooAdApplication)
    (d d' : Db.t) (env : Env)
    (app : Db.YahooAdApplication) (reqs : list UploadRequest) (r : UploadRequest) :
  lookup d = Some app ->
  createCsvAndImportToYahoo lookup d env = (d', reqs) ->
  In r reqs ->
  authorization r = ("Bearer " ++ null_string (Db.app_accessToken app))%string.
Proof.
  unfold createCsvAndImportToYahoo. intros -> H Hr.
  destruct (getYahooAdAccounts d) as [accounts|]; [|injection H as _ <-; contradiction].
  destruct (getYahooAdToken _ _ _ _ _) as [tok d1].
  destruct (String.eqb tok EmptyString); [injection H as _ <-; contradiction|].
  destruct (Db.yahooAdApplication_update _ _ _) as [d2|];
    [|injection H as _ <-; contradiction].
  apply (process_accounts_authorization app (account_env env) accounts d2 0%nat).
  rewrite H. exact Hr.
Qed.

End ExporterFacts.

(** The scenario of the design: of two unprocessed search records, the one
    inside the window of the account is uploaded, and it alone is marked
    after an upload that succeeds. *)
Example export_in_window_only :
  let '(d, reqs) :=
    Exporter.createCsvAndImportToYahoo Exporter.getYahooAdApplication Sample.export_db
      (Sample.export_env (Exporter.UploadResponse true (Exporter.JsonBody []))) in
  map (fun r => map Exporter.row_yclid (Exporter.rows r)) reqs = [["YSS.1.in"%string]]
  /\ map (fun c => (Db.c_yclid c, Db.c_isProcessed c)) (Db.yahooConversion d)
     = [("YSS.1.in"%string, true); ("YSS.1.out"%string, false)].
Proof. vm_compute. split; reflexivity. Qed.

(** C4, on the code: an upload answered with an OK status and a JSON body
    that lists errors.  The errors are logged and the batch is marked
    processed, as after an answer without errors; after a failed request, a
    status that is not OK or a body that is not JSON after all, it is not. *)
Theorem reported_errors_still_mark_batch :
  let processed u :=
    map Db.c_isProcessed
        (Db.yahooConversion
           (fst (Exporter.createCsvAndImportToYahoo Exporter.getYahooAdApplication
                   Sample.export_db (Sample.export_env u)))) in
  processed (Exporter.UploadResponse true (Exporter.JsonBody ["row 1: invalid YCLID"%string]))
    = [true; false]
  /\ processed (Exporter.UploadResponse true (Exporter.JsonBody [])) = [true; false]
  /\ processed Exporter.UploadFailed = [false; false]
  /\ processed (Exporter.UploadResponse false (Exporter.JsonBody ["bad request"%string]))
     = [false; false]
  /\ processed (Exporter.UploadResponse true Exporter.MalformedJson) = [false; false].
Proof. vm_compute. repeat split; reflexivity. Qed.

(** C9, on the code: the credential holds the token [old]; the refresh at
    the start of the run returns [new], which is stored; the upload carries
    [old]. *)
Theorem upload_carries_token_from_before_refresh :
  let '(d, reqs) :=
    Exporter.createCsvAndImportToYahoo Exporter.getYahooAdApplication Sample.export_db
      (Sample.export_env (Exporter.UploadResponse true (Exporter.JsonBody []))) in
  map Exporter.authorization reqs = ["Bearer old"%string]
  /\ map Db.app_accessToken (Db.yahooAdApplication d) = [Some "new"%string].
Proof. vm_compute. split; reflexivity. Qed.

(** ** The web pixel: retries *)

Module PixelFacts.
Import Pixel.

Section Send.
Variable encrypt : Payload -> string -> option string.
Variable purchase : Purchase.
Variable env : nat -> AttemptEnv.
Variable pow_fuel : nat.


End Send.

End PixelFacts.





(** Three failed attempts of the sample purchase: three requests, for the
    same order, under three nonces. *)
Example three_attempts :
  let '(r, sent) :=
    Pixel.sendConversionData Sample.encrypt Sample.purchase Sample.attempt 3 in
  r = Done false
  /\ map (fun s => (Pixel.orderId (Pixel.sent_payload s), Pixel.nonce (Pixel.sent_payload s)))
         sent
     = [("123", "uuid-a"); ("123", "uuid-b"); ("123", "uuid-c")]%string.
Proof. vm_compute. split; reflexivity. Qed.

(** ** The gateway: caches, effects and the order check *)

Module GatewayMore.
Import Gateway.

(** What the transaction leaves of the database: nothing changed, or the
    nonce added. *)
Lemma dedup_transaction_db (fault : bool) (d d' : Db.t) (n o : string) (r : run bool) :
  dedup_transaction fault d n o = (r, d') ->
  d' = d \/ ((n ∉ Db.pixelNonce d) /\ d' = Db.set_pixelNonce d ({[ n ]} ∪ Db.pixelNonce d)).
Proof.
  unfold dedup_transaction, Db.pixelNonce_create. intros H.
  destruct fault; [injection H as _ <-; left; reflexivity|].
  destruct (bool_decide (n ∈ Db.pixelNonce d)) eqn:Hn.
  - injection H as _ <-. left. reflexivity.
  - apply bool_decide_eq_false in Hn. injection H as _ <-. right. auto.
Qed.

Lemma getPrivateKey_header_db (P : Platform) (w : World) (env : Env) (kid : option string) :
  db (snd (getPrivateKey_header P w env kid)) = db w.
Proof.
  unfold getPrivateKey_header. destruct kid as [kid|].
  - apply GatewayFacts.getPrivateKey_db.
  - destruct (privateKeyCache w !! "undefined"%string); reflexivity.
Qed.

(** A request that passes the duplicate check: what was decoded, and what
    the check found and stored. *)
Lemma action_front_accepted (P : Platform) (w w' : World) (env : Env)
    (request : Request) (a : Accepted) :
  action_front P w env request = (inr a, w') ->
  exists kid key plaintext payload n,
    decodeProtectedHeader P (body request) = Some (kid, RSA_OAEP_256)
    /\ fst (getPrivateKey_header P w env kid) = Done (Some key)
    /\ compactDecrypt P (body request) key = Some plaintext
    /\ parsePayload P plaintext = Some payload
    /\ yclid payload = JStr (a_yclid a)
    /\ visitedAt payload = JStr (a_visitedAt a)
    /\ conversionedAt payload = JStr (a_conversionedAt a)
    /\ amount payload = JNum (a_amount a)
    /\ orderId payload = JStr (a_orderId a)
    /\ nonce payload = JStr n
    /\ (n ∉ Db.pixelNonce (db w))
    /\ Db.yahooConversion_findFirst (db w) (a_orderId a) = None
    /\ db w' = Db.set_pixelNonce (db w) ({[ n ]} ∪ Db.pixelNonce (db w)).
Proof.
  unfold action_front, buildCorsHeaders. intros H.
  destruct (getAllowOrigin w env) as [ho w0] eqn:Ho.
  pose proof (GatewayFacts.getAllowOrigin_db w env) as (Hdb0 & Hsc0 & Hkc0).
  rewrite Ho in Hdb0, Hsc0, Hkc0. cbn in Hdb0, Hsc0, Hkc0.
  destruct ho as [h| |]; try discriminate.
  destruct (negb (String.eqb (method request) "POST")); [discriminate|].
  destruct (negb (checkPow (t_pow env) (x_pow request))); [discriminate|].
  destruct (String.eqb (body request) EmptyString); [discriminate|].
  destruct (decodeProtectedHeader P (body request)) as [[kid alg]|] eqn:Hhdr;
    [|discriminate].
  destruct (bool_decide (alg = Some "RSA-OAEP-256"%string)) eqn:Halg;
    cbn [negb] in H; [|discriminate].
  apply bool_decide_eq_true in Halg. subst alg. fold RSA_OAEP_256 in Hhdr.
  destruct (getSession w0 env) as [s w1] eqn:Hs.
  pose proof (GatewayFacts.getSession_db w0 env) as (Hdb1 & Hkc1).
  rewrite Hs in Hdb1, Hkc1. cbn in Hdb1, Hkc1.
  destruct (getPrivateKey_header P w1 env kid) as [k w2] eqn:Hkey.
  assert (Hk' : fst (getPrivateKey_header P w env kid) = k).
  { rewrite <- (GatewayAnswers.getPrivateKey_header_fst P w w1 env kid), Hkey
      by congruence. reflexivity. }
  assert (Hdb2 : db w2 = db w).
  { pose proof (getPrivateKey_header_db P w1 env kid) as Hd. rewrite Hkey in Hd.
    cbn in Hd. congruence. }
  destruct s as [[session|]| |], k as [[key|]| |]; try discriminate.
  destruct (compactDecrypt P (body request) key) as [plaintext|] eqn:Hdec;
    [|discriminate].
  destruct (parsePayload P plaintext) as [payload|] eqn:Hparse; [|discriminate].
  destruct (yclid payload) as [| |?|?|sy|] eqn:Hy; try discriminate.
  destruct (visitedAt payload) as [| |?|?|sv|] eqn:Hv; try discriminate.
  destruct (conversionedAt payload) as [| |?|?|sc|] eqn:Hc; try discriminate.
  destruct (amount payload) as [| |?|na|?|] eqn:Ha; try discriminate.
  destruct (orderId payload) as [| |?|?|so|] eqn:Ho'; try discriminate.
  destruct (nonce payload) as [| |?|?|sn|] eqn:Hn'; try discriminate.
  destruct (dedup_transaction _ _ _ _) as [ex d] eqn:Hd.
  destruct ex as [[|]| |]; try discriminate.
  injection H as <- <-. cbn. rewrite Hdb2 in Hd.
  pose proof (dedup_transaction_db _ _ _ _ _ _ Hd) as Hdb.
  destruct (GatewayFacts.dedup_transaction_fresh _ _ _ _ _ Hd)
    as (Hfresh & Hnone & _ & Hnon).
  exists kid, key, plaintext, payload, sn.
  repeat split; try assumption; try reflexivity.
  destruct Hdb as [Heq|[_ Heq]]; [|exact Heq].
  exfalso. apply Hfresh. rewrite Heq in Hnon. rewrite Hnon.
  apply elem_of_union_l, elem_of_singleton. reflexivity.
Qed.

(** The front of [action] changes the database by at most the nonce of the
    request. *)
Lemma action_front_db (P : Platform) (w w' : World) (env : Env)
    (request : Request) (r : Outcome + Accepted) :
  action_front P w env request = (r, w') ->
  db w' = db w
  \/ exists n, (n ∉ Db.pixelNonce (db w))
               /\ db w' = Db.set_pixelNonce (db w) ({[ n ]} ∪ Db.pixelNonce (db w)).
Proof.
  intros H. destruct r as [out|a].
  2:{ apply action_front_accepted in H as (? & ? & ? & ? & n & H).
      right. exists n. tauto. }
  unfold action_front, buildCorsHeaders in H.
  destruct (getAllowOrigin w env) as [ho w0] eqn:Ho.
  pose proof (GatewayFacts.getAllowOrigin_db w env) as (Hdb0 & _).
  rewrite Ho in Hdb0. cbn in Hdb0.
  destruct ho as [h| |]; try (injection H as _ <-; left; congruence).
  destruct (negb (String.eqb (method request) "POST"));
    [injection H as _ <-; left; congruence|].
  destruct (negb (checkPow (t_pow env) (x_pow request)));
    [injection H as _ <-; left; congruence|].
  destruct (String.eqb (body request) EmptyString);
    [injection H as _ <-; left; congruence|].
  destruct (decodeProtectedHeader P (body request)) as [[kid alg]|];
    [|injection H as _ <-; left; congruence].
  destruct (negb (bool_decide (alg = Some "RSA-OAEP-256"%string)));
    [injection H as _ <-; left; congruence|].
  destruct (getSession w0 env) as [s w1] eqn:Hs.
  pose proof (GatewayFacts.getSession_db w0 env) as (Hdb1 & _).
  rewrite Hs in Hdb1. cbn in Hdb1.
  destruct (getPrivateKey_header P w1 env kid) as [k w2] eqn:Hkey.
  assert (Hdb2 : db w2 = db w).
  { pose proof (getPrivateKey_header_db P w1 env kid) as Hd. rewrite Hkey in Hd.
    cbn in Hd. congruence. }
  destruct s as [[session|]| |], k as [[key|]| |];
    try (injection H as _ <-; left; congruence).
  destruct (compactDecrypt P (body request) key) as [plaintext|];
    [|injection H as _ <-; left; congruence].
  destruct (parsePayload P plaintext) as [payload|];
    [|injection H as _ <-; left; congruence].
  destruct (yclid payload) as [| |?|?|sy|]; try (injection H as _ <-; left; congruence).
  destruct (visitedAt payload) as [| |?|?|sv|]; try (injection H as _ <-; left; congruence).
  destruct (conversionedAt payload) as [| |?|?|sc|];
    try (injection H as _ <-; left; congruence).
  destruct (amount payload) as [| |?|na|?|]; try (injection H as _ <-; left; congruence).
  destruct (orderId payload) as [| |?|?|so|]; try (injection H as _ <-; left; congruence).
  destruct (nonce payload) as [| |?|?|sn|]; try (injection H as _ <-; left; congruence).
  destruct (dedup_transaction _ _ _ _) as [ex d] eqn:Hd.
  apply dedup_transaction_db in Hd. rewrite Hdb2 in Hd.
  assert (Hgoal : db (set_db w2 d) = db w
    \/ exists n, (n ∉ Db.pixelNonce (db w))
                 /\ db (set_db w2 d) = Db.set_pixelNonce (db w) ({[ n ]} ∪ Db.pixelNonce (db w))).
  { cbn. destruct Hd as [->|[Hn ->]]; [left; reflexivity|right; eauto]. }
  destruct ex as [[|]| |]; injection H as _ <-; exact Hgoal.
Qed.

(** The back of [action] changes the database by at most one record, added
    on success: unprocessed, with a new click identifier. *)
Lemma action_back_db (P : Platform) (w w' : World) (env : Env)
    (a : Accepted) (out : Outcome) :
  action_back P w env a = (out, w') ->
  (db w' = db w /\ out <> Resp (successResponse (a_headers a)))
  \/ exists row,
       out = Resp (successResponse (a_headers a))
       /\ db w' = Db.set_yahooConversion (db w) (Db.yahooConversion (db w) ++ [row])
       /\ Db.c_isProcessed row = false
       /\ Db.c_yclid row = a_yclid a /\ Db.c_orderId row = a_orderId a
       /\ Db.c_amount row = Some (a_amount a)
       /\ ~ In (a_yclid a) (map Db.c_yclid (Db.yahooConversion (db w))).
Proof.
  unfold action_back, new_record, Db.yahooConversion_create. intros H.
  destruct (fst (order_check env)); [injection H as <- <-; left; split; [reflexivity|discriminate]|].
  destruct (db_fault env OpCreate); [injection H as <- <-; left; split; [reflexivity|discriminate]|].
  destruct (Date_parse P (a_visitedAt a)) as [v|];
    [|injection H as <- <-; left; split; [reflexivity|discriminate]].
  destruct (Date_parse P (a_conversionedAt a)) as [c|];
    [|injection H as <- <-; left; split; [reflexivity|discriminate]].
  cbn [Db.c_yclid] in H.
  destruct (existsb _ _) eqn:Hex;
    [injection H as <- <-; left; split; [reflexivity|discriminate]|].
  injection H as <- <-. right. eexists. cbn.
  repeat split; try reflexivity.
  intros Hin. apply in_map_iff in Hin as (r & Hr & Hin).
  assert (Ht : existsb (fun r0 => String.eqb (Db.c_yclid r0) (a_yclid a))
                 (Db.yahooConversion (db w)) = true).
  { apply existsb_exists. exists r. split; [exact Hin|]. rewrite Hr. apply String.eqb_refl. }
  congruence.
Qed.

End GatewayMore.

(** X1. [checkPow] accepts exactly the headers that are present and not
    empty, whose decoded text starts with a number of minutes within
    [POW_VALID_MS] of the clock, before or after it, and whose digest, taken
    over the text encoded again, has at least 10 leading zero bits. *)
Theorem checkPow_accepts_iff (now : Z) (b64 : option jsstr) :
  Gateway.checkPow now b64 = true <->
  exists b minute,
    b64 = Some b /\ b <> []
    /\ Js.parseInt10 (Js.before_colon (Js.utf8_decode (Js.Buffer_from_base64 b)))
       = Some minute
    /\ Z.abs (now - minute * 60000) <= 2 * 60000
    /\ 10 <= leading_zero_bits
               (Sha256.digest (Js.utf8_encode (Js.utf8_decode (Js.Buffer_from_base64 b)))).
Proof.
  unfold Gateway.checkPow, Gateway.minTime_of, Gateway.POW_VALID_MS, Gateway.POW_BITS.
  split.
  - destruct b64 as [[|c b]|]; try discriminate.
    destruct (Js.parseInt10 _) as [minute|] eqn:Hp; cbn [fmap option_fmap option_map];
      [|discriminate].
    destruct (Z.ltb_spec (2 * 60000) (Z.abs (now - minute * 60000))); [discriminate|].
    rewrite PowFacts.gateway_count_zeros_spec by apply PowFacts.digest_bytes.
    intros Hz. apply Z.leb_le in Hz.
    exists (c :: b), minute. repeat split; [discriminate | exact Hp | lia | lia].
  - intros (b & minute & -> & Hne & Hp & Hwin & Hz).
    destruct b as [|c b]; [congruence|].
    rewrite Hp. cbn [fmap option_fmap option_map].
    destruct (Z.ltb_spec (2 * 60000) (Z.abs (now - minute * 60000))); [lia|].
    rewrite PowFacts.gateway_count_zeros_spec by apply PowFacts.digest_bytes.
    apply Z.leb_le. lia.
Qed.

(** X2. A session [getSession] returns is in the cache with an expiry after
    the clock (five minutes after it when the cache was empty), and until
    that expiry every call returns it from the cache, whatever the table
    holds and even when the database fails.  An absent session is not
    cached, and an error changes nothing. *)
Theorem getSession_serves_cache
    (w w' : Gateway.World) (env : Gateway.Env) (r : run (option Db.Session)) :
  Gateway.getSession w env = (r, w') ->
  (forall s, r = Done (Some s) ->
     exists expires,
       Gateway.sessionCache w' = Some (s, expires)
       /\ Gateway.t_session env < expires
       /\ (Gateway.sessionCache w = None ->
           expires = Gateway.t_session env + 5 * 60000)
       /\ forall w2 env2,
            Gateway.sessionCache w2 = Gateway.sessionCache w' ->
            Gateway.t_session env2 < expires ->
            Gateway.getSession w2 env2 = (Done (Some s), w2))
  /\ (r = Done None -> w' = w /\ Db.session (Gateway.db w) = [])
  /\ (r = Threw -> w' = w).
Proof.
  unfold Gateway.getSession, Gateway.ALLOW_SESSION_TTL_MS, Db.session_findFirst.
  intros H.
  assert (Hserve : forall s expires w2 env2,
    Gateway.sessionCache w2 = Some (s, expires) ->
    Gateway.t_session env2 < expires ->
    Gateway.getSession w2 env2 = (Done (Some s), w2)).
  { intros s expires w2 env2 Hc Ht. unfold Gateway.getSession. rewrite Hc.
    destruct (Z.ltb_spec (Gateway.t_session env2) expires); [reflexivity | lia]. }
  assert (Hfetch :
    (if Gateway.db_fault env Gateway.OpSession then (Threw, w)
     else match head (Db.session (Gateway.db w)) with
          | Some record =>
              (Done (Some record),
               Gateway.set_sessionCache w
                 (Some (record, Gateway.t_session env + 5 * 60000)))
          | None => (Done None, w)
          end) = (r, w') ->
    (forall s, r = Done (Some s) ->
       exists expires,
         Gateway.sessionCache w' = Some (s, expires)
         /\ Gateway.t_session env < expires
         /\ expires = Gateway.t_session env + 5 * 60000
         /\ forall w2 env2,
              Gateway.sessionCache w2 = Gateway.sessionCache w' ->
              Gateway.t_session env2 < expires ->
              Gateway.getSession w2 env2 = (Done (Some s), w2))
    /\ (r = Done None -> w' = w /\ Db.session (Gateway.db w) = [])
    /\ (r = Threw -> w' = w)).
  { intros Hf. destruct (Gateway.db_fault env Gateway.OpSession).
    - injection Hf as <- <-. repeat split; intros; congruence.
    - destruct (Db.session (Gateway.db w)) as [|record rest] eqn:Hs; cbn in Hf;
        injection Hf as <- <-.
      + repeat split; intros; congruence.
      + split; [|split; intros; congruence].
        intros s [= <-]. eexists. cbn. split; [reflexivity|].
        split; [lia|]. split; [reflexivity|].
        intros w2 env2 Hc Ht. eapply Hserve; eauto. }
  destruct (Gateway.sessionCache w) as [[s0 expires]|] eqn:Hc.
  - destruct (Z.ltb_spec (Gateway.t_session env) expires) as [Hlt|Hge].
    + injection H as <- <-. split; [|split; intros; congruence].
      intros s [= <-]. exists expires. rewrite Hc.
      split; [reflexivity|]. split; [exact Hlt|]. split; [discriminate|].
      intros w2 env2 Hc2 Ht. eapply Hserve; eauto.
    + destruct (Hfetch H) as (H1 & H2 & H3). split; [|split; assumption].
      intros s Hs. destruct (H1 s Hs) as (e & Ha & Hb & _ & Hd).
      exists e. split; [exact Ha|]. split; [exact Hb|].
      split; [discriminate | exact Hd].
  - destruct (Hfetch H) as (H1 & H2 & H3). split; [|split; assumption].
    intros s Hs. destruct (H1 s Hs) as (e & Ha & Hb & He & Hd).
    exists e. split; [exact Ha|]. split; [exact Hb|].
    split; [intros _; exact He | exact Hd].
Qed.

(** The session of the samples, fetched, is still served four minutes
    later from a world whose table is empty and whose database fails. *)
Lemma getSession_serves_cache_witness :
  Gateway.getSession
    (Gateway.set_db (snd (Gateway.getSession Sample.world0 (Sample.env None None)))
       Sample.empty_db)
    {| Gateway.t_cors := 0; Gateway.t_pow := 0;
       Gateway.t_session := Sample.clock + 4 * 60000; Gateway.t_order := 0;
       Gateway.db_fault := fun _ => true;
       Gateway.lookup1 := None; Gateway.lookup2 := None |}
  = (Done (Some Sample.session),
     Gateway.set_db (snd (Gateway.getSession Sample.world0 (Sample.env None None)))
       Sample.empty_db).
Proof.
  destruct (getSession_serves_cache Sample.world0
              (snd (Gateway.getSession Sample.world0 (Sample.env None None)))
              (Sample.env None None) (Done (Some Sample.session)))
    as (Hs & _); [vm_compute; reflexivity|].
  destruct (Hs Sample.session eq_refl) as (expires & _ & _ & He & Hserve).
  apply Hserve; [reflexivity|].
  rewrite (He eq_refl). vm_compute. reflexivity.
Defined.



(** X4. An origin [getAllowOrigin] returns is in the cache with an expiry
    after the clock, and until that expiry every call returns it, whatever
    the table holds.  Computed with an empty cache, it is the primary domain
    of the first session, or [https://] and its shop, or the empty text when
    there is no session: the empty origin is cached like any other. *)
Theorem getAllowOrigin_serves_cache
    (w w' : Gateway.World) (env : Gateway.Env) (value : string) :
  Gateway.getAllowOrigin w env = (Done value, w') ->
  exists expires,
    Gateway.allowOriginCache w' = Some (value, expires)
    /\ Gateway.t_cors env < expires
    /\ (Gateway.allowOriginCache w = None ->
        expires = Gateway.t_cors env + 5 * 60000
        /\ value = match Db.session (Gateway.db w) with
                   | record :: _ =>
                       match Db.s_primaryDomain record with
                       | Some domain => domain
                       | None => ("https://" ++ Db.s_shop record)%string
                       end
                   | [] => EmptyString
                   end)
    /\ forall w2 env2,
         Gateway.allowOriginCache w2 = Gateway.allowOriginCache w' ->
         Gateway.t_cors env2 < expires ->
         Gateway.getAllowOrigin w2 env2 = (Done value, w2).
Proof.
  unfold Gateway.getAllowOrigin at 1.
  unfold Gateway.ALLOW_ORIGIN_TTL_MS, Db.session_findFirst. intros H.
  assert (Hserve : forall v expires w2 env2,
    Gateway.allowOriginCache w2 = Some (v, expires) ->
    Gateway.t_cors env2 < expires ->
    Gateway.getAllowOrigin w2 env2 = (Done v, w2)).
  { intros v expires w2 env2 Hc Ht. unfold Gateway.getAllowOrigin. rewrite Hc.
    destruct (Z.ltb_spec (Gateway.t_cors env2) expires); [reflexivity | lia]. }
  destruct (Gateway.allowOriginCache w) as [[v0 expires]|] eqn:Hc.
  - destruct (Z.ltb_spec (Gateway.t_cors env) expires) as [Hlt|Hge].
    + injection H as <- <-. exists expires. rewrite Hc.
      split; [reflexivity|]. split; [exact Hlt|]. split; [discriminate|].
      intros w2 env2 Hc2 Ht. eapply Hserve; eauto.
    + destruct (Gateway.db_fault env Gateway.OpAllowOrigin); [discriminate|].
      injection H as <- <-. eexists. cbn. split; [reflexivity|].
      split; [lia|]. split; [discriminate|].
      intros w2 env2 Hc2 Ht. eapply Hserve; eauto.
  - destruct (Gateway.db_fault env Gateway.OpAllowOrigin); [discriminate|].
    injection H as <- <-. eexists. cbn. split; [reflexivity|].
    split; [lia|]. split.
    + intros _. split; [reflexivity|].
      destruct (Db.session (Gateway.db w)); reflexivity.
    + intros w2 env2 Hc2 Ht. eapply Hserve; eauto.
Qed.

(** The origin computed before any session exists is empty, and is still
    served four minutes later, when the session of the samples is there. *)
Lemma getAllowOrigin_serves_cache_witness :
  let w0 := Gateway.set_db Sample.world0 Sample.empty_db in
  let w1 := snd (Gateway.getAllowOrigin w0 (Sample.env None None)) in
  Gateway.getAllowOrigin (Gateway.set_db w1 Sample.db0)
    {| Gateway.t_cors := Sample.clock + 4 * 60000; Gateway.t_pow := 0;
       Gateway.t_session := 0; Gateway.t_order := 0;
       Gateway.db_fault := fun _ => false;
       Gateway.lookup1 := None; Gateway.lookup2 := None |}
  = (Done EmptyString, Gateway.set_db w1 Sample.db0).
Proof.
  intros w0 w1.
  destruct (getAllowOrigin_serves_cache w0 w1 (Sample.env None None) EmptyString)
    as (expires & _ & _ & He & Hserve); [vm_compute; reflexivity|].
  apply Hserve; [reflexivity|].
  destruct (He eq_refl) as [-> _]. vm_compute. reflexivity.
Defined.

(** X5. [action] stores a record only when it answers 200, and then exactly
    one: unprocessed, with a click identifier and an order identifier that
    no stored record had.  With any other answer the table of conversions is
    as before. *)
Theorem action_stores_on_success_only
    (P : Gateway.Platform) (w w' : Gateway.World) (env : Gateway.Env)
    (request : Gateway.Request) (out : Gateway.Outcome) :
  Gateway.action P w env request = (out, w') ->
  (exists h row,
     out = Gateway.Resp (Gateway.successResponse h)
     /\ Db.yahooConversion (Gateway.db w') = Db.yahooConversion (Gateway.db w) ++ [row]
     /\ Db.c_isProcessed row = false
     /\ ~ In (Db.c_yclid row) (map Db.c_yclid (Db.yahooConversion (Gateway.db w)))
     /\ ~ In (Db.c_orderId row) (map Db.c_orderId (Db.yahooConversion (Gateway.db w))))
  \/ ((forall h, out <> Gateway.Resp (Gateway.successResponse h))
      /\ Db.yahooConversion (Gateway.db w') = Db.yahooConversion (Gateway.db w)).
Proof.
  unfold Gateway.action. intros H.
  destruct (Gateway.action_front P w env request) as [[o|a] w1] eqn:Hf.
  - injection H as <- <-. right.
    pose proof (GatewayFacts.action_front_conversions _ _ _ _ _ _ Hf) as [Hsame _].
    split; [|exact Hsame].
    destruct (GatewayAnswers.action_front_answers _ _ _ _ _ _ Hf)
      as [->|(h & [->|(code & _ & -> & _)])]; intros h'; discriminate.
  - destruct (GatewayMore.action_front_accepted _ _ _ _ _ _ Hf)
      as (kid & key & pt & payload & n & _ & _ & _ & _ & _ & _ & _ & _ & _ & _ & _
          & Hnone & Hdb1).
    assert (Hsame : Db.yahooConversion (Gateway.db w1) = Db.yahooConversion (Gateway.db w))
      by (rewrite Hdb1; reflexivity).
    destruct (GatewayMore.action_back_db _ _ _ _ _ _ H)
      as [[Hdb Hne]|(row & -> & Hdb & Hp & Hy & Ho & _ & Hfresh)].
    + right. split; [|rewrite Hdb; exact Hsame].
      intros h Heq. pose proof (GatewayAnswers.action_back_answers _ _ _ _ _ _ H)
        as [->|[(c & _ & ->)|(_ & -> & _)]]; try discriminate.
      apply Hne. reflexivity.
    + left. exists (Gateway.a_headers a), row.
      split; [reflexivity|]. split; [rewrite Hdb, <- Hsame; reflexivity|].
      split; [exact Hp|]. rewrite Hy, Ho, <- Hsame. split; [exact Hfresh|].
      rewrite Hsame. apply GatewayFacts.find_none_not_in. exact Hnone.
Qed.

(** The message of the samples, accepted: one record more. *)
Lemma action_stores_on_success_only_witness :
  length (Db.yahooConversion
            (Gateway.db (snd (Gateway.action Sample.platform Sample.world0
                                (Sample.env (Sample.found Sample.clock) None)
                                (Sample.post "order 123, nonce n1")))))
  = 1%nat.
Proof.
  destruct (action_stores_on_success_only Sample.platform Sample.world0
              (snd (Gateway.action Sample.platform Sample.world0
                      (Sample.env (Sample.found Sample.clock) None)
                      (Sample.post "order 123, nonce n1")))
              (Sample.env (Sample.found Sample.clock) None)
              (Sample.post "order 123, nonce n1")
              (Gateway.Resp (Gateway.successResponse Sample.origin)))
    as [(h & row & _ & -> & _)|[Hne _]].
  - vm_compute. reflexivity.
  - reflexivity.
  - exfalso. apply (Hne Sample.origin). reflexivity.
Defined.

(** X6. [action] leaves the tables of sessions, key pairs, credentials and
    accounts as they are, and removes no nonce: the nonces after it are
    those before, with at most one more. *)
Theorem action_frame
    (P : Gateway.Platform) (w w' : Gateway.World) (env : Gateway.Env)
    (request : Gateway.Request) (out : Gateway.Outcome) :
  Gateway.action P w env request = (out, w') ->
  Db.session (Gateway.db w') = Db.session (Gateway.db w)
  /\ Db.apiKeyPair (Gateway.db w') = Db.apiKeyPair (Gateway.db w)
  /\ Db.yahooAdApplication (Gateway.db w') = Db.yahooAdApplication (Gateway.db w)
  /\ Db.yahooAdAccount (Gateway.db w') = Db.yahooAdAccount (Gateway.db w)
  /\ (Db.pixelNonce (Gateway.db w') = Db.pixelNonce (Gateway.db w)
      \/ exists n, (n ∉ Db.pixelNonce (Gateway.db w))
                   /\ Db.pixelNonce (Gateway.db w')
                      = {[ n ]} ∪ Db.pixelNonce (Gateway.db w)).
Proof.
  unfold Gateway.action. intros H.
  destruct (Gateway.action_front P w env request) as [[o|a] w1] eqn:Hf.
  - injection H as <- <-.
    destruct (GatewayMore.action_front_db _ _ _ _ _ _ Hf) as [->|(n & Hn & ->)]; cbn.
    + repeat split; auto.
    + repeat split; eauto.
  - assert (Hb : Gateway.db w' = Gateway.db w1
      \/ exists row, Gateway.db w'
           = Db.set_yahooConversion (Gateway.db w1)
               (Db.yahooConversion (Gateway.db w1) ++ [row])).
    { destruct (GatewayMore.action_back_db _ _ _ _ _ _ H) as [[Hdb _]|(row & _ & Hdb & _)];
        [left; exact Hdb | right; exists row; exact Hdb]. }
    destruct (GatewayMore.action_front_db _ _ _ _ _ _ Hf) as [Hd|(n & Hn & Hd)];
      destruct Hb as [->|[row ->]]; rewrite Hd; cbn; repeat split; eauto.
Qed.

Lemma action_frame_witness :
  Db.apiKeyPair
    (Gateway.db (snd (Gateway.action Sample.platform Sample.world0
                        (Sample.env (Sample.found Sample.clock) None)
                        (Sample.post "order 123, nonce n1"))))
  = [Sample.key1].
Proof.
  destruct (action_frame Sample.platform Sample.world0
              (snd (Gateway.action Sample.platform Sample.world0
                      (Sample.env (Sample.found Sample.clock) None)
                      (Sample.post "order 123, nonce n1")))
              (Sample.env (Sample.found Sample.clock) None)
              (Sample.post "order 123, nonce n1")
              (Gateway.Resp (Gateway.successResponse Sample.origin)))
    as (_ & -> & _).
  - vm_compute. reflexivity.
  - reflexivity.
Defined.

(** X7. Requests handled one after the other, however many and whatever
    they meet, never give an order a second record: a table with one record
    per order keeps one record per order. *)
Theorem sequential_requests_keep_orders_distinct
    (P : Gateway.Platform) (requests : list (Gateway.Env * Gateway.Request))
    (w : Gateway.World) :
  NoDup (map Db.c_orderId (Db.yahooConversion (Gateway.db w))) ->
  NoDup (map Db.c_orderId
           (Db.yahooConversion (Gateway.db (GatewayAux.handle_all P w requests)))).
Proof.
  revert w. induction requests as [|[env request] rest IH]; intros w Hnd; [exact Hnd|].
  cbn [GatewayAux.handle_all]. apply IH.
  destruct (Gateway.action P w env request) as [out w'] eqn:H.
  exact (GatewayFacts.action_keeps_orders_distinct P w w' env request out Hnd H).
Qed.

(** The message of order 123, then its replay with another nonce. *)
Lemma sequential_requests_keep_orders_distinct_witness :
  let e := Sample.env (Sample.found Sample.clock) None in
  map Db.c_orderId
    (Db.yahooConversion
       (Gateway.db
          (GatewayAux.handle_all Sample.platform Sample.world0
             [(e, Sample.post "order 123, nonce n1");
              (e, Sample.post "order 123, nonce n2")])))
  = ["123"%string]
  /\ NoDup (map Db.c_orderId
              (Db.yahooConversion
                 (Gateway.db
                    (GatewayAux.handle_all Sample.platform Sample.world0
                       [(e, Sample.post "order 123, nonce n1");
                        (e, Sample.post "order 123, nonce n2")])))).
Proof.
  intros e. split; [vm_compute; reflexivity|].
  apply (sequential_requests_keep_orders_distinct Sample.platform
           [(e, Sample.post "order 123, nonce n1");
            (e, Sample.post "order 123, nonce n2")] Sample.world0).
  apply (bool_decide_unpack _). vm_compute. exact I.
Defined.

(** X8. The order check lets a request through exactly when the first query
    finds the order and its creation time, if it reads as a time, is no more
    than two minutes before the clock.  It waits one second, then queries
    once, and a second time only when the first query found no order. *)
Theorem order_check_passes_iff (env : Gateway.Env) :
  (fst (Gateway.order_check env) = None <->
   exists o,
     Gateway.lookup1 env
       = Some {| Gateway.data := Some {| Gateway.order := Some o |} |}
     /\ match Gateway.createdAt o with
        | Some created => Gateway.t_order env - created <= 2 * 60000
        | None => True
        end)
  /\ (snd (Gateway.order_check env) = [Gateway.EvSleep 1000; Gateway.EvOrderQuery]
      \/ (snd (Gateway.order_check env)
            = [Gateway.EvSleep 1000; Gateway.EvOrderQuery; Gateway.EvOrderQuery]
          /\ exists gqlRes, Gateway.lookup1 env = Some gqlRes
                            /\ Gateway.order_present gqlRes = false)).
Proof.
  unfold Gateway.order_check, Gateway.freshness, Gateway.order_present.
  destruct (Gateway.lookup1 env) as [[[[[o|]]|]]|] eqn:H1; cbn.
  - destruct o as [[created|]]; cbn.
    + destruct (Z.ltb_spec (2 * 60000) (Gateway.t_order env - created)); cbn.
      * split; [|left; reflexivity]. split; [discriminate|].
        intros (o & [= <-] & Hc). cbn in Hc. lia.
      * split; [|left; reflexivity]. split; [|reflexivity].
        intros _. eexists. split; [reflexivity|]. cbn. lia.
    + split; [|left; reflexivity]. split; [|reflexivity].
      intros _. eexists. split; [reflexivity|]. exact I.
  - split.
    + split; [|intros (o & [=] & _)].
      destruct (Gateway.lookup2 env) as [[[[[o|]]|]]|]; cbn; discriminate.
    + right. split; [|eexists; split; reflexivity].
      destruct (Gateway.lookup2 env) as [[[[[o|]]|]]|]; reflexivity.
  - split.
    + split; [|intros (o & [=] & _)].
      destruct (Gateway.lookup2 env) as [[[[[o|]]|]]|]; cbn; discriminate.
    + right. split; [|eexists; split; reflexivity].
      destruct (Gateway.lookup2 env) as [[[[[o|]]|]]|]; reflexivity.
  - split; [|left; reflexivity]. split; [discriminate|intros (o & [=] & _)].
Qed.

(** X9. A request rejected with a code from 9 to 12 has passed the duplicate
    check: its nonce, which was not stored, is stored now.  While it is
    stored and the identifier of the key resolves to the same key, the same
    message sent again is never accepted and never reaches the order check:
    the handler stores nothing and answers with a code from 1 to 8 or an
    internal error, and with code 8, as a duplicate, whenever the message
    passes again the checks before the duplicate check, whatever the order
    system answers. *)
Theorem rejected_after_duplicate_check_burns_nonce
    (P : Gateway.Platform) (w w' : Gateway.World) (env : Gateway.Env)
    (request : Gateway.Request) (code : Z) (h : string) :
  Gateway.action P w env request = (Gateway.Resp (Gateway.errorResponse code h), w') ->
  9 <= code <= 12 ->
  exists kid key plaintext payload n,
    Gateway.decodeProtectedHeader P (Gateway.body request)
      = Some (kid, Gateway.RSA_OAEP_256)
    /\ fst (Gateway.getPrivateKey_header P w env kid) = Done (Some key)
    /\ Gateway.compactDecrypt P (Gateway.body request) key = Some plaintext
    /\ Gateway.parsePayload P plaintext = Some payload
    /\ Gateway.nonce payload = Gateway.JStr n
    /\ (n ∉ Db.pixelNonce (Gateway.db w))
    /\ n ∈ Db.pixelNonce (Gateway.db w')
    /\ (forall (w2 w3 : Gateway.World) (env2 : Gateway.Env) (out2 : Gateway.Outcome),
          n ∈ Db.pixelNonce (Gateway.db w2) ->
          (forall key2, fst (Gateway.getPrivateKey_header P w2 env2 kid) = Done (Some key2) ->
                        key2 = key) ->
          Gateway.action P w2 env2 request = (out2, w3) ->
          Db.yahooConversion (Gateway.db w3) = Db.yahooConversion (Gateway.db w2)
          /\ (out2 = Gateway.Uncaught
              \/ exists h2,
                   out2 = Gateway.Resp (Gateway.internalErrorResponse h2)
                   \/ exists code2, 1 <= code2 <= 8
                                    /\ out2 = Gateway.Resp (Gateway.errorResponse code2 h2)))
    /\ (forall (w2 w0 : Gateway.World) (env2 : Gateway.Env) (h2 : string)
               (session2 : Db.Session),
          n ∈ Db.pixelNonce (Gateway.db w2) ->
          Gateway.buildCorsHeaders w2 env2 = (Done h2, w0) ->
          Gateway.checkPow (Gateway.t_pow env2) (Gateway.x_pow request) = true ->
          fst (Gateway.getSession w2 env2) = Done (Some session2) ->
          fst (Gateway.getPrivateKey_header P w2 env2 kid) = Done (Some key) ->
          Gateway.db_fault env2 Gateway.OpDedup = false ->
          fst (Gateway.action P w2 env2 request)
          = Gateway.Resp (Gateway.errorResponse 8 h2)).
Proof.
  unfold Gateway.action. intros H Hcode.
  destruct (Gateway.action_front P w env request) as [[o|a] w1] eqn:Hf.
  - injection H as -> <-.
    destruct (GatewayAnswers.action_front_answers _ _ _ _ _ _ Hf)
      as [Hu|(h' & [Hi|(c & Hc & He & _)])]; try discriminate.
    injection He as -> _. lia.
  - destruct (GatewayAnswers.action_front_passes _ _ _ _ _ _ Hf) as [Hpass _].
    destruct Hpass as (payload & n & (kid & session & key & pt & Hhead & Hs & Hk & Hdec & Hparse)
                       & Hy & Hv & Hc & Ha & Ho & Hn & Hfault & Hfresh & Hnone).
    destruct (GatewayMore.action_front_accepted _ _ _ _ _ _ Hf)
      as (kid' & key' & pt' & payload' & n' & H1 & H2 & H3 & H4 & _ & _ & _ & _ & _ & Hn'
          & _ & _ & Hdb1).
    assert (Hsame : n' = n).
    { destruct Hhead as (_ & _ & _ & Hhdr). rewrite Hhdr in H1. injection H1 as <-.
      rewrite Hk in H2. injection H2 as <-. rewrite Hdec in H3. injection H3 as <-.
      rewrite Hparse in H4. injection H4 as <-. rewrite Hn in Hn'. injection Hn' as <-.
      reflexivity. }
    subst n'.
    exists kid, key, pt, payload, n.
    split; [apply Hhead|]. split; [exact Hk|]. split; [exact Hdec|].
    split; [exact Hparse|]. split; [exact Hn|]. split; [exact Hfresh|].
    split; [|split].
    + assert (Hin : n ∈ Db.pixelNonce (Gateway.db w1)).
      { rewrite Hdb1. cbn. apply elem_of_union_l, elem_of_singleton. reflexivity. }
      destruct (GatewayMore.action_back_db _ _ _ _ _ _ H) as [[-> _]|(row & _ & -> & _)];
        exact Hin.
    + intros w2 w3 env2 out2 Hin2 Hkey2 H2'.
      destruct (Gateway.action_front P w2 env2 request) as [[o2|a2] w4] eqn:Hf2.
      * injection H2' as <- <-.
        split; [exact (proj1 (GatewayFacts.action_front_conversions _ _ _ _ _ _ Hf2))|].
        destruct (GatewayAnswers.action_front_answers _ _ _ _ _ _ Hf2)
          as [->|(h2 & [->|(c & Hc2 & -> & _)])]; [left; reflexivity|right..];
          exists h2; [left; reflexivity|right; eauto].
      * exfalso.
        destruct (GatewayAnswers.action_front_passes _ _ _ _ _ _ Hf2) as [Hpass2 _].
        destruct Hpass2
          as (payload2 & n2 & (kid2 & session2 & key2 & pt2 & Hhead2 & _ & Hk2 & Hdec2 & Hparse2)
              & _ & _ & _ & _ & _ & Hn2 & _ & Hfresh2 & _).
        destruct Hhead as (_ & _ & _ & Hhdr), Hhead2 as (_ & _ & _ & Hhdr2).
        rewrite Hhdr in Hhdr2. injection Hhdr2 as <-.
        rewrite (Hkey2 key2 Hk2) in Hdec2. rewrite Hdec in Hdec2. injection Hdec2 as <-.
        rewrite Hparse in Hparse2. injection Hparse2 as <-.
        rewrite Hn in Hn2. injection Hn2 as <-. exact (Hfresh2 Hin2).
    + intros w2 w0 env2 h2 session2 Hin2 Hcors2 Hpow2 Hs2 Hk2 Hfault2.
      apply (GatewayAnswers.failing_check_answer P w2 w0 env2 request h2 8 Hcors2).
      destruct Hhead as (Hm & _ & Hb & Hhdr).
      eapply Gateway.check_duplicate; try eassumption.
      * exists kid, session2, key, pt. repeat split; assumption.
      * left. exact Hin2.
Qed.

(** The message of the samples, for an order the order system does not
    know: rejected with code 9, its nonce stored. *)
Lemma rejected_after_duplicate_check_burns_nonce_witness :
  exists n,
    n ∈ Db.pixelNonce
          (Gateway.db (snd (Gateway.action Sample.platform Sample.world0
                              (Sample.env Sample.absent Sample.absent)
                              (Sample.post "order 123, nonce n1")))).
Proof.
  destruct (rejected_after_duplicate_check_burns_nonce Sample.platform Sample.world0
              (snd (Gateway.action Sample.platform Sample.world0
                      (Sample.env Sample.absent Sample.absent)
                      (Sample.post "order 123, nonce n1")))
              (Sample.env Sample.absent Sample.absent)
              (Sample.post "order 123, nonce n1") 9 Sample.origin)
    as (_ & _ & _ & _ & n & _ & _ & _ & _ & _ & _ & Hin & _).
  - vm_compute. reflexivity.
  - lia.
  - exists n. exact Hin.
Defined.

(** ** Key rotation: what every rotation keeps *)

Module KeyMore.
Import KeyRotation KeyAux.

(** The table a rotation leaves, by its outcome. *)
Lemma generatePublicKey_table (w w' : World) (env : Env) (r : bool) :
  generatePublicKey w env = (r, w') ->
  (w' = w /\ r = false
   /\ (db_fault env CallCreate = true
       \/ is_Some (Db.apiKeyPair_findUnique (db w) (kid env))))
  \/ (Db.apiKeyPair_findUnique (db w) (kid env) = None
      /\ db_fault env CallCreate = false
      /\ ((r = false
           /\ (db_fault env CallFindMany = true \/ db_fault env CallDeleteMany = true)
           /\ Db.apiKeyPair (db w') = Db.apiKeyPair (db w) ++ [new_key env]
           /\ pixel_jwk w' = pixel_jwk w)
          \/ (db_fault env CallFindMany = false
              /\ db_fault env CallDeleteMany = false
              /\ (Db.apiKeyPair (db w') = purged w env
                  \/ (r = false
                      /\ (exists e errs, pixelUpdateRes env = Some (UpdateData (e :: errs)))
                      /\ Db.apiKeyPair (db w')
                         = List.filter (fun x => negb (String.eqb (Db.k_kid x) (kid env)))
                             (purged w env)))))).
Proof.
  unfold generatePublicKey, Db.apiKeyPair_create. cbn [Db.k_kid]. intros H.
  destruct (db_fault env CallCreate) eqn:Hfc.
  { injection H as <- <-. left. auto. }
  destruct (Db.apiKeyPair_findUnique (db w) (kid env)) eqn:Hfu.
  { injection H as <- <-. left. eauto. }
  right. split; [reflexivity|]. split; [reflexivity|].
  destruct (db_fault env CallFindMany) eqn:Hfm; cbn [orb] in H.
  { injection H as <- <-. left. cbn. auto. }
  destruct (db_fault env CallDeleteMany) eqn:Hfd; cbn [orb] in H.
  { injection H as <- <-. left. cbn. auto. }
  right. split; [reflexivity|]. split; [reflexivity|].
  cbv zeta in H. cbn [db pixel_jwk] in H.
  destruct (db_fault env CallSessionFindFirst); [injection H as _ <-; left; reflexivity|].
  destruct (Db.session_findFirst _); [|injection H as _ <-; left; reflexivity].
  destruct (pixelRes env) as [[pixelId|]|]; try (injection H as _ <-; left; reflexivity).
  destruct (pixelUpdateRes env) as [[|[|e errs]]|]; cbn [pushed db pixel_jwk] in H;
    try (injection H as _ <-; left; reflexivity).
  destruct (db_fault env CallDelete); [injection H as _ <-; left; reflexivity|].
  unfold Db.apiKeyPair_delete in H.
  destruct (Db.apiKeyPair_findUnique (Db.apiKeyPair_deleteMany_notIn _ _) (kid env));
    injection H as <- <-.
  - right. split; [reflexivity|]. split; [eauto|]. reflexivity.
  - left. reflexivity.
Qed.

Lemma purged_distinct (w : World) (env : Env) :
  distinct_kids w ->
  Db.apiKeyPair_findUnique (db w) (kid env) = None ->
  NoDup (map Db.k_kid (Db.apiKeyPair (db w) ++ [new_key env]))
  /\ NoDup (map Db.k_kid (purged w env))
  /\ (length (purged w env) <= 3)%nat
  /\ forall r, In r (purged w env)
               <-> In r (firstn 3 (Db.sort_desc (Db.apiKeyPair (db w) ++ [new_key env]))).
Proof.
  intros Hnd Hfresh.
  pose proof (KeyFacts.all_distinct w env Hnd Hfresh) as Hall.
  assert (Hiff : forall r, In r (purged w env)
               <-> In r (firstn 3 (Db.sort_desc (Db.apiKeyPair (db w) ++ [new_key env])))).
  { intros r. apply KeyFacts.kept_is_latest, Hall. }
  assert (Hpnd : NoDup (map Db.k_kid (purged w env)))
    by apply KeyFacts.NoDup_map_filter, Hall.
  split; [exact Hall|]. split; [exact Hpnd|]. split; [|exact Hiff].
  transitivity (length (firstn 3 (Db.sort_desc (Db.apiKeyPair (db w) ++ [new_key env]))));
    [|apply firstn_le_length].
  apply NoDup_incl_length.
  - apply NoDup_ListNoDup. eapply NoDup_fmap_1. exact Hpnd.
  - intros r Hr. apply Hiff, Hr.
Qed.

(** Any rotation keeps the identifiers distinct.  It leaves three key pairs
    at most, unless the insertion failed, which changes nothing, or the
    reading or the purge after it failed, which leaves the new row with all
    the old ones. *)
Lemma generatePublicKey_bound (w w' : World) (env : Env) (r : bool) :
  distinct_kids w ->
  generatePublicKey w env = (r, w') ->
  distinct_kids w'
  /\ ((length (Db.apiKeyPair (db w')) <= 3)%nat
      \/ (w' = w /\ r = false)
      \/ (r = false
          /\ (db_fault env CallFindMany = true \/ db_fault env CallDeleteMany = true)
          /\ Db.apiKeyPair (db w') = Db.apiKeyPair (db w) ++ [new_key env])).
Proof.
  intros Hnd H.
  destruct (generatePublicKey_table _ _ _ _ H)
    as [(-> & -> & _)|(Hfresh & _ & [(-> & Hf & Ht & _)|(_ & _ & Ht)])].
  { split; [exact Hnd | right; left; auto]. }
  { split; [|right; right; auto].
    unfold distinct_kids. rewrite Ht. exact (KeyFacts.all_distinct w env Hnd Hfresh). }
  destruct (purged_distinct w env Hnd Hfresh) as (_ & Hpnd & Hlen & _).
  unfold distinct_kids.
  destruct Ht as [->|(_ & _ & ->)].
  - split; [exact Hpnd | left; exact Hlen].
  - split; [apply KeyFacts.NoDup_map_filter, Hpnd|].
    left. etransitivity; [apply filter_length_le | exact Hlen].
Qed.

Lemma generatePublicKey_distinct (w : World) (env : Env) :
  distinct_kids w -> distinct_kids (snd (generatePublicKey w env)).
Proof.
  intros Hnd. destruct (generatePublicKey w env) as [r w'] eqn:H.
  exact (proj1 (generatePublicKey_bound w w' env r Hnd H)).
Qed.

Lemma generatePublicKey_keys_bounded (w : World) (env : Env) :
  PixelSetup.keys_bounded w ->
  PixelSetup.purges env ->
  PixelSetup.keys_bounded (snd (generatePublicKey w env)).
Proof.
  intros [Hlen Hnd] [Hfm Hfd]. destruct (generatePublicKey w env) as [r w'] eqn:H.
  destruct (generatePublicKey_bound w w' env r Hnd H)
    as [Hnd' [Hl|[[-> _]|(_ & [Hf|Hf] & _)]]];
    try congruence; split; assumption.
Qed.

(** What [finalize] leaves, and what it did. *)
Lemma finalize_spec (w w' : World) (e : PixelSetup.FinalizeEnv)
    (r : PixelSetup.result unit) (evs : list PixelSetup.Event) :
  PixelSetup.finalize w e = (r, w', evs) ->
  (exists err, r = PixelSetup.Raise err /\ w' = w
               /\ PixelSetup.rotate_events evs = []
               /\ (PixelSetup.creations evs <= 2)%nat)
  \/ (r = PixelSetup.Ok tt
      /\ (PixelSetup.creations evs <= 2)%nat
      /\ ((w' = snd (generatePublicKey w (PixelSetup.rotation1 e))
           /\ fst (generatePublicKey w (PixelSetup.rotation1 e)) = true
           /\ PixelSetup.rotate_events evs = [PixelSetup.EvRotate true])
          \/ (fst (generatePublicKey w (PixelSetup.rotation1 e)) = false
              /\ w' = snd (generatePublicKey
                             (snd (generatePublicKey w (PixelSetup.rotation1 e)))
                             (PixelSetup.rotation2 e))
              /\ exists r2, PixelSetup.rotate_events evs
                            = [PixelSetup.EvRotate false; PixelSetup.EvRotate r2]))).
Proof.
  unfold PixelSetup.finalize. intros H.
  destruct (generatePublicKey w (PixelSetup.rotation1 e)) as [r1 w1] eqn:H1.
  cbn [fst snd] in *.
  destruct (generatePublicKey w1 (PixelSetup.rotation2 e)) as [r2 w2] eqn:H2.
  cbn [fst snd] in *.
  assert (Hrot : forall cs,
    PixelSetup.rotate_events cs = [] -> (PixelSetup.creations cs <= 2)%nat ->
    (if negb r1
     then (PixelSetup.Ok tt, w2, cs ++ [PixelSetup.EvRotate r1; PixelSetup.EvRotate r2])
     else (PixelSetup.Ok tt, w1, cs ++ [PixelSetup.EvRotate r1])) = (r, w', evs) ->
    r = PixelSetup.Ok tt
    /\ (PixelSetup.creations evs <= 2)%nat
    /\ ((w' = w1 /\ r1 = true
         /\ PixelSetup.rotate_events evs = [PixelSetup.EvRotate true])
        \/ (r1 = false /\ w' = w2
            /\ exists r2', PixelSetup.rotate_events evs
                           = [PixelSetup.EvRotate false; PixelSetup.EvRotate r2']))).
  { intros cs Hcs Hcr Hx. unfold PixelSetup.creations, PixelSetup.rotate_events in *.
    destruct r1; cbn [negb] in Hx; injection Hx as <- <- <-;
      rewrite !List.filter_app, ?length_app; cbn; rewrite Hcs;
      (split; [reflexivity|]); (split; [lia|]); [left|right]; eauto. }
  destruct (PixelSetup.activateWebPixel (PixelSetup.create1 e)) as [[|]|err].
  - right. apply (Hrot [PixelSetup.EvCreate]); [reflexivity | cbn; lia | exact H].
  - destruct (PixelSetup.activateWebPixel (PixelSetup.create2 e)) as [b|err].
    + right.
      apply (Hrot [PixelSetup.EvCreate; PixelSetup.EvCreate]);
        [reflexivity | cbn; lia | exact H].
    + injection H as <- <- <-. left. exists err. cbn. repeat split; lia.
  - injection H as <- <- <-. left. exists err. cbn. repeat split; lia.
Qed.

Lemma finalize_keys_bounded (w w' : World) (e : PixelSetup.FinalizeEnv)
    (r : PixelSetup.result unit) (evs : list PixelSetup.Event) :
  PixelSetup.keys_bounded w ->
  PixelSetup.finalize_purges e ->
  PixelSetup.finalize w e = (r, w', evs) ->
  PixelSetup.keys_bounded w'.
Proof.
  intros Hb [Hp1 Hp2] H.
  destruct (finalize_spec _ _ _ _ _ H) as [(err & _ & -> & _)|(_ & _ & [(-> & _)|(_ & -> & _)])].
  - exact Hb.
  - apply generatePublicKey_keys_bounded; assumption.
  - apply generatePublicKey_keys_bounded; [|assumption].
    apply generatePublicKey_keys_bounded; assumption.
Qed.

Lemma finalize_distinct (w w' : World) (e : PixelSetup.FinalizeEnv)
    (r : PixelSetup.result unit) (evs : list PixelSetup.Event) :
  distinct_kids w ->
  PixelSetup.finalize w e = (r, w', evs) ->
  distinct_kids w'.
Proof.
  intros Hb H.
  destruct (finalize_spec _ _ _ _ _ H) as [(err & _ & -> & _)|(_ & _ & [(-> & _)|(_ & -> & _)])].
  - exact Hb.
  - apply generatePublicKey_distinct, Hb.
  - apply generatePublicKey_distinct, generatePublicKey_distinct, Hb.
Qed.

(** What [ensurePixelConnected] leaves: the world it was given, or that of
    one call of [finalize], or of two. *)
Lemma ensurePixelConnected_worlds (w w' : World) (query : PixelSetup.result bool)
    (first second : PixelSetup.FinalizeEnv)
    (r : PixelSetup.result unit) (evs : list PixelSetup.Event) :
  PixelSetup.ensurePixelConnected w query first second = (r, w', evs) ->
  w' = w
  \/ (exists r1 evs1, PixelSetup.finalize w first = (r1, w', evs1))
  \/ (exists r1 w1 evs1 r2 evs2,
        PixelSetup.finalize w first = (r1, w1, evs1)
        /\ PixelSetup.finalize w1 second = (r2, w', evs2)).
Proof.
  unfold PixelSetup.ensurePixelConnected. intros H.
  destruct query as [[|]|err].
  - injection H as _ <- _. left. reflexivity.
  - destruct (PixelSetup.finalize w first) as [[[u|err] w1] evs1] eqn:Hf.
    + injection H as _ <- _. right. left. eauto.
    + destruct (PixelSetup.pixel_missing err).
      * destruct (PixelSetup.finalize w1 second) as [[r2 w2] evs2] eqn:Hf2.
        injection H as _ <- _. right. right. eauto 10.
      * injection H as _ <- _. right. left. eauto.
  - destruct (PixelSetup.pixel_missing err).
    + destruct (PixelSetup.finalize w first) as [[r1 w1] evs1] eqn:Hf.
      injection H as _ <- _. right. left. eauto.
    + injection H as _ <- _. left. reflexivity.
Qed.

End KeyMore.

(** X10. Any rotation, whatever its outcome, keeps the identifiers of the
    table distinct.  It leaves at most three key pairs unless a database
    call failed: at the insertion, and nothing changed; or at the reading of
    the latest three or at the purge, and the new key pair stays with all
    the old ones, the rotation returning [false]. *)
Theorem rotation_keeps_bound
    (w w' : KeyRotation.World) (env : KeyRotation.Env) (r : bool) :
  KeyAux.distinct_kids w ->
  KeyRotation.generatePublicKey w env = (r, w') ->
  KeyAux.distinct_kids w'
  /\ ((length (Db.apiKeyPair (KeyRotation.db w')) <= 3)%nat
      \/ (w' = w /\ r = false)
      \/ (r = false
          /\ (KeyRotation.db_fault env KeyRotation.CallFindMany = true
              \/ KeyRotation.db_fault env KeyRotation.CallDeleteMany = true)
          /\ Db.apiKeyPair (KeyRotation.db w')
             = Db.apiKeyPair (KeyRotation.db w) ++ [KeyAux.new_key env])).
Proof. apply KeyMore.generatePublicKey_bound. Qed.

(** A rotation over three keys whose push is answered without data. *)
Lemma rotation_keeps_bound_witness :
  KeyAux.distinct_kids
    (snd (KeyRotation.generatePublicKey Sample.three_keys
            (Sample.rotation (Some KeyRotation.UpdateNoData)))).
Proof.
  apply (rotation_keeps_bound Sample.three_keys _
           (Sample.rotation (Some KeyRotation.UpdateNoData)) true).
  - apply (bool_decide_unpack _). vm_compute. exact I.
  - vm_compute. reflexivity.
Defined.

(** A rotation over three keys whose purge fails: it returns [false] and
    four key pairs are stored. *)
Example purge_fault_leaves_four_keys :
  let env :=
    {| KeyRotation.kid := "kid-4"; KeyRotation.jwk := "jwk-4"; KeyRotation.pkcs8 := "pem-4";
       KeyRotation.now := 400; KeyRotation.pixelRes := Some (Some "gid://pixel/1"%string);
       KeyRotation.pixelUpdateRes := Some (KeyRotation.UpdateData []);
       KeyRotation.db_fault :=
         fun c => match c with KeyRotation.CallDeleteMany => true | _ => false end |} in
  let '(r, w) := KeyRotation.generatePublicKey Sample.three_keys env in
  r = false
  /\ map Db.k_kid (Db.apiKeyPair (KeyRotation.db w))
     = ["kid-1"; "kid-2"; "kid-3"; "kid-4"]%string
  /\ KeyRotation.pixel_jwk w = Some "jwk-3"%string.
Proof. vm_compute. repeat split; reflexivity. Qed.

(** X11. [ensurePixelConnected] keeps the identifiers of the key pairs
    distinct, whatever the answers, the errors and the outcomes of the
    rotations.  When the reading of the latest three and the purge fail in
    none of its rotations, it keeps the table within its bound: from at most
    three key pairs it leaves at most three. *)
Theorem ensurePixelConnected_keeps_bound
    (w w' : KeyRotation.World) (query : PixelSetup.result bool)
    (first second : PixelSetup.FinalizeEnv)
    (r : PixelSetup.result unit) (evs : list PixelSetup.Event) :
  PixelSetup.ensurePixelConnected w query first second = (r, w', evs) ->
  (KeyAux.distinct_kids w -> KeyAux.distinct_kids w')
  /\ (PixelSetup.keys_bounded w ->
      PixelSetup.finalize_purges first -> PixelSetup.finalize_purges second ->
      PixelSetup.keys_bounded w').
Proof.
  intros H.
  destruct (KeyMore.ensurePixelConnected_worlds _ _ _ _ _ _ _ H)
    as [->|[(r1 & evs1 & H1)|(r1 & w1 & evs1 & r2 & evs2 & H1 & H2)]].
  - split; auto.
  - split.
    + intros Hd. exact (KeyMore.finalize_distinct _ _ _ _ _ Hd H1).
    + intros Hb Hp1 _. exact (KeyMore.finalize_keys_bounded _ _ _ _ _ Hb Hp1 H1).
  - split.
    + intros Hd. eapply KeyMore.finalize_distinct; [|exact H2].
      exact (KeyMore.finalize_distinct _ _ _ _ _ Hd H1).
    + intros Hb Hp1 Hp2. eapply KeyMore.finalize_keys_bounded; [|exact Hp2|exact H2].
      exact (KeyMore.finalize_keys_bounded _ _ _ _ _ Hb Hp1 H1).
Qed.

(** No pixel yet: the first rotation is rejected by the pixel, the second
    succeeds. *)
Lemma ensurePixelConnected_keeps_bound_witness :
  PixelSetup.keys_bounded
    (snd (fst (PixelSetup.ensurePixelConnected Sample.three_keys (PixelSetup.Ok false)
                 Sample2.finalize_env Sample2.finalize_env))).
Proof.
  destruct (PixelSetup.ensurePixelConnected Sample.three_keys (PixelSetup.Ok false)
              Sample2.finalize_env Sample2.finalize_env) as [[r w'] evs] eqn:H.
  destruct (ensurePixelConnected_keeps_bound Sample.three_keys w' (PixelSetup.Ok false)
              Sample2.finalize_env Sample2.finalize_env r evs H) as [_ Hb].
  apply Hb.
  - split; [cbn; lia|]. apply (bool_decide_unpack _). vm_compute. exact I.
  - repeat split.
  - repeat split.
Defined.

(** X12. [ensurePixelConnected] rotates the keys at most twice, and a second
    time only after a rotation that returned [false]; it sends the mutation
    that creates the pixel at most four times.  When the query finds the
    pixel, or fails otherwise than by a [GraphqlQueryError] without the pixel
    in its body, it does nothing. *)
Theorem ensurePixelConnected_rotates_at_most_twice
    (w : KeyRotation.World) (query : PixelSetup.result bool)
    (first second : PixelSetup.FinalizeEnv) :
  let '(r, w', evs) := PixelSetup.ensurePixelConnected w query first second in
  (PixelSetup.rotate_events evs = []
   \/ PixelSetup.rotate_events evs = [PixelSetup.EvRotate true]
   \/ exists r2, PixelSetup.rotate_events evs
                 = [PixelSetup.EvRotate false; PixelSetup.EvRotate r2])
  /\ (PixelSetup.creations evs <= 4)%nat
  /\ (query = PixelSetup.Ok true -> w' = w /\ evs = [])
  /\ (forall err, query = PixelSetup.Raise err ->
        PixelSetup.pixel_missing err = false -> w' = w /\ evs = []).
Proof.
  assert (Hfin : forall w0 e r w' evs,
    PixelSetup.finalize w0 e = (r, w', evs) ->
    (PixelSetup.rotate_events evs = []
     \/ PixelSetup.rotate_events evs = [PixelSetup.EvRotate true]
     \/ exists r2, PixelSetup.rotate_events evs
                   = [PixelSetup.EvRotate false; PixelSetup.EvRotate r2])
    /\ (PixelSetup.creations evs <= 2)%nat
    /\ (forall err, r = PixelSetup.Raise err -> PixelSetup.rotate_events evs = [])).
  { intros w0 e r w' evs Hf.
    destruct (KeyMore.finalize_spec _ _ _ _ _ Hf)
      as [(err & -> & _ & Hr & Hc)|(-> & Hc & [(_ & _ & Hr)|(_ & _ & r2 & Hr)])].
    - split; [left; exact Hr|]. split; [exact Hc|]. intros; exact Hr.
    - split; [right; left; exact Hr|]. split; [exact Hc|]. discriminate.
    - split; [right; right; eauto|]. split; [exact Hc|]. discriminate. }
  unfold PixelSetup.ensurePixelConnected.
  destruct query as [[|]|err].
  - cbn. repeat split; try lia; auto; discriminate.
  - destruct (PixelSetup.finalize w first) as [[[u|err] w1] evs1] eqn:Hf.
    + destruct (Hfin _ _ _ _ _ Hf) as (Hr & Hc & _).
      split; [exact Hr|]. split; [lia|]. split; [discriminate|]. discriminate.
    + destruct (Hfin _ _ _ _ _ Hf) as (_ & Hc & Hnil).
      specialize (Hnil err eq_refl).
      destruct (PixelSetup.pixel_missing err).
      * destruct (PixelSetup.finalize w1 second) as [[r2 w2] evs2] eqn:Hf2.
        destruct (Hfin _ _ _ _ _ Hf2) as (Hr2 & Hc2 & _).
        unfold PixelSetup.rotate_events, PixelSetup.creations in *.
        rewrite !List.filter_app, length_app, Hnil. cbn [app].
        split; [exact Hr2|]. split; [lia|]. split; discriminate.
      * split; [left; exact Hnil|]. split; [lia|]. split; discriminate.
  - destruct (PixelSetup.pixel_missing err) eqn:Hm.
    + destruct (PixelSetup.finalize w first) as [[r1 w1] evs1] eqn:Hf.
      destruct (Hfin _ _ _ _ _ Hf) as (Hr & Hc & _). cbn [app].
      split; [exact Hr|]. split; [lia|]. split; [discriminate|].
      intros err' [= <-] Hm'. congruence.
    + cbn. repeat split; try lia; auto; discriminate.
Qed.

(** X13. With the clock ahead of every stored key pair, a rotation that
    returns [true] keeps the key pair it inserted, and the lookup of the
    gateway resolves its identifier to its private key. *)
Theorem new_key_is_kept
    (w w' : KeyRotation.World) (env : KeyRotation.Env) :
  KeyAux.distinct_kids w ->
  KeyAux.clock_ahead w env ->
  KeyRotation.generatePublicKey w env = (true, w') ->
  In (KeyAux.new_key env) (Db.apiKeyPair (KeyRotation.db w'))
  /\ forall (P : Gateway.Platform) (gw : Gateway.World) (genv : Gateway.Env)
            (key : Gateway.CryptoKey),
       Gateway.db gw = KeyRotation.db w' ->
       Gateway.db_fault genv Gateway.OpKey = false ->
       Gateway.importPKCS8 P (KeyRotation.pkcs8 env) = Some key ->
       KeyRotation.cache_coherent P gw ->
       fst (Gateway.getPrivateKey P gw genv (KeyRotation.kid env)) = Done (Some key).
Proof.
  intros Hnd Hclock H.
  destruct (KeyFacts.kept_under_clock_ahead w w' env Hnd Hclock H) as (Hk & _).
  assert (Hin : In (KeyAux.new_key env) (Db.apiKeyPair (KeyRotation.db w')))
    by (apply Hk; left; reflexivity).
  split; [exact Hin|].
  intros P gw genv key Hdb Hfault Himp Hcoh.
  apply (KeyFacts.getPrivateKey_resolves P gw genv (KeyAux.new_key env) key);
    try assumption; rewrite Hdb; [|exact Hin].
  exact (proj1 (KeyMore.generatePublicKey_bound w w' env true Hnd H)).
Qed.

Lemma new_key_is_kept_witness :
  In (KeyAux.new_key (Sample.rotation (Some (KeyRotation.UpdateData []))))
     (Db.apiKeyPair (KeyRotation.db Sample.after_rotation)).
Proof.
  apply (new_key_is_kept Sample.three_keys Sample.after_rotation
           (Sample.rotation (Some (KeyRotation.UpdateData [])))).
  - apply (bool_decide_unpack _). vm_compute. exact I.
  - intros k Hk. cbn in Hk. destruct Hk as [<-|[<-|[<-|[]]]]; vm_compute; reflexivity.
  - vm_compute. reflexivity.
Defined.

(** X14. With the clock of the rotation ahead of the stored key pairs and
    no database call failing, a rotation whose push the pixel rejects with
    user errors returns [false] and deletes the key pair it inserted, but
    not before the purge: what remains is the two latest of the old key
    pairs, so of three the oldest is lost although the pixel keeps its
    key. *)
Theorem rejected_push_still_purges
    (w : KeyRotation.World) (env : KeyRotation.Env)
    (session : Db.Session) (pixelId e : string) (errs : list string) :
  KeyAux.distinct_kids w ->
  KeyAux.clock_ahead w env ->
  (forall c, KeyRotation.db_fault env c = false) ->
  Db.apiKeyPair_findUnique (KeyRotation.db w) (KeyRotation.kid env) = None ->
  Db.session_findFirst (KeyRotation.db w) = Some session ->
  KeyRotation.pixelRes env = Some (Some pixelId) ->
  KeyRotation.pixelUpdateRes env = Some (KeyRotation.UpdateData (e :: errs)) ->
  exists w',
    KeyRotation.generatePublicKey w env = (false, w')
    /\ KeyRotation.pixel_jwk w' = KeyRotation.pixel_jwk w
    /\ (forall r, In r (Db.apiKeyPair (KeyRotation.db w'))
                  <-> In r (firstn 2 (Db.sort_desc (Db.apiKeyPair (KeyRotation.db w)))))
    /\ (length (Db.apiKeyPair (KeyRotation.db w')) <= 2)%nat.
Proof.
  intros Hnd Hclock Hnofault Hfresh Hsess Hpix Hupd.
  destruct (KeyMore.purged_distinct w env Hnd Hfresh) as (_ & Hpnd & _ & Hiff).
  assert (Htop : firstn 3 (Db.sort_desc (Db.apiKeyPair (KeyRotation.db w) ++ [KeyAux.new_key env]))
                 = KeyAux.new_key env
                   :: firstn 2 (Db.sort_desc (Db.apiKeyPair (KeyRotation.db w)))).
  { rewrite KeyFacts.sort_desc_new_first by exact Hclock. reflexivity. }
  assert (Hnew : In (KeyAux.new_key env) (KeyAux.purged w env)).
  { apply Hiff. rewrite Htop. left. reflexivity. }
  destruct (KeyRotation.generatePublicKey w env) as [r w'] eqn:H.
  assert (Hr : r = false /\ KeyRotation.pixel_jwk w' = KeyRotation.pixel_jwk w
               /\ Db.apiKeyPair (KeyRotation.db w')
                  = List.filter (fun x => negb (String.eqb (Db.k_kid x) (KeyRotation.kid env)))
                      (KeyAux.purged w env)).
  { unfold KeyRotation.generatePublicKey, Db.apiKeyPair_create in H.
    cbn [Db.k_kid] in H. rewrite !Hnofault, Hfresh in H. cbn [orb] in H. cbv zeta in H.
    change (Db.session_findFirst (Db.apiKeyPair_deleteMany_notIn ?d ?l))
      with (Db.session_findFirst d) in H.
    change (Db.session_findFirst (Db.set_apiKeyPair ?d ?l))
      with (Db.session_findFirst d) in H.
    rewrite Hsess, Hpix, Hupd in H. cbn [KeyRotation.pushed KeyRotation.db KeyRotation.pixel_jwk] in H.
    unfold Db.apiKeyPair_delete in H.
    assert (Hf : Db.apiKeyPair_findUnique
                   (Db.apiKeyPair_deleteMany_notIn
                      (Db.set_apiKeyPair (KeyRotation.db w)
                         (Db.apiKeyPair (KeyRotation.db w) ++ [KeyAux.new_key env]))
                      (map Db.k_kid
                         (Db.apiKeyPair_findMany_latest
                            (Db.set_apiKeyPair (KeyRotation.db w)
                               (Db.apiKeyPair (KeyRotation.db w) ++ [KeyAux.new_key env])) 3)))
                   (KeyRotation.kid env) = Some (KeyAux.new_key env)).
    { apply (KeyFacts.findUnique_In (KeyAux.purged w env) (KeyAux.new_key env) Hpnd Hnew). }
    unfold KeyAux.new_key in Hf. rewrite Hf in H.
    injection H as <- <-. repeat split; reflexivity. }
  destruct Hr as (-> & Hjwk & Htab).
  exists w'. split; [reflexivity|]. split; [exact Hjwk|].
  assert (Hiff2 : forall r, In r (Db.apiKeyPair (KeyRotation.db w'))
                  <-> In r (firstn 2 (Db.sort_desc (Db.apiKeyPair (KeyRotation.db w))))).
  { intros r. rewrite Htab, filter_In, Hiff, Htop. cbn [In]. split.
    - intros [[<-|Hr] Hk]; [|exact Hr].
      cbn in Hk. rewrite String.eqb_refl in Hk. discriminate.
    - intros Hr. split; [right; exact Hr|].
      apply negb_true_iff, String.eqb_neq. intros Heq.
      apply (KeyFacts.findUnique_None _ _ Hfresh). rewrite <- Heq.
      apply in_map, KeyFacts.sort_desc_In.
      rewrite <- (firstn_skipn 2 (Db.sort_desc _)). apply in_or_app. left. exact Hr. }
  split; [exact Hiff2|].
  transitivity (length (firstn 2 (Db.sort_desc (Db.apiKeyPair (KeyRotation.db w)))));
    [|apply firstn_le_length].
  apply NoDup_incl_length.
  - apply NoDup_ListNoDup. eapply NoDup_fmap_1.
    rewrite Htab. apply KeyFacts.NoDup_map_filter, Hpnd.
  - intros r Hr. apply Hiff2, Hr.
Qed.

(** Over the keys of three rotations: the first is purged, the fourth
    deleted, two remain. *)
Lemma rejected_push_still_purges_witness :
  exists w',
    KeyRotation.generatePublicKey Sample.three_keys
      (Sample.rotation (Some (KeyRotation.UpdateData ["invalid"%string]))) = (false, w')
    /\ (length (Db.apiKeyPair (KeyRotation.db w')) <= 2)%nat.
Proof.
  destruct (rejected_push_still_purges Sample.three_keys
              (Sample.rotation (Some (KeyRotation.UpdateData ["invalid"%string])))
              Sample.session "gid://pixel/1" "invalid" [])
    as (w' & H & _ & _ & Hlen).
  - apply (bool_decide_unpack _). vm_compute. exact I.
  - intros k Hk. cbn in Hk. destruct Hk as [<-|[<-|[<-|[]]]]; vm_compute; reflexivity.
  - intros c. reflexivity.
  - vm_compute. reflexivity.
  - reflexivity.
  - reflexivity.
  - reflexivity.
  - exists w'. split; [exact H | exact Hlen].
Defined.

(** ** The exporter: what a run changes *)

Module ExportMore.
Import Exporter ExportAux.

Lemma marked_since_refl (d : Db.t) : marked_since d d.
Proof. exists (fun r => r). split; [symmetry; apply map_id | intros; left; reflexivity]. Qed.

Lemma mark_processed_idem (r : Db.YahooConversion) :
  Db.mark_processed (Db.mark_processed r) = Db.mark_processed r.
Proof. reflexivity. Qed.

Lemma marked_since_trans (d0 d1 d2 : Db.t) :
  marked_since d0 d1 -> marked_since d1 d2 -> marked_since d0 d2.
Proof.
  intros (f & Hf & Hfr) (g & Hg & Hgr). exists (fun r => g (f r)). split.
  - rewrite Hg, Hf, map_map. reflexivity.
  - intros r. destruct (Hfr r) as [->| ->]; [apply Hgr|].
    destruct (Hgr (Db.mark_processed r)) as [->| ->]; right; reflexivity.
Qed.

(** A record still unprocessed was in the table at the start. *)
Lemma marked_since_unprocessed (d0 d : Db.t) (r : Db.YahooConversion) :
  marked_since d0 d -> In r (Db.yahooConversion d) -> Db.c_isProcessed r = false ->
  In r (Db.yahooConversion d0).
Proof.
  intros (f & Hf & Hfr) Hin Hp. rewrite Hf in Hin. apply in_map_iff in Hin.
  destruct Hin as (r0 & <- & Hin0). destruct (Hfr r0) as [Heq|Heq]; rewrite Heq in *.
  - exact Hin0.
  - discriminate.
Qed.

Lemma eligible_unprocessed (type : string) (now expiredAt oneHourAgo : Z)
    (r : Db.YahooConversion) :
  eligible type now expiredAt oneHourAgo r = true -> Db.c_isProcessed r = false.
Proof.
  unfold eligible. intros H.
  rewrite !andb_true_iff in H. destruct H as [[[_ H] _] _].
  apply negb_true_iff in H. exact H.
Qed.

Lemma batch_since (d0 d : Db.t) (e : AccountEnv) (a : Db.YahooAdAccount)
    (r : Db.YahooConversion) :
  marked_since d0 d -> In r (batch d e a) -> In r (batch d0 e a).
Proof.
  unfold batch. intros Hm Hin. apply filter_In in Hin. destruct Hin as [Hin He].
  apply filter_In. split; [|exact He].
  eapply marked_since_unprocessed; eauto using eligible_unprocessed.
Qed.

Lemma updateMany_marks (d : Db.t) (yclids : list string) :
  let d' := Db.yahooConversion_updateMany_processed d yclids in
  Db.yahooConversion d'
  = map (fun r => if Db.mem_string (Db.c_yclid r) yclids then Db.mark_processed r else r)
        (Db.yahooConversion d)
  /\ untouched d d' /\ Db.yahooAdApplication d' = Db.yahooAdApplication d.
Proof. cbv zeta. unfold untouched. cbn. repeat split; reflexivity. Qed.

(** One account: the rows are those of the batch; the table is as it was,
    or the records with the click identifiers of the batch are marked. *)
Lemma process_account_spec (d : Db.t) (app : Db.YahooAdApplication)
    (e : AccountEnv) (a : Db.YahooAdAccount) (d' : Db.t) (req : option UploadRequest)
    (goes_on : bool) :
  process_account d app e a = (d', req, goes_on) ->
  (forall q, req = Some q ->
     rows q = map (make_row (Db.acc_type a) (Db.acc_conversionTitle a)) (batch d e a)
     /\ accountId q = Db.acc_childAccountId a
     /\ base_account_id q = Db.acc_accountId a)
  /\ (d' = d
      \/ (exists q ok body,
            req = Some q /\ upload e = UploadResponse ok body
            /\ ok = true /\ body <> MalformedJson /\ goes_on = true
            /\ d' = Db.yahooConversion_updateMany_processed d
                      (map Db.c_yclid (batch d e a)))).
Proof.
  unfold process_account, batch. intros H.
  repeat case_match; simplify_eq; split; try (intros q [= <-]; cbn; auto);
    try (intros q Hq; discriminate); try (left; reflexivity).
  all: right; eexists _, _, _; repeat split; try eassumption; try reflexivity;
    try discriminate.
  all: match goal with H : negb _ = false |- _ => apply negb_false_iff in H; exact H end.
Qed.

Lemma row_yclid_make_row (type title : string) (l : list Db.YahooConversion) :
  map row_yclid (map (make_row type title) l) = map Db.c_yclid l.
Proof. rewrite map_map. reflexivity. Qed.

Lemma uploaded_cons (q : UploadRequest) (reqs : list UploadRequest) :
  uploaded (q :: reqs) = map row_yclid (rows q) ++ uploaded reqs.
Proof. reflexivity. Qed.

(** An upload answered with an OK status and a body read without error is
    followed by the marking, unless the marking fails, which ends the run. *)
Lemma process_account_acknowledged (d : Db.t) (app : Db.YahooAdApplication)
    (e : AccountEnv) (a : Db.YahooAdAccount) (d' : Db.t) (q : UploadRequest)
    (body : UploadBody) :
  process_account d app e a = (d', Some q, true) ->
  upload e = UploadResponse true body -> body <> MalformedJson ->
  d' = Db.yahooConversion_updateMany_processed d (map Db.c_yclid (batch d e a)).
Proof.
  unfold process_account, batch. intros H Hup Hbody. rewrite Hup in H.
  repeat case_match; simplify_eq; reflexivity.
Qed.

(** The loop over the accounts. *)
Lemma process_accounts_spec (app : Db.YahooAdApplication) (env : nat -> AccountEnv)
    (accounts : list Db.YahooAdAccount) :
  forall d0 d i d' reqs,
    marked_since d0 d ->
    process_accounts d app env i accounts = (d', reqs) ->
    (exists g, Db.yahooConversion d' = map g (Db.yahooConversion d)
               /\ forall r, kept_or_marked (uploaded reqs) r (g r))
    /\ untouched d d' /\ Db.yahooAdApplication d' = Db.yahooAdApplication d
    /\ forall q row, In q reqs -> In row (rows q) ->
         exists j a r,
           accounts !! j = Some a
           /\ In r (batch d0 (env (i + j)%nat) a)
           /\ row = make_row (Db.acc_type a) (Db.acc_conversionTitle a) r
           /\ accountId q = Db.acc_childAccountId a
           /\ base_account_id q = Db.acc_accountId a.
Proof.
  induction accounts as [|a accounts IH]; intros d0 d i d' reqs Hm H.
  - injection H as <- <-. split; [|split; [|split]].
    + exists (fun r => r). split; [symmetry; apply map_id | intros; left; reflexivity].
    + repeat split.
    + reflexivity.
    + intros q row [].
  - cbn [process_accounts] in H.
    destruct (process_account d app (env i) a) as [[d1 req] goes_on] eqn:Hone.
    destruct (if goes_on then process_accounts d1 app env (S i) accounts else (d1, []))
      as [d2 reqs2] eqn:Hrest.
    injection H as <- <-.
    destruct (process_account_spec _ _ _ _ _ _ _ Hone) as (Hrows & Hd1).
    (* the step of this account, as a function on the records *)
    assert (Hstep : exists f,
              Db.yahooConversion d1 = map f (Db.yahooConversion d)
              /\ (forall r, f r = r
                            \/ (f r = Db.mark_processed r
                                /\ exists q, req = Some q
                                             /\ In (Db.c_yclid r) (map row_yclid (rows q))))
              /\ untouched d d1 /\ Db.yahooAdApplication d1 = Db.yahooAdApplication d).
    { destruct Hd1 as [->|(q & ok & body & -> & _ & _ & _ & _ & ->)].
      - exists (fun r => r). split; [symmetry; apply map_id|].
        split; [intros; left; reflexivity|]. repeat split.
      - destruct (updateMany_marks d (map Db.c_yclid (batch d (env i) a)))
          as (Hc & Hu & Ha).
        eexists. split; [exact Hc|]. split; [|split; assumption].
        intros r. cbn beta.
        destruct (Db.mem_string (Db.c_yclid r) _) eqn:Hmem; [|left; reflexivity].
        right. split; [reflexivity|]. exists q. split; [reflexivity|].
        destruct (Hrows q eq_refl) as (-> & _). rewrite row_yclid_make_row.
        apply KeyFacts.mem_string_In. exact Hmem. }
    destruct Hstep as (f & Hf & Hfr & Hu1 & Ha1).
    assert (Hm1 : marked_since d0 d1).
    { eapply marked_since_trans; [exact Hm|].
      exists f. split; [exact Hf|]. intros r. destruct (Hfr r) as [?|[? _]]; auto. }
    assert (Hnext : (exists g, Db.yahooConversion d2 = map g (Db.yahooConversion d1)
                               /\ forall r, kept_or_marked (uploaded reqs2) r (g r))
                    /\ untouched d1 d2
                    /\ Db.yahooAdApplication d2 = Db.yahooAdApplication d1
                    /\ forall q row, In q reqs2 -> In row (rows q) ->
                         exists j a r,
                           accounts !! j = Some a
                           /\ In r (batch d0 (env (S i + j)%nat) a)
                           /\ row = make_row (Db.acc_type a) (Db.acc_conversionTitle a) r
                           /\ accountId q = Db.acc_childAccountId a
                           /\ base_account_id q = Db.acc_accountId a).
    { destruct goes_on; [exact (IH d0 d1 (S i) d2 reqs2 Hm1 Hrest)|].
      injection Hrest as <- <-. split; [|split; [|split]].
      - exists (fun r => r). split; [symmetry; apply map_id | intros; left; reflexivity].
      - repeat split.
      - reflexivity.
      - intros q row []. }
    destruct Hnext as ((g & Hg & Hgr) & Hu2 & Ha2 & Hrows2).
    split; [|split; [|split]].
    + exists (fun r => g (f r)). split; [rewrite Hg, Hf, map_map; reflexivity|].
      intros r. unfold kept_or_marked.
      assert (Hsub : forall y, In y (uploaded reqs2) ->
                In y (uploaded match req with Some q => q :: reqs2 | None => reqs2 end)).
      { intros y Hy. destruct req; [rewrite uploaded_cons; apply in_or_app; right|]; exact Hy. }
      destruct (Hfr r) as [->|(-> & q & -> & Hq)].
      * destruct (Hgr r) as [->|(-> & Hy)]; [left; reflexivity|right; split; auto].
      * right. split.
        -- destruct (Hgr (Db.mark_processed r)) as [->|(-> & _)]; reflexivity.
        -- rewrite uploaded_cons. apply in_or_app. left. exact Hq.
    + destruct Hu1 as (? & ? & ? & ?), Hu2 as (? & ? & ? & ?).
      unfold untouched. repeat split; congruence.
    + congruence.
    + intros q row Hq Hrow.
      assert (Hlater : In q reqs2 -> exists j a0 r,
                (a :: accounts) !! j = Some a0
                /\ In r (batch d0 (env (i + j)%nat) a0)
                /\ row = make_row (Db.acc_type a0) (Db.acc_conversionTitle a0) r
                /\ accountId q = Db.acc_childAccountId a0
                /\ base_account_id q = Db.acc_accountId a0).
      { intros Hq2. destruct (Hrows2 q row Hq2 Hrow) as (j & a0 & r & Hj & Hr & ? & ? & ?).
        exists (S j), a0, r. replace (i + S j)%nat with (S i + j)%nat by lia.
        repeat split; assumption. }
      destruct req as [q1|]; [|exact (Hlater Hq)].
      destruct Hq as [<-|Hq]; [|exact (Hlater Hq)].
      destruct (Hrows q1 eq_refl) as (Hr1 & Hacc & Hbase).
      rewrite Hr1 in Hrow. apply in_map_iff in Hrow. destruct Hrow as (r & <- & Hr).
      exists 0%nat, a, r. rewrite Nat.add_0_r.
      repeat split; try assumption. exact (batch_since d0 d _ _ _ Hm Hr).
Qed.

(** [getYahooAdToken] and the update of the credential leave the other
    tables as they were. *)
Lemma yahooAdApplication_update_others (d d' : Db.t) (clientId : string)
    (f : Db.YahooAdApplication -> Db.YahooAdApplication) :
  Db.yahooAdApplication_update d clientId f = Some d' ->
  untouched d d' /\ Db.yahooConversion d' = Db.yahooConversion d.
Proof.
  unfold Db.yahooAdApplication_update. destruct (existsb _ _); [|discriminate].
  intros [= <-]. unfold untouched. cbn. repeat split.
Qed.

Lemma getYahooAdToken_others (d d' : Db.t) (now : Z) (endpoint : option TokenResponse)
    (app : Db.YahooAdApplication) (isRefresh : bool) (tok : string) :
  getYahooAdToken d now endpoint app isRefresh = (tok, d') ->
  untouched d d' /\ Db.yahooConversion d' = Db.yahooConversion d.
Proof.
  unfold getYahooAdToken. intros H.
  destruct (isRefresh && falsy (Db.app_refreshToken app));
    [injection H as _ <-; unfold untouched; repeat split|].
  destruct endpoint as [resp|]; [|injection H as _ <-; unfold untouched; repeat split].
  destruct (Db.yahooAdApplication_update _ _ _) as [d1|] eqn:Hup;
    [|injection H as _ <-; unfold untouched; repeat split].
  injection H as _ <-. eapply yahooAdApplication_update_others; eauto.
Qed.

(** A run. *)
Lemma createCsvAndImportToYahoo_spec
    (getYahooAdApplication : Db.t -> option Db.YahooAdApplication)
    (d d' : Db.t) (env : Env) (reqs : list UploadRequest) :
  createCsvAndImportToYahoo getYahooAdApplication d env = (d', reqs) ->
  (exists g, Db.yahooConversion d' = map g (Db.yahooConversion d)
             /\ forall r, kept_or_marked (uploaded reqs) r (g r))
  /\ untouched d d'
  /\ forall q row, In q reqs -> In row (rows q) ->
       exists j a r,
         Db.yahooAdAccount d !! j = Some a
         /\ In r (batch d (account_env env j) a)
         /\ row = make_row (Db.acc_type a) (Db.acc_conversionTitle a) r
         /\ accountId q = Db.acc_childAccountId a
         /\ base_account_id q = Db.acc_accountId a.
Proof.
  unfold createCsvAndImportToYahoo. intros H.
  assert (Hnone : forall d1,
            untouched d d1 /\ Db.yahooConversion d1 = Db.yahooConversion d ->
            (d1, @nil UploadRequest) = (d', reqs) ->
            (exists g, Db.yahooConversion d' = map g (Db.yahooConversion d)
                       /\ forall r, kept_or_marked (uploaded reqs) r (g r))
            /\ untouched d d'
            /\ forall q row, In q reqs -> In row (rows q) ->
                 exists j a r,
                   Db.yahooAdAccount d !! j = Some a
                   /\ In r (batch d (account_env env j) a)
                   /\ row = make_row (Db.acc_type a) (Db.acc_conversionTitle a) r
                   /\ accountId q = Db.acc_childAccountId a
                   /\ base_account_id q = Db.acc_accountId a).
  { intros d1 (Hu & Hc) [= <- <-]. split; [|split; [exact Hu|intros q row []]].
    exists (fun r => r). split; [rewrite Hc; symmetry; apply map_id|].
    intros; left; reflexivity. }
  assert (Hsame : untouched d d /\ Db.yahooConversion d = Db.yahooConversion d)
    by (unfold untouched; repeat split).
  destruct (getYahooAdApplication d) as [app|]; [|exact (Hnone d Hsame H)].
  unfold getYahooAdAccounts in H.
  destruct (Db.yahooAdAccount d) as [|a0 accounts0] eqn:Hacc; [exact (Hnone d Hsame H)|].
  destruct (getYahooAdToken d (token_now env) (token_endpoint env) app true)
    as [tok d1] eqn:Htok.
  pose proof (getYahooAdToken_others _ _ _ _ _ _ _ Htok) as (Hu1 & Hc1).
  destruct (String.eqb tok EmptyString); [exact (Hnone d1 (conj Hu1 Hc1) H)|].
  destruct (Db.yahooAdApplication_update d1 _ _) as [d2|] eqn:Hup;
    [|exact (Hnone d1 (conj Hu1 Hc1) H)].
  pose proof (yahooAdApplication_update_others _ _ _ _ Hup) as (Hu2 & Hc2).
  assert (Hm : marked_since d d2).
  { exists (fun r => r). split; [rewrite Hc2, Hc1; symmetry; apply map_id|].
    intros; left; reflexivity. }
  destruct (process_accounts_spec _ _ _ _ _ _ _ _ Hm H)
    as ((g & Hg & Hgr) & Hu3 & _ & Hrows).
  split; [|split].
  - exists g. split; [rewrite Hg, Hc2, Hc1; reflexivity | exact Hgr].
  - destruct Hu1 as (? & ? & ? & ?), Hu2 as (? & ? & ? & ?), Hu3 as (? & ? & ? & ?).
    unfold untouched. repeat split; congruence.
  - intros q row Hq Hrow. apply (Hrows q row Hq Hrow).
Qed.

Lemma Forall2_map_rel {A : Type} (R : A -> A -> Prop) (g : A -> A) (l : list A) :
  (forall r, R r (g r)) -> Forall2 R l (map g l).
Proof. intros H. induction l; cbn; constructor; auto. Qed.

End ExportMore.

(** X15. A run of the exporter creates and deletes no conversion record and
    changes none but by marking it processed, and it marks a record only if
    an upload of the run carried its click identifier; the sessions, the key
    pairs, the nonces and the accounts are as they were. *)
Theorem export_only_marks_uploaded
    (getYahooAdApplication : Db.t -> option Db.YahooAdApplication)
    (d : Db.t) (env : Exporter.Env) :
  let '(d', reqs) := Exporter.createCsvAndImportToYahoo getYahooAdApplication d env in
  Forall2 (ExportAux.kept_or_marked (ExportAux.uploaded reqs))
          (Db.yahooConversion d) (Db.yahooConversion d')
  /\ ExportAux.untouched d d'.
Proof.
  destruct (Exporter.createCsvAndImportToYahoo getYahooAdApplication d env)
    as [d' reqs] eqn:H.
  destruct (ExportMore.createCsvAndImportToYahoo_spec _ _ _ _ _ H)
    as ((g & Hg & Hgr) & Hu & _).
  split; [|exact Hu]. rewrite Hg. apply ExportMore.Forall2_map_rel. exact Hgr.
Qed.

(** X16. Every row a run uploads is the row of a record that was in the
    table at the start of the run, unprocessed, with the prefix of the
    account's type and inside both windows of the account at the clock
    reading of the account's turn; the request is addressed to that
    account. *)
Theorem uploaded_rows_come_from_the_batch
    (getYahooAdApplication : Db.t -> option Db.YahooAdApplication)
    (d : Db.t) (env : Exporter.Env) :
  let '(d', reqs) := Exporter.createCsvAndImportToYahoo getYahooAdApplication d env in
  forall q row, In q reqs -> In row (Exporter.rows q) ->
    exists j a r,
      Db.yahooAdAccount d !! j = Some a
      /\ In r (Db.yahooConversion d)
      /\ Db.c_isProcessed r = false
      /\ Exporter.eligible (Db.acc_type a) (Exporter.now (Exporter.account_env env j))
           (Exporter.now (Exporter.account_env env j)
            - Db.acc_duration a * 24 * 60 * 60 * 1000)
           (Exporter.now (Exporter.account_env env j) - 1 * 60 * 60 * 1000) r = true
      /\ row = Exporter.make_row (Db.acc_type a) (Db.acc_conversionTitle a) r
      /\ Exporter.accountId q = Db.acc_childAccountId a
      /\ Exporter.base_account_id q = Db.acc_accountId a.
Proof.
  destruct (Exporter.createCsvAndImportToYahoo getYahooAdApplication d env)
    as [d' reqs] eqn:H.
  destruct (ExportMore.createCsvAndImportToYahoo_spec _ _ _ _ _ H) as (_ & _ & Hrows).
  intros q row Hq Hrow.
  destruct (Hrows q row Hq Hrow) as (j & a & r & Hj & Hr & Hmk & Hacc & Hbase).
  exists j, a, r. unfold Exporter.batch in Hr. apply filter_In in Hr.
  destruct Hr as [Hin He].
  repeat split; try assumption. eapply ExportMore.eligible_unprocessed; eauto.
Qed.

(** The prefix of the click identifier is matched without regard to the
    case of its letters: a record whose identifier starts with [yss] is in
    the batch of a search account. *)
Example lower_case_prefix_is_exported :
  Exporter.like_prefix "YSS" "yss.1.lower" = true
  /\ map Db.c_yclid
       (Exporter.batch
          (Db.set_yahooConversion Sample.export_db
             [Sample.conversion "yss.1.lower" "125" (Sample.export_time - Sample.day);
              Sample.conversion "YJAD.1.other" "126" (Sample.export_time - Sample.day)])
          (Exporter.account_env (Sample.export_env Exporter.UploadFailed) 0%nat)
          Sample.search_account)
     = ["yss.1.lower"%string].
Proof. vm_compute. split; reflexivity. Qed.

(** What ends a run: a marking that fails after an acknowledged upload, and
    a look-back that takes the start of the window outside the range of
    dates; the batch stays unmarked. *)
Example errors_that_end_the_run :
  let turn fault :=
    {| Exporter.now := Sample.export_time; Exporter.findMany_fault := false;
       Exporter.upload := Exporter.UploadResponse true Exporter.TextBody;
       Exporter.updateMany_fault := fault |} in
  let far_back :=
    {| Db.acc_type := "search"; Db.acc_accountId := "base-1";
       Db.acc_childAccountId := "child-1"; Db.acc_duration := 200000000;
       Db.acc_conversionTitle := "purchase" |} in
  (let '(d, req, goes_on) :=
     Exporter.process_account Sample.export_db Sample.application (turn true)
       Sample.search_account in
   d = Sample.export_db /\ is_Some req /\ goes_on = false)
  /\ (let '(d, req, goes_on) :=
        Exporter.process_account Sample.export_db Sample.application (turn false) far_back in
      d = Sample.export_db /\ req = None /\ goes_on = false).
Proof. vm_compute. repeat split; eauto. Qed.

(** X17. After an upload answered with an OK status and a body read without
    error, when the marking that follows has not failed, no record with a
    click identifier of the uploaded rows is in the batch of any account
    again, at any clock reading.  A marking that fails ends the run and
    leaves the table as it was. *)
Theorem acknowledged_batch_leaves_queue
    (d d' : Db.t) (app : Db.YahooAdApplication) (e : Exporter.AccountEnv)
    (a : Db.YahooAdAccount) (q : Exporter.UploadRequest) (body : Exporter.UploadBody)
    (goes_on : bool) :
  Exporter.process_account d app e a = (d', Some q, goes_on) ->
  Exporter.upload e = Exporter.UploadResponse true body ->
  body <> Exporter.MalformedJson ->
  (goes_on = true ->
   Exporter.updateMany_fault e = false
   /\ forall e' a' r,
        In r (Exporter.batch d' e' a') ->
        ~ In (Db.c_yclid r) (map Exporter.row_yclid (Exporter.rows q)))
  /\ (goes_on = false -> Exporter.updateMany_fault e = true /\ d' = d).
Proof.
  intros H Hup Hbody. split.
  - intros ->. split.
    { revert H. unfold Exporter.process_account. rewrite Hup.
      repeat case_match; intros; simplify_eq; reflexivity. }
    intros e' a' r Hr Hy.
    destruct (ExportMore.process_account_spec _ _ _ _ _ _ _ H) as (Hrows & _).
    destruct (Hrows q eq_refl) as (Hq & _).
    rewrite Hq, ExportMore.row_yclid_make_row in Hy.
    rewrite (ExportMore.process_account_acknowledged _ _ _ _ _ _ _ H Hup Hbody) in Hr.
    unfold Exporter.batch in Hr. apply filter_In in Hr. destruct Hr as [Hin He].
    apply ExportMore.eligible_unprocessed in He.
    cbn in Hin. apply in_map_iff in Hin. destruct Hin as (r0 & Hr0 & _).
    destruct (Db.mem_string (Db.c_yclid r0) _) eqn:Hmem.
    + subst r. discriminate.
    + subst r. apply KeyFacts.mem_string_In in Hy. unfold Exporter.batch in Hy.
      cbn in Hmem, Hy. congruence.
  - intros ->. revert H. unfold Exporter.process_account. rewrite Hup.
    repeat case_match; intros; simplify_eq; split; reflexivity.
Qed.

(** The upload of the sample run, acknowledged. *)
Lemma acknowledged_batch_leaves_queue_witness :
  Forall (fun r => Db.c_yclid r <> "YSS.1.in"%string)
    (Exporter.batch
       (fst (fst (Exporter.process_account Sample.export_db Sample.application
                    {| Exporter.now := Sample.export_time;
                       Exporter.findMany_fault := false;
                       Exporter.upload := Exporter.UploadResponse true Exporter.TextBody;
                       Exporter.updateMany_fault := false |}
                    Sample.search_account)))
       {| Exporter.now := Sample.export_time + 60000;
          Exporter.findMany_fault := false;
          Exporter.upload := Exporter.UploadFailed;
          Exporter.updateMany_fault := false |}
       Sample.search_account).
Proof.
  apply Forall_forall. intros r Hr Heq. apply list_elem_of_In in Hr.
  destruct (Exporter.process_account Sample.export_db Sample.application
              {| Exporter.now := Sample.export_time;
                 Exporter.findMany_fault := false;
                 Exporter.upload := Exporter.UploadResponse true Exporter.TextBody;
                 Exporter.updateMany_fault := false |}
              Sample.search_account) as [[d' [q|]] goes_on] eqn:H.
  - destruct goes_on; [|vm_compute in H; discriminate].
    destruct (acknowledged_batch_leaves_queue Sample.export_db d' Sample.application _
                Sample.search_account q Exporter.TextBody true H eq_refl) as [Hon _].
    + discriminate.
    + destruct (Hon eq_refl) as [_ Hno]. apply (Hno _ _ r Hr).
      vm_compute in H. injection H as _ <-. cbn. left. symmetry. exact Heq.
  - vm_compute in H. discriminate.
Defined.

(** X18. A run that gets no token uploads nothing and marks nothing: when
    the credential has no refresh token, when the token request fails or is
    answered with a status that is not OK, and when the answer carries an
    empty token. *)
Theorem no_token_no_upload
    (getYahooAdApplication : Db.t -> option Db.YahooAdApplication)
    (d : Db.t) (env : Exporter.Env) (app : Db.YahooAdApplication) :
  getYahooAdApplication d = Some app ->
  Exporter.falsy (Db.app_refreshToken app) = true
  \/ Exporter.token_endpoint env = None
  \/ (exists response, Exporter.token_endpoint env = Some response
                       /\ Exporter.access_token response = EmptyString) ->
  snd (Exporter.createCsvAndImportToYahoo getYahooAdApplication d env) = []
  /\ Db.yahooConversion (fst (Exporter.createCsvAndImportToYahoo getYahooAdApplication d env))
     = Db.yahooConversion d.
Proof.
  intros Happ Hcase. unfold Exporter.createCsvAndImportToYahoo. rewrite Happ.
  destruct (Exporter.getYahooAdAccounts d) as [accounts|]; [|split; reflexivity].
  destruct (Exporter.getYahooAdToken d (Exporter.token_now env) (Exporter.token_endpoint env)
              app true) as [tok d1] eqn:Htok.
  pose proof (ExportMore.getYahooAdToken_others _ _ _ _ _ _ _ Htok) as (_ & Hc).
  assert (Hempty : tok = EmptyString).
  { unfold Exporter.getYahooAdToken in Htok. cbn [andb] in Htok.
    destruct Hcase as [Hf|[Hn|(resp & Hr & He)]].
    - rewrite Hf in Htok. injection Htok as <- _. reflexivity.
    - rewrite Hn in Htok. destruct (Exporter.falsy _); injection Htok as <- _; reflexivity.
    - rewrite Hr in Htok. destruct (Exporter.falsy _); [injection Htok as <- _; reflexivity|].
      destruct (Db.yahooAdApplication_update _ _ _); injection Htok as <- _;
        [exact He | reflexivity]. }
  rewrite Hempty. cbn. split; [reflexivity | exact Hc].
Qed.

(** The run of the sample with the token request failing. *)
Lemma no_token_no_upload_witness :
  snd (Exporter.createCsvAndImportToYahoo Exporter.getYahooAdApplication Sample.export_db
         {| Exporter.token_now := Sample.export_time; Exporter.token_endpoint := None;
            Exporter.account_env :=
              Exporter.account_env (Sample.export_env Exporter.UploadFailed) |}) = [].
Proof.
  apply (no_token_no_upload Exporter.getYahooAdApplication Sample.export_db _ Sample.application).
  - reflexivity.
  - right. left. reflexivity.
Defined.

(** ** Retention *)

Module RetentionMore.

Lemma filter_filter_implied {A : Type} (f g : A -> bool) (l : list A) :
  (forall x, f x = true -> g x = true) ->
  List.filter f (List.filter g l) = List.filter f l.
Proof.
  intros H. induction l as [|x l IH]; [reflexivity|]. cbn.
  destruct (g x) eqn:Hg; cbn.
  - rewrite IH. reflexivity.
  - destruct (f x) eqn:Hf; [|exact IH]. apply H in Hf. congruence.
Qed.

(** The window of [checkPow]. *)
Lemma checkPow_window (now : Z) (b64 : option jsstr) :
  Gateway.checkPow now b64 = true ->
  exists b minTime,
    b64 = Some b
    /\ Gateway.minTime_of (Js.utf8_decode (Js.Buffer_from_base64 b)) = Some minTime
    /\ Z.abs (now - minTime) <= Gateway.POW_VALID_MS.
Proof.
  unfold Gateway.checkPow. destruct b64 as [[|c b]|]; try discriminate.
  destruct (Gateway.minTime_of _) as [minTime|] eqn:Hm; [|discriminate].
  destruct (Z.ltb_spec Gateway.POW_VALID_MS (Z.abs (now - minTime))); [discriminate|].
  intros _. exists (c :: b), minTime. repeat split; [exact Hm | lia].
Qed.

End RetentionMore.

(** X19. The daily deletion takes nothing from the exporter: run at a clock
    reading not after that of an account's turn, it leaves the batch of every
    account whose look-back is at most 90 days as it was. *)
Theorem retention_spares_exportable
    (fault : bool) (now : Z) (d : Db.t) (e : Exporter.AccountEnv)
    (a : Db.YahooAdAccount) :
  now <= Exporter.now e ->
  Db.acc_duration a <= 90 ->
  Exporter.batch (Retention.deleteExpiredRecords fault now d) e a = Exporter.batch d e a.
Proof.
  intros Hnow Hdur. unfold Retention.deleteExpiredRecords, Exporter.batch.
  destruct fault; [reflexivity|]. cbn [Db.yahooConversion Db.set_yahooConversion].
  apply RetentionMore.filter_filter_implied. intros r He.
  unfold Exporter.eligible in He. rewrite !andb_true_iff in He.
  destruct He as [[[[_ Hv] _] _] _].
  unfold Retention.visited_before. destruct (Db.c_visitedAt r) as [v|]; [|reflexivity].
  apply andb_true_iff in Hv. destruct Hv as [Hv _]. apply Z.leb_le in Hv.
  apply negb_true_iff, Z.ltb_ge. lia.
Qed.

Lemma retention_spares_exportable_witness :
  Exporter.batch (Retention.deleteExpiredRecords false Sample.export_time Sample.export_db)
    (Exporter.account_env (Sample.export_env Exporter.UploadFailed) 0%nat)
    Sample.search_account
  = Exporter.batch Sample.export_db
      (Exporter.account_env (Sample.export_env Exporter.UploadFailed) 0%nat)
      Sample.search_account.
Proof.
  apply (retention_spares_exportable false Sample.export_time Sample.export_db).
  - cbn. lia.
  - cbn. lia.
Defined.

(** X20. The cleanup of the nonces opens no replay: a nonce received no
    earlier than a clock reading at which its request's token passed
    [checkPow] survives every cleanup run up to any clock reading at which
    that token still passes, so the gateway still refuses it as a
    duplicate. *)
Theorem replay_outlives_cleanup
    (receivedAt : string -> Z) (fault : bool) (now t0 t1 : Z) (d : Db.t)
    (n : string) (b64 : option jsstr) :
  Gateway.checkPow t0 b64 = true ->
  Gateway.checkPow t1 b64 = true ->
  t0 <= receivedAt n ->
  now <= t1 ->
  n ∈ Db.pixelNonce d ->
  Db.pixelNonce_create (Retention.cleanUpPixelNonce receivedAt fault now d) n = None.
Proof.
  intros H0 H1 Hrec Hnow Hin.
  destruct (RetentionMore.checkPow_window _ _ H0) as (b & m & -> & Hm & Hw0).
  destruct (RetentionMore.checkPow_window _ _ H1) as (b' & m' & [= <-] & Hm' & Hw1).
  rewrite Hm in Hm'. injection Hm' as <-.
  unfold Gateway.POW_VALID_MS in *.
  unfold Db.pixelNonce_create. rewrite bool_decide_eq_true_2; [reflexivity|].
  unfold Retention.cleanUpPixelNonce. destruct fault; [exact Hin|].
  cbn [Db.pixelNonce Db.set_pixelNonce]. apply elem_of_filter. split; [lia | exact Hin].
Qed.

(** The token of the scenarios, a minute and two minutes after its minute,
    with a cleanup in between. *)
Lemma replay_outlives_cleanup_witness :
  Db.pixelNonce_create
    (Retention.cleanUpPixelNonce Sample2.receivedAt false (Sample.clock + 60000)
       Sample2.db_with_nonce) "n1" = None.
Proof.
  apply (replay_outlives_cleanup Sample2.receivedAt false (Sample.clock + 60000)
           Sample.clock (Sample.clock + 60000) Sample2.db_with_nonce "n1"
           (Some Sample.token)).
  - vm_compute. reflexivity.
  - vm_compute. reflexivity.
  - vm_compute. discriminate.
  - lia.
  - unfold Sample2.db_with_nonce. cbn [Db.pixelNonce Db.set_pixelNonce].
    apply elem_of_singleton_2. reflexivity.
Defined.

(** ** The OAuth callback *)

Module CallbackMore.
Import OAuthCallback.

(** An update that keeps the identifiers finds its row, before and after. *)
Lemma update_find (d d' : Db.t) (clientId : string)
    (f : Db.YahooAdApplication -> Db.YahooAdApplication) :
  (forall a, Db.app_clientId (f a) = Db.app_clientId a) ->
  Db.yahooAdApplication_update d clientId f = Some d' ->
  exists a,
    List.find (fun a => String.eqb (Db.app_clientId a) clientId) (Db.yahooAdApplication d)
    = Some a
    /\ List.find (fun a => String.eqb (Db.app_clientId a) clientId)
         (Db.yahooAdApplication d')
       = Some (f a).
Proof.
  intros Hid. unfold Db.yahooAdApplication_update.
  destruct (existsb _ _) eqn:Hex; [|discriminate]. intros [= <-].
  cbn [Db.yahooAdApplication Db.set_yahooAdApplication].
  induction (Db.yahooAdApplication d) as [|x l IH]; [discriminate|].
  cbn in Hex |- *. destruct (String.eqb (Db.app_clientId x) clientId) eqn:Hx.
  - rewrite Hid, Hx. exists x. split; reflexivity.
  - rewrite Hx. cbn in Hex. apply IH, Hex.
Qed.

Lemma set_code_clientId (code : string) (a : Db.YahooAdApplication) :
  Db.app_clientId (set_code code a) = Db.app_clientId a.
Proof. reflexivity. Qed.

End CallbackMore.

(** X21. Without the [state] stored for the credential the callback does
    nothing: a request whose [state] differs from it is rejected with one of
    the codes 1 to 4, and the database is as it was: no code is stored and
    no token is requested. *)
Theorem callback_needs_matching_state
    (getYahooAdApplication : Db.t -> option (Db.YahooAdApplication * option string))
    (d : Db.t) (now : Z) (endpoint : option Exporter.TokenResponse)
    (request : OAuthCallback.Request) :
  (forall app stored, getYahooAdApplication d = Some (app, stored) ->
                      OAuthCallback.state request <> stored) ->
  snd (OAuthCallback.loader getYahooAdApplication d now endpoint request) = d
  /\ exists c, fst (OAuthCallback.loader getYahooAdApplication d now endpoint request)
               = OAuthCallback.Rejected c
               /\ 1 <= c <= 4.
Proof.
  intros Hstate. unfold OAuthCallback.loader.
  destruct (negb (String.eqb (OAuthCallback.method request) "GET"));
    [split; [reflexivity | exists 1; split; [reflexivity | lia]]|].
  destruct (OAuthCallback.state request) as [st|] eqn:Hst;
    [|split; [reflexivity | exists 2; split; [reflexivity | lia]]].
  destruct (OAuthCallback.code request) as [c|];
    [|split; [reflexivity | exists 2; split; [reflexivity | lia]]].
  destruct (String.eqb st EmptyString || String.eqb c EmptyString);
    [split; [reflexivity | exists 2; split; [reflexivity | lia]]|].
  destruct (getYahooAdApplication d) as [[app stored]|] eqn:Happ;
    [|split; [reflexivity | exists 3; split; [reflexivity | lia]]].
  rewrite bool_decide_eq_false_2 by (apply (Hstate app stored eq_refl)).
  cbn. split; [reflexivity | exists 4; split; [reflexivity | lia]].
Qed.

Lemma callback_needs_matching_state_witness :
  snd (OAuthCallback.loader Sample2.credential_with_state Sample.export_db
         Sample.export_time (Some Sample2.tokens) (Sample2.callback "forged"))
  = Sample.export_db.
Proof.
  apply (callback_needs_matching_state Sample2.credential_with_state Sample.export_db
           Sample.export_time (Some Sample2.tokens) (Sample2.callback "forged")).
  intros app stored H. vm_compute in H. injection H as _ <-. discriminate.
Defined.

(** X22. When the callback answers with the completion page, the request
    carried the stored [state] and a code, the token endpoint answered with
    a token that is not empty, and the row of the credential holds that
    code, the access and refresh tokens of the answer, and the clock reading
    as the time of the token. *)
Theorem callback_completed_stores_tokens
    (getYahooAdApplication : Db.t -> option (Db.YahooAdApplication * option string))
    (d : Db.t) (now : Z) (endpoint : option Exporter.TokenResponse)
    (request : OAuthCallback.Request) :
  fst (OAuthCallback.loader getYahooAdApplication d now endpoint request)
  = OAuthCallback.Completed ->
  exists app st c response row,
    getYahooAdApplication d = Some (app, Some st)
    /\ OAuthCallback.state request = Some st /\ st <> EmptyString
    /\ OAuthCallback.code request = Some c /\ c <> EmptyString
    /\ endpoint = Some response
    /\ Exporter.access_token response <> EmptyString
    /\ List.find (fun a => String.eqb (Db.app_clientId a) (Db.app_clientId app))
         (Db.yahooAdApplication
            (snd (OAuthCallback.loader getYahooAdApplication d now endpoint request)))
       = Some row
    /\ Db.app_code row = Some c
    /\ Db.app_accessToken row = Some (Exporter.access_token response)
    /\ Db.app_refreshToken row = Some (Exporter.refresh_token response)
    /\ Db.app_tokenCreatedAt row = Some now.
Proof.
  unfold OAuthCallback.loader.
  destruct (negb (String.eqb (OAuthCallback.method request) "GET")); [discriminate|].
  destruct (OAuthCallback.state request) as [st|]; [|discriminate].
  destruct (OAuthCallback.code request) as [c|]; [|discriminate].
  destruct (String.eqb st EmptyString) eqn:Hst; [discriminate|].
  destruct (String.eqb c EmptyString) eqn:Hc; [discriminate|]. cbn [orb].
  destruct (getYahooAdApplication d) as [[app stored]|]; [|discriminate].
  destruct (bool_decide (Some st = stored)) eqn:Hdec; [|discriminate].
  apply bool_decide_eq_true_1 in Hdec. subst stored. cbn [negb].
  destruct (Db.yahooAdApplication_update d (Db.app_clientId app) (OAuthCallback.set_code c))
    as [d1|] eqn:Hup; [|discriminate].
  destruct (CallbackMore.update_find _ _ _ _ (CallbackMore.set_code_clientId c) Hup)
    as (a0 & Hf0 & Hf1).
  rewrite Hf1.
  assert (Hid : Db.app_clientId (OAuthCallback.set_code c a0) = Db.app_clientId app).
  { apply find_some in Hf0. destruct Hf0 as [_ He]. apply String.eqb_eq in He. exact He. }
  unfold Exporter.getYahooAdToken. cbn [andb].
  destruct endpoint as [response|]; [|discriminate].
  rewrite Hid.
  destruct (Db.yahooAdApplication_update d1 (Db.app_clientId app) _) as [d2|] eqn:Hup2;
    [|discriminate].
  destruct (String.eqb (Exporter.access_token response) EmptyString) eqn:Htok;
    [discriminate|].
  intros _. cbn [snd].
  match type of Hup2 with
  | Db.yahooAdApplication_update _ _ ?f = _ =>
      destruct (CallbackMore.update_find d1 d2 (Db.app_clientId app) f
                  (fun a => eq_refl) Hup2) as (a1 & Hg1 & Hg2)
  end.
  rewrite Hf1 in Hg1. injection Hg1 as <-.
  eexists app, st, c, response, _.
  split; [reflexivity|]. split; [reflexivity|].
  split; [apply String.eqb_neq, Hst|]. split; [reflexivity|].
  split; [apply String.eqb_neq, Hc|]. split; [reflexivity|].
  split; [apply String.eqb_neq, Htok|]. split; [exact Hg2|].
  cbn. repeat split; reflexivity.
Qed.

Lemma callback_completed_stores_tokens_witness :
  exists row,
    List.find (fun a => String.eqb (Db.app_clientId a) "client")
      (Db.yahooAdApplication
         (snd (OAuthCallback.loader Sample2.credential_with_state Sample.export_db
                 Sample.export_time (Some Sample2.tokens) (Sample2.callback "issued"))))
    = Some row
    /\ Db.app_code row = Some "code-2"%string.
Proof.
  destruct (callback_completed_stores_tokens Sample2.credential_with_state Sample.export_db
              Sample.export_time (Some Sample2.tokens) (Sample2.callback "issued"))
    as (app & st & c & response & row & Happ & _ & _ & Hc & _ & _ & _ & Hfind & Hcode & _).
  - vm_compute. reflexivity.
  - vm_compute in Happ. injection Happ as <- _. injection Hc as <-.
    exists row. split; [exact Hfind | exact Hcode].
Defined.

(** X23. The callback never answers with error code 5: the update of the
    credential either fails, which is answered as an internal error, or
    gives the updated row. *)
Theorem callback_never_answers_5
    (getYahooAdApplication : Db.t -> option (Db.YahooAdApplication * option string))
    (d : Db.t) (now : Z) (endpoint : option Exporter.TokenResponse)
    (request : OAuthCallback.Request) :
  fst (OAuthCallback.loader getYahooAdApplication d now endpoint request)
  <> OAuthCallback.Rejected 5.
Proof.
  unfold OAuthCallback.loader.
  destruct (negb (String.eqb (OAuthCallback.method request) "GET")); [discriminate|].
  destruct (OAuthCallback.state request) as [st|]; [|discriminate].
  destruct (OAuthCallback.code request) as [c|]; [|discriminate].
  destruct (String.eqb st EmptyString || String.eqb c EmptyString); [discriminate|].
  destruct (getYahooAdApplication d) as [[app stored]|]; [|discriminate].
  destruct (negb (bool_decide (Some st = stored))); [discriminate|].
  destruct (Db.yahooAdApplication_update d (Db.app_clientId app) (OAuthCallback.set_code c))
    as [d1|] eqn:Hup; [|discriminate].
  destruct (CallbackMore.update_find _ _ _ _ (CallbackMore.set_code_clientId c) Hup)
    as (a0 & _ & Hf1).
  rewrite Hf1.
  destruct (Exporter.getYahooAdToken d1 now endpoint (OAuthCallback.set_code c a0) false)
    as [tok d2].
  destruct (String.eqb tok EmptyString); discriminate.
Qed.

(** ** The web pixel: the result of a run *)

(** X24. What [sendConversionData] returns: [true] after a request that
    was answered with an OK status, none sent after it; [false] only after
    three requests, none of them answered with an OK status; an error only
    when the encryption or the proof-of-work of an attempt throws, after as
    many requests as attempts before it. *)
Theorem sendConversionData_result
    (encrypt : Pixel.Payload -> string -> option string)
    (purchase : Pixel.Purchase) (env : nat -> Pixel.AttemptEnv) (pow_fuel : nat) :
  let '(r, sent) := Pixel.sendConversionData encrypt purchase env pow_fuel in
  (r = Done true ->
     exists k, (k < 3)%nat /\ length sent = S k
               /\ Pixel.fetched (env k) = Pixel.FetchOk)
  /\ (r = Done false ->
        length sent = 3%nat
        /\ forall i, (i < 3)%nat -> Pixel.fetched (env i) <> Pixel.FetchOk)
  /\ (r = Threw ->
        exists k, (k < 3)%nat /\ length sent = k
                  /\ (encrypt (Pixel.build_payload purchase (env k))
                              (Pixel.enc_rand (env k)) = None
                      \/ Pixel.makePow pow_fuel (Pixel.pow_now (env k))
                           (Pixel.pow_rand (env k)) = Threw))
  /\ (r = OutOfFuel ->
        exists k, (k < 3)%nat /\ length sent = k
                  /\ Pixel.makePow pow_fuel (Pixel.pow_now (env k))
                       (Pixel.pow_rand (env k)) = OutOfFuel).
Proof.
  unfold Pixel.sendConversionData, Pixel.MAX_RETRIES.
  cbn [Pixel.sendConversionData_from Nat.ltb Nat.leb Nat.sub Nat.add].
  assert (H3 : forall i, (i < 3)%nat -> i = 0%nat \/ i = 1%nat \/ i = 2%nat) by lia.
  destruct (encrypt (Pixel.build_payload purchase (env 0%nat)) _) eqn:He0;
    [|repeat split; try discriminate; intros _; exists 0%nat; cbn; repeat split; auto; lia].
  destruct (Pixel.makePow pow_fuel (Pixel.pow_now (env 0%nat)) _) eqn:Hp0;
    [|repeat split; try discriminate; intros _; exists 0%nat; cbn; repeat split; auto; lia ..].
  destruct (Pixel.fetched (env 0%nat)) eqn:Hf0;
    [repeat split; try discriminate; intros _; exists 0%nat; cbn; repeat split; auto; lia|..].
  all: destruct (encrypt (Pixel.build_payload purchase (env 1%nat)) _) eqn:He1;
    [|repeat split; try discriminate; intros _; exists 1%nat; cbn; repeat split; auto; lia].
  all: destruct (Pixel.makePow pow_fuel (Pixel.pow_now (env 1%nat)) _) eqn:Hp1;
    [|repeat split; try discriminate; intros _; exists 1%nat; cbn; repeat split; auto; lia ..].
  all: destruct (Pixel.fetched (env 1%nat)) eqn:Hf1;
    [repeat split; try discriminate; intros _; exists 1%nat; cbn; repeat split; auto; lia|..].
  all: destruct (encrypt (Pixel.build_payload purchase (env 2%nat)) _) eqn:He2;
    [|repeat split; try discriminate; intros _; exists 2%nat; cbn; repeat split; auto; lia].
  all: destruct (Pixel.makePow pow_fuel (Pixel.pow_now (env 2%nat)) _) eqn:Hp2;
    [|repeat split; try discriminate; intros _; exists 2%nat; cbn; repeat split; auto; lia ..].
  all: destruct (Pixel.fetched (env 2%nat)) eqn:Hf2;
    [repeat split; try discriminate; intros _; exists 2%nat; cbn; repeat split; auto; lia|..].
  all: repeat split; try discriminate; try reflexivity.
  all: intros i Hi; destruct (H3 i Hi) as [->|[->| ->]]; congruence.
Qed.

(** ** The script that renames the application *)

Module ScriptsMore.
Import Scripts.

Lemma fold_parseArg (args : list string) : forall options,
  fold_left parseArg args options
  = {| name := later (name options) (name (parseArgs args));
       toml := later (toml options) (toml (parseArgs args)) |}.
Proof.
  unfold parseArgs. induction args as [|arg args IH] using rev_ind; intros options.
  - destruct options; reflexivity.
  - rewrite !fold_left_app. cbn [fold_left].
    rewrite (IH options), (IH {| name := None; toml := None |}).
    unfold parseArg. cbn [name toml later].
    destruct (startsWith "--name=" arg); [reflexivity|].
    destruct (startsWith "--toml=" arg); [reflexivity|].
    cbn [name toml]. reflexivity.
Qed.

End ScriptsMore.

(** X25. The arguments of the script are read from left to right and the
    last setting of each option wins: the options of two lists of arguments
    one after the other are those of the second where it sets them, else
    those of the first.  An argument that starts with [--name=] sets the
    name to what follows the prefix and leaves the other option; one that
    starts with [--toml=] does so for the file; an argument that is neither
    changes nothing, wherever it stands; without arguments both options are
    unset. *)
Theorem parseArgs_last_wins (first second : list string) :
  Scripts.parseArgs (first ++ second)
  = {| Scripts.name := Scripts.later (Scripts.name (Scripts.parseArgs first))
                                     (Scripts.name (Scripts.parseArgs second));
       Scripts.toml := Scripts.later (Scripts.toml (Scripts.parseArgs first))
                                     (Scripts.toml (Scripts.parseArgs second)) |}
  /\ Scripts.parseArgs [] = {| Scripts.name := None; Scripts.toml := None |}
  /\ (forall arg,
        Scripts.startsWith "--name=" arg = true ->
        Scripts.parseArgs (first ++ [arg])
        = {| Scripts.name := Some (Scripts.substring7 arg);
             Scripts.toml := Scripts.toml (Scripts.parseArgs first) |})
  /\ (forall arg,
        Scripts.startsWith "--name=" arg = false ->
        Scripts.startsWith "--toml=" arg = true ->
        Scripts.parseArgs (first ++ [arg])
        = {| Scripts.name := Scripts.name (Scripts.parseArgs first);
             Scripts.toml := Some (Scripts.substring7 arg) |})
  /\ (forall arg,
        Scripts.startsWith "--name=" arg = false ->
        Scripts.startsWith "--toml=" arg = false ->
        Scripts.parseArgs (first ++ arg :: second) = Scripts.parseArgs (first ++ second)).
Proof.
  split; [|split; [reflexivity|split; [|split]]].
  - unfold Scripts.parseArgs at 1. rewrite fold_left_app.
    apply ScriptsMore.fold_parseArg.
  - intros arg Hn. unfold Scripts.parseArgs. rewrite fold_left_app. cbn [fold_left].
    unfold Scripts.parseArg at 1. rewrite Hn. reflexivity.
  - intros arg Hn Ht. unfold Scripts.parseArgs. rewrite fold_left_app. cbn [fold_left].
    unfold Scripts.parseArg at 1. rewrite Hn, Ht. reflexivity.
  - intros arg Hn Ht. unfold Scripts.parseArgs. rewrite !fold_left_app. cbn [fold_left].
    unfold Scripts.parseArg at 2. rewrite Hn, Ht. reflexivity.
Qed.
